(** * Appearance-data extraction and reconciliation pipeline

    A shallow embedding of the scraper scripts

      - [scraper/extract_appearance_data.py]
      - [scraper/augment_bench_dnp.py]
      - [scraper/normalize_and_check_appearance.py]

    and the properties their specification states about them.

    Conventions of the embedding.

    - Python [str] is Rocq [string]; a character stands for the code
      point of the same number, so the development covers text whose
      code points are below 256.
    - Python sets are [gset string]; insertion-ordered dictionaries are
      association lists; [Optional[T]] is [option T].
    - Code that may raise returns a [result]; [try ... except Exception]
      is [try_except].
    - Library calls whose text syntax is not the subject of any property
      ([BeautifulSoup], [json.loads], [json.dumps], [urljoin]) and the
      network ([request_html]) are parameters of the sections that use
      them; module [Demo] gives small instances of them to run the code
      on. *)

From Stdlib Require Import ZArith NArith Ascii String.
From stdpp Require Import base option list gmap sets strings sorting.

Set Default Proof Using "Type".
Set Warnings "-register-all,-clear-no-such-hyp".

(** * Exceptions *)

Module Exc.

Inductive exn : Type :=
| ValueError
| AttributeError
| TypeError
| JSONDecodeError
| ParserError.

Inductive result (A : Type) : Type :=
| Ok (a : A)
| Raise (e : exn).
Global Arguments Ok {A} a.
Global Arguments Raise {A} e.

Definition is_ok {A} (r : result A) : bool :=
  match r with Ok _ => true | Raise _ => false end.

Definition to_option {A} (r : result A) : option A :=
  match r with Ok a => Some a | Raise _ => None end.

Global Instance result_ret : MRet result := fun _ a => Ok a.
Global Instance result_bind : MBind result := fun _ _ f r =>
  match r with Ok a => f a | Raise e => Raise e end.

(** [try: c except Exception: h] *)
Definition try_except {A} (c : result A) (h : exn -> result A) : result A :=
  match c with Ok a => Ok a | Raise e => h e end.

End Exc.
Import Exc.

(** * Python string operations used by the scripts *)

Module PyStr.

Definition code (c : ascii) : N := N_of_ascii c.

Definition in_range (lo hi : N) (c : ascii) : bool :=
  ((lo <=? code c) && (code c <=? hi))%N.

(** [str.isspace] on code points below 256: TAB..CR, FS..US, space,
    NEL and NBSP. This is the set [str.strip()] removes. *)
Definition is_space (c : ascii) : bool :=
  in_range 9 13 c || in_range 28 32 c || (code c =? 133)%N || (code c =? 160)%N.

Definition is_digit (c : ascii) : bool := in_range 48 57 c.

Definition is_empty (s : string) : bool :=
  match s with EmptyString => true | _ => false end.

Fixpoint drop_while (p : ascii -> bool) (s : string) : string :=
  match s with
  | EmptyString => EmptyString
  | String c s' => if p c then drop_while p s' else s
  end.

(** [s] without its longest suffix of characters satisfying [p]. *)
Fixpoint drop_while_end (p : ascii -> bool) (s : string) : string :=
  match s with
  | EmptyString => EmptyString
  | String c s' =>
      let t := drop_while_end p s' in
      if is_empty t && p c then EmptyString else String c t
  end.

Definition lstrip (s : string) : string := drop_while is_space s.
Definition rstrip (s : string) : string := drop_while_end is_space s.

(** [s.strip()] *)
Definition strip (s : string) : string := rstrip (lstrip s).

(** [s.startswith(p)] *)
Definition startswith (p s : string) : bool := String.prefix p s.

(** [s.endswith(p)] *)
Definition endswith (p s : string) : bool :=
  String.prefix (String.rev p) (String.rev s).

(** [sub in s] *)
Fixpoint contains (sub s : string) : bool :=
  String.prefix sub s ||
  match s with
  | EmptyString => false
  | String _ s' => contains sub s'
  end.

(** [s.replace(old, new)] for a non-empty [old]: occurrences are
    replaced left to right and do not overlap. [skip] counts the
    characters of the occurrence just replaced that are still to be
    passed over. *)
Fixpoint replace_go (old new : string) (skip : nat) (s : string) : string :=
  match s with
  | EmptyString => EmptyString
  | String c s' =>
      match skip with
      | S k => replace_go old new k s'
      | O =>
          if String.prefix old s
          then new +:+ replace_go old new (String.length old - 1) s'
          else String c (replace_go old new 0 s')
      end
  end.

(** With an empty [old] Python puts [new] before every character and
    at the end. *)
Fixpoint intersperse_all (new s : string) : string :=
  match s with
  | EmptyString => new
  | String c s' => new +:+ String c (intersperse_all new s')
  end.

Definition replace (old new s : string) : string :=
  match old with
  | EmptyString => intersperse_all new s
  | _ => replace_go old new 0 s
  end.

(** [s.split(sep)[0]] for a one-character separator: the text before
    the first [sep], the whole of [s] when there is none. *)
Fixpoint split_head (sep : ascii) (s : string) : string :=
  match s with
  | EmptyString => EmptyString
  | String c s' => if Ascii.eqb c sep then EmptyString else String c (split_head sep s')
  end.

(** [s.lower()] on code points below 256: A..Z and the Latin-1 capitals
    (all of 192..222 but the multiplication sign 215) move up by 32. *)
Definition lower_char (c : ascii) : ascii :=
  if in_range 65 90 c || (in_range 192 222 c && negb (code c =? 215)%N)
  then ascii_of_N (code c + 32) else c.

Fixpoint lower (s : string) : string :=
  match s with
  | EmptyString => EmptyString
  | String c s' => String (lower_char c) (lower s')
  end.

Fixpoint forallb (p : ascii -> bool) (s : string) : bool :=
  match s with
  | EmptyString => true
  | String c s' => p c && forallb p s'
  end.

(** The longest prefix of [s] whose characters satisfy [p]. *)
Fixpoint take_while (p : ascii -> bool) (s : string) : string :=
  match s with
  | EmptyString => EmptyString
  | String c s' => if p c then String c (take_while p s') else EmptyString
  end.

(** Python's [<=] on [str]: lexicographic on code points. It is
    [String.le] of stdpp, which is decidable, total and a partial
    order. *)
Definition sorted (l : list string) : list string := merge_sort String.le l.

Global Arguments strip : simpl never.
Global Arguments replace : simpl never.
Global Arguments contains : simpl never.
Global Arguments lower : simpl never.
Global Arguments split_head : simpl never.
Global Arguments startswith : simpl never.
Global Arguments endswith : simpl never.

End PyStr.
Import PyStr.

(** * The numeric literals accepted by [int] and [float] *)

Module PyNum.

(** Whitespace that [int(str)] and [float(str)] skip at both ends:
    the ASCII [isspace] set, and the non-ASCII spaces NEL and NBSP,
    which the conversion first maps to a blank. The separators
    FS..US are not skipped. *)
Definition num_space (c : ascii) : bool :=
  in_range 9 13 c || (code c =? 32)%N || (code c =? 133)%N || (code c =? 160)%N.

Definition num_strip (s : string) : string :=
  drop_while_end num_space (drop_while num_space s).

Definition is_underscore (c : ascii) : bool := (code c =? 95)%N.

(** An underscore is accepted only between two digits; accepted
    underscores are dropped. [prev] is the character before [s]. *)
Fixpoint strip_underscores (prev : ascii) (s : string) : option string :=
  match s with
  | EmptyString => if is_underscore prev then None else Some EmptyString
  | String c s' =>
      if is_underscore c then
        (if is_digit prev then strip_underscores c s' else None)
      else if is_underscore prev && negb (is_digit c) then None
      else String c <$> strip_underscores c s'
  end.

(** Optional sign: [(negative, rest)]. *)
Definition split_sign (s : string) : bool * string :=
  match s with
  | String c s' =>
      if (code c =? 45)%N then (true, s')
      else if (code c =? 43)%N then (false, s')
      else (false, s)
  | EmptyString => (false, s)
  end.

Definition digit_value (c : ascii) : N := (code c - 48)%N.

Fixpoint digits_value_go (acc : N) (s : string) : N :=
  match s with
  | EmptyString => acc
  | String c s' => digits_value_go (10 * acc + digit_value c) s'
  end.

Definition digits_value (s : string) : N := digits_value_go 0 s.

Definition all_digits (s : string) : bool :=
  negb (is_empty s) && PyStr.forallb is_digit s.

(** [sys.get_int_max_str_digits()], the default limit on the number
    of digits [int] converts. *)
Definition max_str_digits : nat := 4300.

(** [int(s)] for a [str] argument, base 10. *)
Definition py_int (s : string) : result Z :=
  let '(neg, body) := split_sign (num_strip s) in
  match strip_underscores "000"%char body with
  | None => Raise ValueError
  | Some ds =>
      if all_digits ds then
        if max_str_digits <? String.length ds then Raise ValueError
        else
          let v := Z.of_N (digits_value ds) in
          Ok (if neg then (- v)%Z else v)
      else Raise ValueError
  end.

(** A Python [float], kept as the decimal it was read from: the value
    of [F_dec neg m e] is [(-1)^neg * m * 10^e] before it is rounded
    to a binary double. *)
Inductive pyfloat : Type :=
| F_nan
| F_inf (neg : bool)
| F_dec (neg : bool) (mantissa : N) (exp10 : Z).

Global Instance pyfloat_eq_dec : EqDecision pyfloat.
Proof. solve_decision. Defined.

Definition is_e (c : ascii) : bool := (code c =? 101)%N || (code c =? 69)%N.
Definition is_dot (c : ascii) : bool := (code c =? 46)%N.

(** The exponent part, after the mantissa: empty, or [e], an optional
    sign and at least one digit. *)
Definition parse_exponent (s : string) : option Z :=
  match s with
  | EmptyString => Some 0%Z
  | String c s' =>
      if is_e c then
        let '(neg, ds) := split_sign s' in
        if all_digits ds then
          let v := Z.of_N (digits_value ds) in
          Some (if neg then (- v)%Z else v)
        else None
      else None
  end.

(** [digits [. digits] [exponent]] or [. digits [exponent]]. *)
Definition parse_decimal (neg : bool) (s : string) : option pyfloat :=
  let ip := take_while is_digit s in
  let r1 := drop_while is_digit s in
  let '(fp, r2) :=
    match r1 with
    | String c r => if is_dot c then (take_while is_digit r, drop_while is_digit r)
                    else (EmptyString, r1)
    | EmptyString => (EmptyString, r1)
    end in
  if is_empty ip && is_empty fp then None
  else
    e ← parse_exponent r2;
    Some (F_dec neg (digits_value (ip +:+ fp)) (e - Z.of_nat (String.length fp))%Z).

Definition parse_inf_or_nan (neg : bool) (s : string) : option pyfloat :=
  let l := lower s in
  if String.eqb l "inf" || String.eqb l "infinity" then Some (F_inf neg)
  else if String.eqb l "nan" then Some F_nan
  else None.

(** [float(s)] for a [str] argument. *)
Definition py_float (s : string) : result pyfloat :=
  match strip_underscores "000"%char (num_strip s) with
  | None => Raise ValueError
  | Some t =>
      let '(neg, body) := split_sign t in
      match parse_decimal neg body with
      | Some f => Ok f
      | None =>
          match parse_inf_or_nan neg body with
          | Some f => Ok f
          | None => Raise ValueError
          end
      end
  end.

(** [re.match(r'^(\d+)', s)]: group 1, the leading run of digits,
    when it is not empty. *)
Definition match_leading_digits (s : string) : option string :=
  let ds := take_while is_digit s in
  if is_empty ds then None else Some ds.

End PyNum.
Import PyNum.

(** * [parse_minutes] and [parse_float] *)

Definition parse_minutes (raw : string) : result (option Z) :=
  if is_empty raw then Ok None
  else
    try_except (v ← py_int raw; mret (Some v))
      (fun _ =>
         (* Some rows might be like '90+2' *)
         match match_leading_digits raw with
         | Some g => try_except (v ← py_int g; mret (Some v)) (fun _ => Ok None)
         | None => Ok None
         end).

(** [raw] is [None] when the cell is missing; for a string, [str(raw)]
    is [raw]. *)
Definition parse_float (raw : option string) : result (option pyfloat) :=
  match raw with
  | None => Ok None
  | Some raw =>
      let s := strip raw in
      if String.eqb s "" || String.eqb s "-" then Ok None
      else
        try_except (v ← py_float s; mret (Some v))
          (fun _ =>
             (* Sometimes comma decimal or stray chars *)
             let s := replace "," "" s in
             try_except (v ← py_float s; mret (Some v)) (fun _ => Ok None))
  end.

(** * The parsed document

    What [BeautifulSoup(html, 'html.parser')] builds: elements with
    their attributes and children, text and comments. The root of a
    document is itself an element (named [[document]]). *)

Module Soup.

Inductive node : Type :=
| Tag (name : string) (attrs : gmap string string) (children : list node)
| NavigableString (text : string)
| Comment (text : string).

(** [tag.descendants]: every node below [n], in document order. *)
Fixpoint descendants (n : node) : list node :=
  match n with
  | Tag _ _ cs =>
      (fix go (l : list node) : list node :=
         match l with
         | [] => []
         | c :: l' => c :: descendants c ++ go l'
         end) cs
  | _ => []
  end.

Definition children (n : node) : list node :=
  match n with Tag _ _ cs => cs | _ => [] end.

Definition is_tag (nm : string) (n : node) : bool :=
  match n with Tag t _ _ => String.eqb t nm | _ => false end.

(** [tag.get(k)] *)
Definition get_attr (k : string) (n : node) : option string :=
  match n with Tag _ a _ => a !! k | _ => None end.

(** Splitting at whitespace, as the parser does for the value of
    [class]. [cur] is the word being read. *)
Fixpoint words_go (cur : string) (s : string) : list string :=
  match s with
  | EmptyString => if is_empty cur then [] else [cur]
  | String c s' =>
      if is_space c
      then (if is_empty cur then words_go EmptyString s' else cur :: words_go EmptyString s')
      else words_go (cur +:+ String c EmptyString) s'
  end.

(** [tag['class']], a list for this multi-valued attribute. *)
Definition classes (n : node) : list string :=
  match get_attr "class" n with
  | Some v => words_go EmptyString v
  | None => []
  end.

(** ['class' in tag.attrs and c in tag['class']]; also the test of
    [find_all(..., class_=c)]. *)
Definition has_class (c : string) (n : node) : bool :=
  bool_decide (c ∈ classes n).

(** [tag.find_all(nm)] *)
Definition find_all (nm : string) (n : node) : list node :=
  List.filter (is_tag nm) (descendants n).

(** [tag.find(nm)] *)
Definition find (nm : string) (n : node) : option node :=
  head (find_all nm n).

(** [tag.find_all(nm, recursive=False)] *)
Definition find_all_children (nm : string) (n : node) : list node :=
  List.filter (is_tag nm) (children n).

(** [tag.find(nm, attrs={k: v})] *)
Definition find_with_attr (nm k v : string) (n : node) : option node :=
  head (List.filter (fun x => is_tag nm x && bool_decide (get_attr k x = Some v))
          (descendants n)).

(** [soup.find_all('div', class_=c)] *)
Definition find_all_class (nm c : string) (n : node) : list node :=
  List.filter (fun x => is_tag nm x && has_class c x) (descendants n).

(** The text strings below a tag, comments left out. *)
Definition strings (n : node) : list string :=
  match n with
  | NavigableString s => [s]
  | Comment _ => []
  | Tag _ _ _ =>
      omap (fun x => match x with NavigableString s => Some s | _ => None end)
        (descendants n)
  end.

Definition join (l : list string) : string := foldr String.append EmptyString l.

(** [tag.get_text()] *)
Definition get_text (n : node) : string := join (strings n).

(** [tag.get_text(strip=True)]: every string is stripped, and the
    empty ones are left out. *)
Definition get_text_strip (n : node) : string :=
  join (List.filter (fun s => negb (is_empty s)) (strip <$> strings n)).

(** [soup.find_all(string=lambda text: isinstance(text, Comment))] *)
Definition comments (n : node) : list string :=
  omap (fun x => match x with Comment s => Some s | _ => None end) (descendants n).

Global Arguments get_text_strip : simpl never.
Global Arguments get_text : simpl never.
Global Arguments find : simpl never.
Global Arguments find_all : simpl never.
Global Arguments find_with_attr : simpl never.
Global Arguments find_all_class : simpl never.
Global Arguments has_class : simpl never.

End Soup.
Import Soup.

(** * Appearance rows *)

Record AppearanceRow : Type := mkAppearanceRow {
  matchId : string;
  matchUrl : string;
  playerName : string;
  teamName : string;
  in_squad : bool;
  started : bool;
  minutes_played : option Z;
  npXg : option pyfloat;
  xAG : option pyfloat;
}.

Global Instance AppearanceRow_eq_dec : EqDecision AppearanceRow.
Proof. solve_decision. Defined.

(** [r.started = b] *)
Definition set_started (b : bool) (r : AppearanceRow) : AppearanceRow :=
  mkAppearanceRow (matchId r) (matchUrl r) (playerName r) (teamName r)
    (in_squad r) b (minutes_played r) (npXg r) (xAG r).

(** * The extractor, [extract_appearance_data.py] *)

Definition is_hex_lower (c : ascii) : bool := is_digit c || in_range 97 102 c.

(** [re.search(r'/matches/([a-f0-9]{8})', s)]: group 1 of the leftmost
    match. *)
Fixpoint search_match_id (s : string) : option string :=
  match s with
  | EmptyString => None
  | String _ s' =>
      let g := String.substring 9 8 s in
      if String.prefix "/matches/" s && (String.length g =? 8) && PyStr.forallb is_hex_lower g
      then Some g
      else search_match_id s'
  end.

Definition match_id_of (match_url : string) : string :=
  default "" (search_match_id match_url).

Definition cell_text (cell : option node) : option string :=
  get_text_strip <$> cell.

(** The body of the loop over the rows of a statistics table.
    [started_flag] and [rows] are the loop's variables. *)
Fixpoint player_rows_loop (trs : list node) (team_name_from_caption match_id match_url : string)
    (started_flag : bool) (rows : list AppearanceRow) : result (list AppearanceRow) :=
  match trs with
  | [] => Ok rows
  | tr :: rest =>
      let continue_ flag rows :=
        player_rows_loop rest team_name_from_caption match_id match_url flag rows in
      (* Header breaks such as 'Bench' *)
      if has_class "thead" tr then
        continue_ (if contains "Bench" (get_text_strip tr) then false else started_flag) rows
      (* Skip separator rows *)
      else if bool_decide (get_attr "data-row" tr = Some "0")
              && contains "min" (lower (get_text tr))
              && contains "player" (lower (get_text tr)) then
        continue_ started_flag rows
      else
        let player_cell :=
          match find_with_attr "th" "data-stat" "player" tr with
          | Some c => Some c
          | None => find_with_attr "td" "data-stat" "player" tr
          end in
        match player_cell with
        | None => continue_ started_flag rows
        | Some player_cell =>
            let player_name := get_text_strip player_cell in
            if is_empty player_name then continue_ started_flag rows
            else
              let minutes_cell := find_with_attr "td" "data-stat" "minutes" tr in
              let npxg_cell := find_with_attr "td" "data-stat" "npxg" tr in
              let xa_cell := find_with_attr "td" "data-stat" "xg_assist" tr in
              minutes_val ← parse_minutes (default "" (cell_text minutes_cell));
              npxg_val ← parse_float (cell_text npxg_cell);
              xa_val ← parse_float (cell_text xa_cell);
              continue_ started_flag
                (rows ++ [mkAppearanceRow match_id match_url player_name
                            team_name_from_caption true started_flag
                            minutes_val npxg_val xa_val])
        end
  end.

Definition extract_player_rows_from_table (table : node)
    (team_name_from_caption match_id match_url : string) : result (list AppearanceRow) :=
  match find "tbody" table with
  | None => Ok []
  | Some tbody =>
      player_rows_loop (find_all_children "tr" tbody)
        team_name_from_caption match_id match_url true []
  end.

(** [th and 'Bench' in th.get_text(strip=True)] for [th = tr.find('th')] *)
Definition is_bench_row (tr : node) : bool :=
  match find "th" tr with
  | Some th => contains "Bench" (get_text_strip th)
  | None => false
  end.

(** The name in a lineup cell: that of its link when it has one. *)
Definition cell_name (td : node) : string :=
  match find "a" td with
  | Some a => get_text_strip a
  | None => get_text_strip td
  end.

(** [tds[1]] when [len(tds) >= 2] *)
Definition second_td (tr : node) : option node :=
  match find_all "td" tr with
  | _ :: td :: _ => Some td
  | _ => None
  end.

Definition unused_sub_row (match_id match_url player_name team_name : string) : AppearanceRow :=
  mkAppearanceRow match_id match_url player_name team_name true false None None None.

(** The loop over the rows of one lineup table; [seen_bench] and
    [results] are its variables. *)
Fixpoint bench_loop (trs : list node) (played_players : gset string)
    (match_id match_url team_name : string)
    (seen_bench : bool) (results : list AppearanceRow) : list AppearanceRow :=
  match trs with
  | [] => results
  | tr :: rest =>
      let continue_ seen results :=
        bench_loop rest played_players match_id match_url team_name seen results in
      if is_bench_row tr then continue_ true results
      else if negb seen_bench then continue_ seen_bench results
      else
        (* bench row: second td has player link *)
        match second_td tr with
        | None => continue_ seen_bench results
        | Some td =>
            let player_name := cell_name td in
            if is_empty player_name then continue_ seen_bench results
            else if bool_decide (player_name ∈ played_players) then
              (* This bench player actually appeared; skip to avoid duplicate *)
              continue_ seen_bench results
            else
              continue_ seen_bench
                (results ++ [unused_sub_row match_id match_url player_name team_name])
        end
  end.

(** Team name from first header row, without formation suffix in
    parentheses. *)
Definition lineup_team_name (first_th : node) : string :=
  strip (split_head "("%char (get_text_strip first_th)).

Fixpoint unused_subs_loop (lineup_divs : list node) (played_players : gset string)
    (match_id match_url : string) (results : list AppearanceRow) : list AppearanceRow :=
  match lineup_divs with
  | [] => results
  | lineup_div :: rest =>
      let continue_ results :=
        unused_subs_loop rest played_players match_id match_url results in
      match find "table" lineup_div with
      | None => continue_ results
      | Some table =>
          match find "th" table with
          | None => continue_ results
          | Some first_th =>
              continue_
                (bench_loop (find_all "tr" table) played_players match_id match_url
                   (lineup_team_name first_th) false results)
          end
      end
  end.

Definition extract_unused_subs_from_lineups (soup : node) (played_players : gset string)
    (match_id match_url : string) : list AppearanceRow :=
  unused_subs_loop (find_all_class "div" "lineup" soup) played_players match_id match_url [].

(** The loop over the rows of one lineup table in
    [get_lineup_starters]; it stops at the Bench row. *)
Fixpoint starters_loop (trs : list node) (starters : gset string) : gset string :=
  match trs with
  | [] => starters
  | tr :: rest =>
      if is_bench_row tr then starters
      else
        match second_td tr with
        | None => starters_loop rest starters
        | Some td =>
            let name := cell_name td in
            if is_empty name then starters_loop rest starters
            else starters_loop rest ({[ name ]} ∪ starters)
        end
  end.

Fixpoint lineups_starters_loop (lineup_divs : list node) (starters : gset string) : gset string :=
  match lineup_divs with
  | [] => starters
  | lineup_div :: rest =>
      match find "table" lineup_div with
      | None => lineups_starters_loop rest starters
      | Some table =>
          lineups_starters_loop rest (starters_loop (find_all "tr" table) starters)
      end
  end.

Definition get_lineup_starters (soup : node) : gset string :=
  lineups_starters_loop (find_all_class "div" "lineup" soup) ∅.

(** [table_id.startswith('stats_') and table_id.endswith('_summary')] *)
Definition is_summary_table (tbl : node) : bool :=
  let table_id := default "" (get_attr "id" tbl) in
  startswith "stats_" table_id && endswith "_summary" table_id.

Definition summary_tables (soup : node) : list node :=
  List.filter is_summary_table (find_all "table" soup).

(** The loop over the candidate tables in [extract_from_html];
    [results] and [played_players] are its variables. *)
Fixpoint tables_loop (candidate_tables : list node) (starters_from_lineup : gset string)
    (match_url : string) (results : list AppearanceRow) (played_players : gset string)
    : result (list AppearanceRow * gset string) :=
  match candidate_tables with
  | [] => Ok (results, played_players)
  | tbl :: rest =>
      match find "caption" tbl with
      | None =>
          (* Some pages might not have <caption>, skip *)
          tables_loop rest starters_from_lineup match_url results played_players
      | Some caption_el =>
          let caption_text := get_text_strip caption_el in
          let team_name := strip (replace "Player Stats" "" caption_text) in
          let match_id := match_id_of match_url in
          rows ← extract_player_rows_from_table tbl team_name match_id match_url;
          (* Override started flag using lineup starters if available *)
          let rows :=
            if bool_decide (starters_from_lineup ≠ ∅)
            then (fun r => set_started (bool_decide (playerName r ∈ starters_from_lineup)) r) <$> rows
            else rows in
          let played_players := foldl (fun s r => {[ playerName r ]} ∪ s) played_players rows in
          tables_loop rest starters_from_lineup match_url (results ++ rows) played_players
      end
  end.

Section extract.

(** [BeautifulSoup(text, 'html.parser')] *)
Variable BeautifulSoup : string -> result node.

(** The tables found in the comments of the document. A comment whose
    text does not parse is passed over. *)
Definition commented_tables (soup : node) : list node :=
  c ← comments soup;
  if negb (contains "table" c) || negb (contains "stats_" c) then []
  else
    match BeautifulSoup c with
    | Ok sub_soup => summary_tables sub_soup
    | Raise _ => []
    end.

Definition candidate_tables (soup : node) : list node :=
  summary_tables soup ++ commented_tables soup.

(** The part of [extract_from_html] that follows the search for the
    candidate tables. *)
Definition extract_from_tables (candidate_tables : list node) (soup : node)
    (match_url : string) : result (list AppearanceRow) :=
  let starters_from_lineup := get_lineup_starters soup in
  '(results, played_players) ←
    tables_loop candidate_tables starters_from_lineup match_url [] ∅;
  (* Include unused subs from lineup sections *)
  let match_id := match_id_of match_url in
  mret (results ++
        extract_unused_subs_from_lineups soup played_players match_id match_url).

Definition extract_from_soup (soup : node) (match_url : string)
    : result (list AppearanceRow) :=
  extract_from_tables (candidate_tables soup) soup match_url.

Definition extract_from_html (html match_url : string) : result (list AppearanceRow) :=
  soup ← BeautifulSoup html;
  extract_from_soup soup match_url.

End extract.

(** * JSON values and the files of the pipeline *)

Module Json.

(** What [json.loads] returns. A dictionary keeps the order of its
    keys. *)
Inductive json : Type :=
| JNull
| JBool (b : bool)
| JInt (z : Z)
| JFloat (f : pyfloat)
| JStr (s : string)
| JList (l : list json)
| JDict (d : list (string * json)).

Fixpoint assoc (k : string) (d : list (string * json)) : option json :=
  match d with
  | [] => None
  | (k', v) :: d' => if String.eqb k' k then Some v else assoc k d'
  end.

(** [obj.get(k)]: [None] for a missing key; an object that is not a
    dictionary has no [get]. *)
Definition get (k : string) (obj : json) : result json :=
  match obj with
  | JDict d => Ok (default JNull (assoc k d))
  | _ => Raise AttributeError
  end.

Definition as_str (v : json) : option string :=
  match v with JStr s => Some s | _ => None end.

(** The float nearest to a decimal is zero when the decimal is at most
    [2^-1075] in absolute value. *)
Definition float_is_zero (x : pyfloat) : bool :=
  match x with
  | F_dec _ m e =>
      (m =? 0)%N || ((e <? 0)%Z && (Z.of_N m * 2 ^ 1075 <=? 10 ^ (- e))%Z)
  | _ => false
  end.

(** [bool(v)], the test [not v] negates: [None], [False], zero and the
    empty string, list and dictionary are false. *)
Definition bool_of (v : json) : bool :=
  match v with
  | JNull => false
  | JBool b => b
  | JInt z => negb (z =? 0)%Z
  | JFloat x => negb (float_is_zero x)
  | JStr s => negb (is_empty s)
  | JList l => match l with [] => false | _ => true end
  | JDict d => match d with [] => false | _ => true end
  end.

(** A list or a dictionary cannot be a key of a dictionary or an
    element of a set, nor can a tuple that holds one: [hash] raises
    [TypeError]. *)
Definition hashable (v : json) : bool :=
  match v with
  | JList _ | JDict _ => false
  | _ => true
  end.

(** The keys of a dictionary, each once, in the order in which they
    were first set. *)
Fixpoint keys (d : list (string * json)) : list string :=
  match d with
  | [] => []
  | (k, _) :: d' => k :: List.filter (fun k' => negb (String.eqb k' k)) (keys d')
  end.

(** [for r in data]: the elements of a list, the keys of a dictionary,
    the characters of a string; no other value can be iterated. *)
Definition iter (data : json) : result (list json) :=
  match data with
  | JList l => Ok l
  | JDict d => Ok (JStr <$> keys d)
  | JStr s => Ok ((fun c => JStr (String c EmptyString)) <$> list_ascii_of_string s)
  | _ => Raise TypeError
  end.

Definition of_option {A} (f : A -> json) (o : option A) : json :=
  match o with Some a => f a | None => JNull end.

(** [dataclasses.asdict(row)] *)
Definition asdict (r : AppearanceRow) : json :=
  JDict [("matchId", JStr (matchId r));
         ("matchUrl", JStr (matchUrl r));
         ("playerName", JStr (playerName r));
         ("teamName", JStr (teamName r));
         ("in_squad", JBool (in_squad r));
         ("started", JBool (started r));
         ("minutes_played", of_option JInt (minutes_played r));
         ("npXg", of_option JFloat (npXg r));
         ("xAG", of_option JFloat (xAG r))].

End Json.
Import Json.

(** The files the scripts read and write. A text file is the text
    Python reads from it; [None] is a file that does not exist. Opening,
    reading and writing are taken to succeed. The failure ledger is
    kept as its entries [(url, reason)], without their time stamps. *)
Record files : Type := mkFiles {
  OUTPUT_JSONL : option string;
  OUTPUT_JSON : option string;
  FAIL_LOG : list (string * string);
}.

Definition set_jsonl (c : option string) (f : files) : files :=
  mkFiles c (OUTPUT_JSON f) (FAIL_LOG f).
Definition set_json (c : option string) (f : files) : files :=
  mkFiles (OUTPUT_JSONL f) c (FAIL_LOG f).

Definition newline : string := String "010" EmptyString.

(** [for line in f]: the lines of a text, each with its newline; a last
    line without one is kept as it is. [cur] is the line being read. *)
Fixpoint readlines_go (cur : string) (s : string) : list string :=
  match s with
  | EmptyString => if is_empty cur then [] else [cur]
  | String c s' =>
      if (code c =? 10)%N
      then (cur +:+ newline) :: readlines_go EmptyString s'
      else readlines_go (cur +:+ String c EmptyString) s'
  end.

Definition readlines (content : string) : list string := readlines_go EmptyString content.

Definition save_failure (url reason : string) (f : files) : files :=
  mkFiles (OUTPUT_JSONL f) (OUTPUT_JSON f) (FAIL_LOG f ++ [(url, reason)]).

Section store.

(** [json.loads(text)] *)
Variable json_loads : string -> result json.
(** [json.dumps(v, indent=indent, ensure_ascii=ensure_ascii)] *)
Variable json_dumps : option nat -> bool -> json -> string.

(** The loop of [load_already_processed_urls]. Only the strings among
    the [matchUrl] values are kept: no other value is equal to a URL
    of the run. *)
Fixpoint processed_loop (lines : list string) (processed : gset string) : gset string :=
  match lines with
  | [] => processed
  | line :: rest =>
      match (obj ← json_loads line; Json.get "matchUrl" obj) with
      | Ok (JStr u) => processed_loop rest ({[ u ]} ∪ processed)
      | Ok _ => processed_loop rest processed
      | Raise _ => processed_loop rest processed
      end
  end.

Definition load_already_processed_urls (f : files) : gset string :=
  match OUTPUT_JSONL f with
  | None => ∅
  | Some content => processed_loop (readlines content) ∅
  end.

Fixpoint write_rows (rows : list AppearanceRow) (content : string) : string :=
  match rows with
  | [] => content
  | row :: rest =>
      write_rows rest (content +:+ json_dumps None false (asdict row) +:+ newline)
  end.

(** Opening a file for appending creates it when it is missing. *)
Definition append_jsonl (rows : list AppearanceRow) (f : files) : files :=
  match rows with
  | [] => f
  | _ => set_jsonl (Some (write_rows rows (default "" (OUTPUT_JSONL f)))) f
  end.

(** The loop of [rebuild_full_json_from_jsonl]; a line that does not
    parse is passed over. *)
Fixpoint rebuild_loop (lines : list string) (all_rows : list json) : result (list json) :=
  match lines with
  | [] => Ok all_rows
  | line :: rest =>
      all_rows ←
        try_except (v ← json_loads line; mret (all_rows ++ [v]))
          (fun _ => mret all_rows);
      rebuild_loop rest all_rows
  end.

Definition rebuild_full_json_from_jsonl (f : files) : result files :=
  match OUTPUT_JSONL f with
  | None => Ok (set_json (Some (json_dumps None true (JList []))) f)
  | Some content =>
      all_rows ← rebuild_loop (readlines content) [];
      Ok (set_json (Some (json_dumps (Some 2) false (JList all_rows))) f)
  end.

End store.

(** * Fixtures *)

(** A fixture, as far as the scripts read it: the keys that may hold
    the link of the match report. [None] is a missing key or a null. *)
Record fixture : Type := mkFixture {
  match_report_url : option string;
  matchReportUrl : option string;
  match_report : option string;
  matchReport : option string;
}.

Definition truthy (o : option string) : bool :=
  match o with Some s => negb (is_empty s) | None => false end.

(** [a or b] *)
Definition py_or (a b : option string) : option string := if truthy a then a else b.

Definition BASE_URL : string := "https://fbref.com".

Definition to_abs_url (url : string) : string :=
  if is_empty url then ""
  else if startswith "http://" url || startswith "https://" url then url
  else if startswith "/" url then BASE_URL +:+ url
  else BASE_URL +:+ "/" +:+ url.

(** * The run of [extract_appearance_data.main]

    The pauses between requests ([time.sleep]) change no state and are
    left out; the lines the run prints are kept as events. The reason
    written to the failure ledger for a document that does not parse is
    kept without the text of the exception. *)

Definition MAX_RETRIES_PER_URL : nat := 3.
Definition BATCH_SIZE : nat := 10.
Definition BATCH_COOLDOWN_SECONDS : nat := 20.
Definition CONSECUTIVE_FAIL_CUTOFF : nat := 5.

(** What the run prints. *)
Inductive event : Type :=
| Skipping (url : string)
| Fetching (url : string)
| FailedToFetch (url : string)
| ParseErrorFor (url : string)
| NoRowsExtracted (url : string)
| Saved (url : string) (n total : nat)
| TooManyFailures
| TooManyFailuresDuringParse
| CoolingDown.

Section main.

Variable BeautifulSoup : string -> result node.
Variable json_loads : string -> result json.
Variable json_dumps : option nat -> bool -> json -> string.

(** The network: [request_html url] answers with the text of the
    page or with nothing, and the state of the world moves on. *)
Variable World : Type.
Variable request_html : string -> World -> option string * World.

Definition build_urls (fixtures : list fixture) : list string :=
  let urls :=
    omap (fun fx =>
            let url := py_or (py_or (py_or (match_report_url fx) (matchReportUrl fx))
                                (match_report fx)) (matchReport fx) in
            if truthy url then Some (to_abs_url (default "" url)) else None)
      fixtures in
  List.filter (fun u => negb (is_empty u)) urls.

(** The variables of the loop of [main], with the files, the world
    and the output. *)
Record run_state : Type := mkRun {
  run_files : files;
  run_world : World;
  run_out : list event;
  processed : gset string;
  consecutive_fails : nat;
  batch_counter : nat;
  total_saved_rows : nat;
}.

Definition print (e : event) (st : run_state) : run_state :=
  mkRun (run_files st) (run_world st) (run_out st ++ [e]) (processed st)
    (consecutive_fails st) (batch_counter st) (total_saved_rows st).

(** [save_failure(url, reason); consecutive_fails += 1] *)
Definition count_failure (url reason : string) (st : run_state) : run_state :=
  mkRun (save_failure url reason (run_files st)) (run_world st) (run_out st) (processed st)
    (consecutive_fails st + 1) (batch_counter st) (total_saved_rows st).

Definition fetch (url : string) (st : run_state) : option string * run_state :=
  let '(html, w) := request_html url (run_world st) in
  (html, mkRun (run_files st) w (run_out st) (processed st)
           (consecutive_fails st) (batch_counter st) (total_saved_rows st)).

(** The branch of [main] that saves the rows of a document. *)
Definition save_rows (url : string) (rows : list AppearanceRow) (st : run_state) : run_state :=
  let total := total_saved_rows st + length rows in
  print (Saved url (length rows) total)
    (mkRun (append_jsonl json_dumps rows (run_files st)) (run_world st) (run_out st)
       ({[ url ]} ∪ processed st) 0 (batch_counter st) total).

(** The end of an iteration that reached the batch counter. *)
Definition end_of_iteration (st : run_state) : run_state :=
  let st := mkRun (run_files st) (run_world st) (run_out st) (processed st)
              (consecutive_fails st) (batch_counter st + 1) (total_saved_rows st) in
  if (batch_counter st mod BATCH_SIZE =? 0) then print CoolingDown st else st.

(** The loop of [main] over the URLs. A [break] ends the recursion. *)
Fixpoint main_loop (urls : list string) (st : run_state) : run_state :=
  match urls with
  | [] => st
  | url :: rest =>
      if bool_decide (url ∈ processed st) then
        main_loop rest (print (Skipping url) st)
      else
        let '(html, st) := fetch url (print (Fetching url) st) in
        if negb (truthy html) then
          let st := count_failure url "fetch_failed" (print (FailedToFetch url) st) in
          if (CONSECUTIVE_FAIL_CUTOFF <=? consecutive_fails st) then
            print TooManyFailures st
          else main_loop rest st
        else
          match extract_from_html BeautifulSoup (default "" html) url with
          | Raise _ =>
              let st := count_failure url "parse_error" (print (ParseErrorFor url) st) in
              if (CONSECUTIVE_FAIL_CUTOFF <=? consecutive_fails st) then
                print TooManyFailuresDuringParse st
              else main_loop rest st
          | Ok rows =>
              let st :=
                match rows with
                | [] => count_failure url "no_rows" (print (NoRowsExtracted url) st)
                | _ => save_rows url rows st
                end in
              main_loop rest (end_of_iteration st)
          end
  end.

Definition initial_state (f : files) (w : World) : run_state :=
  mkRun f w [] (load_already_processed_urls json_loads f) 0 0 0.

(** [main], from the list [load_fixtures] returns: the files and the
    world it leaves, and what it printed in the loop. *)
Definition main (fixtures : list fixture) (f : files) (w : World)
    : result (files * World * list event) :=
  let st := main_loop (build_urls fixtures) (initial_state f w) in
  (* Rebuild consolidated JSON at the end *)
  f' ← rebuild_full_json_from_jsonl json_loads json_dumps (run_files st);
  mret (f', run_world st, run_out st).

End main.

Arguments mkRun {World}.
Arguments run_files {World}.
Arguments run_world {World}.
Arguments run_out {World}.
Arguments processed {World}.
Arguments consecutive_fails {World}.
Arguments batch_counter {World}.
Arguments total_saved_rows {World}.
Arguments initial_state json_loads {World}.
Arguments print {World}.
Arguments count_failure {World}.
Arguments end_of_iteration {World}.
Arguments save_rows json_dumps {World}.
Arguments fetch {World}.
Arguments main_loop BeautifulSoup json_dumps {World}.
Arguments main BeautifulSoup json_loads json_dumps {World}.

(** * The run of [augment_bench_dnp.main] *)

Section augment.

Variable BeautifulSoup : string -> result node.
Variable json_loads : string -> result json.
Variable json_dumps : option nat -> bool -> json -> string.
Variable World : Type.
Variable request_html : string -> World -> option string * World.

(** The index [existing] maps a URL to the pairs of a player and a
    team stored for it. The run looks it up with the URLs of the
    fixtures and with the names of extracted rows only, and these are
    strings: the index is kept as its entries under strings. *)

(** [idx.setdefault(mu, set()).add((pn, tn))], for strings *)
Definition index_add (mu pn tn : string) (idx : gmap string (gset (string * string)))
    : gmap string (gset (string * string)) :=
  <[ mu := {[ (pn, tn) ]} ∪ default ∅ (idx !! mu) ]> idx.

(** [idx.setdefault(mu, set()).add((pn, tn))], for the values of a
    stored row: [setdefault] hashes [mu], then [add] hashes the pair,
    and either raises [TypeError] for a list or a dictionary. An entry
    with a number or a boolean for its URL, its player or its team is
    under a key that no string, and no pair of strings, is equal to:
    it is not among the entries under strings. *)
Definition index_add_values (mu pn tn : json) (idx : gmap string (gset (string * string)))
    : result (gmap string (gset (string * string))) :=
  if negb (hashable mu) then Raise TypeError
  else if negb (hashable pn && hashable tn) then Raise TypeError
  else
    match mu, pn, tn with
    | JStr mu, JStr pn, JStr tn => Ok (index_add mu pn tn idx)
    | _, _, _ => Ok idx
    end.

Fixpoint existing_index_loop (data : list json) (idx : gmap string (gset (string * string)))
    : result (gmap string (gset (string * string))) :=
  match data with
  | [] => Ok idx
  | r :: rest =>
      mu ← Json.get "matchUrl" r;
      pn ← Json.get "playerName" r;
      tn ← Json.get "teamName" r;
      if negb (bool_of mu) || negb (bool_of pn) || negb (bool_of tn)
      then existing_index_loop rest idx
      else
        idx ← index_add_values mu pn tn idx;
        existing_index_loop rest idx
  end.

(** Map matchUrl -> set of (playerName, teamName) already present. *)
Definition load_existing_index (f : files) : result (gmap string (gset (string * string))) :=
  match OUTPUT_JSON f with
  | None => Ok ∅
  | Some text =>
      data ← json_loads text;
      rows ← iter data;
      existing_index_loop rows ∅
  end.

Definition augment_urls (fixtures : list fixture) : list string :=
  omap (fun fx =>
          let u := py_or (match_report_url fx) (matchReportUrl fx) in
          if truthy u then Some (to_abs_url (default "" u)) else None)
    fixtures.

Record augment_state : Type := mkAugment {
  aug_files : files;
  aug_world : World;
  existing : gmap string (gset (string * string));
  added_rows : nat;
  processed_urls : nat;
}.

Definition row_key (r : AppearanceRow) : string * string := (playerName r, teamName r).

(** Only keep rows that are bench DNP (minutes_played is None) and
    are not already present for this matchUrl. *)
Definition bench_dnp_new_rows (existing_set : gset (string * string))
    (rows : list AppearanceRow) : list AppearanceRow :=
  List.filter
    (fun r => bool_decide (minutes_played r = None)
              && negb (bool_decide (row_key r ∈ existing_set)))
    rows.

Definition add_new_rows (url : string) (new_rows : list AppearanceRow)
    (st : augment_state) : augment_state :=
  match new_rows with
  | [] => st
  | _ =>
      mkAugment (append_jsonl json_dumps new_rows (aug_files st)) (aug_world st)
        (<[ url := foldl (fun s r => {[ row_key r ]} ∪ s)
                     (default ∅ (existing st !! url)) new_rows ]> (existing st))
        (added_rows st + length new_rows) (processed_urls st)
  end.

Fixpoint augment_loop (urls : list string) (st : augment_state) : augment_state :=
  match urls with
  | [] => st
  | url :: rest =>
      let '(html, w) := request_html url (aug_world st) in
      let st := mkAugment (aug_files st) w (existing st) (added_rows st) (processed_urls st) in
      if negb (truthy html) then augment_loop rest st
      else
        match extract_from_html BeautifulSoup (default "" html) url with
        | Raise _ => augment_loop rest st
        | Ok [] => augment_loop rest st
        | Ok rows =>
            let existing_set := default ∅ (existing st !! url) in
            let new_rows := bench_dnp_new_rows existing_set rows in
            let st := add_new_rows url new_rows st in
            augment_loop rest
              (mkAugment (aug_files st) (aug_world st) (existing st) (added_rows st)
                 (processed_urls st + 1))
        end
  end.

Definition augment_main (fixtures : list fixture) (f : files) (w : World)
    : result (files * World) :=
  idx ← load_existing_index f;
  let st := augment_loop (augment_urls fixtures) (mkAugment f w idx 0 0) in
  f' ← rebuild_full_json_from_jsonl json_loads json_dumps (aug_files st);
  mret (f', aug_world st).

End augment.

Arguments mkAugment {World}.
Arguments aug_files {World}.
Arguments aug_world {World}.
Arguments existing {World}.
Arguments added_rows {World}.
Arguments processed_urls {World}.
Arguments add_new_rows json_dumps {World}.
Arguments augment_loop BeautifulSoup json_dumps {World}.
Arguments augment_main BeautifulSoup json_loads json_dumps {World}.

(** * The reconciler, [normalize_and_check_appearance.py] *)

Module Reconcile.

Definition TEAM_ALIASES : gmap string string :=
  list_to_map
    [("Manchester Utd", "Manchester United");
     ("Man Utd", "Manchester United");
     ("West Ham Utd", "West Ham");
     ("Brighton & Hove Albion", "Brighton and Hove Albion");
     ("Wolves", "Wolverhampton Wanderers");
     ("Newcastle Utd", "Newcastle United")].

(** [while '  ' in n: n = n.replace('  ', ' ')]; every turn shortens
    [n], so [String.length n] turns are enough. *)
Fixpoint collapse_spaces (fuel : nat) (n : string) : string :=
  match fuel with
  | O => n
  | S fuel' =>
      if contains "  " n then collapse_spaces fuel' (replace "  " " " n) else n
  end.

Definition normalize_team (name : string) : string :=
  if is_empty name then name
  else
    let n := strip (replace "Table" "" name) in
    (* Collapse double spaces *)
    let n := collapse_spaces (String.length n) n in
    (* Apply aliases exact *)
    match TEAM_ALIASES !! n with
    | Some full => full
    | None =>
        (* Replace suffix/word Utd -> United when standalone word *)
        replace " Utd" " United" n
    end.

Definition set_teamName (t : string) (r : AppearanceRow) : AppearanceRow :=
  mkAppearanceRow (matchId r) (matchUrl r) (playerName r) t
    (in_squad r) (started r) (minutes_played r) (npXg r) (xAG r).

(** The fixture file holds a list of fixtures, or a dictionary whose
    values are the fixtures. *)
Inductive fixtures_file : Type :=
| FixturesList (l : list fixture)
| FixturesDict (d : list (string * fixture)).

(** [d.setdefault(mu, set()).add(t)] on a dictionary that keeps the
    order in which its keys were first set. *)
Fixpoint setdefault_add (mu t : string) (d : list (string * gset string))
    : list (string * gset string) :=
  match d with
  | [] => [(mu, {[ t ]})]
  | (k, teams) :: d' =>
      if String.eqb k mu then (k, {[ t ]} ∪ teams) :: d'
      else (k, teams) :: setdefault_add mu t d'
  end.

(** What the script writes and prints. *)
Record report : Type := mkReport {
  normalized_rows : list AppearanceRow;
  missing_urls : list string;
  extra_urls : list string;
  incomplete : list (string * list string);
}.

Section reconcile.

(** [urllib.parse.urljoin] *)
Variable urljoin : string -> string -> string.

Definition to_abs_url (url : string) : string :=
  if is_empty url then ""
  else if startswith "http://" url || startswith "https://" url then url
  else if startswith "/" url then urljoin BASE_URL url
  else urljoin (BASE_URL +:+ "/") url.

Fixpoint fixture_urls_loop (vs : list fixture) (fixture_urls : gset string) : gset string :=
  match vs with
  | [] => fixture_urls
  | v :: rest =>
      let u := py_or (match_report_url v) (matchReportUrl v) in
      if truthy u
      then fixture_urls_loop rest ({[ to_abs_url (default "" u) ]} ∪ fixture_urls)
      else fixture_urls_loop rest fixture_urls
  end.

Definition load_fixture_urls (fixtures : fixtures_file) : gset string :=
  match fixtures with
  | FixturesDict d => fixture_urls_loop (d.*2) ∅
  | FixturesList l => fixture_urls_loop l ∅
  end.

(** Normalize team names and build index. [rows] is rewritten in
    place; [done] holds the rows already rewritten. *)
Fixpoint index_loop (rows done : list AppearanceRow)
    (per_match_teams : list (string * gset string))
    : list AppearanceRow * list (string * gset string) :=
  match rows with
  | [] => (done, per_match_teams)
  | r :: rest =>
      let r := set_teamName (normalize_team (teamName r)) r in
      let mu := matchUrl r in
      if negb (is_empty mu)
      then index_loop rest (done ++ [r]) (setdefault_add mu (teamName r) per_match_teams)
      else index_loop rest (done ++ [r]) per_match_teams
  end.

Fixpoint incomplete_loop (items : list (string * gset string))
    (incomplete : list (string * list string)) : list (string * list string) :=
  match items with
  | [] => incomplete
  | (url, teams) :: rest =>
      if bool_decide (size teams ≠ 2)
      then incomplete_loop rest (incomplete ++ [(url, sorted (elements teams))])
      else incomplete_loop rest incomplete
  end.

Definition main (fixtures : fixtures_file) (rows : list AppearanceRow) : report :=
  let fixture_urls := load_fixture_urls fixtures in
  let '(rows, per_match_teams) := index_loop rows [] [] in
  (* Find missing and incomplete *)
  let present_urls : gset string := list_to_set (per_match_teams.*1) in
  let missing_urls :=
    sorted (List.filter (fun u => negb (bool_decide (u ∈ present_urls)))
              (elements fixture_urls)) in
  let extra_urls :=
    sorted (List.filter (fun u => negb (bool_decide (u ∈ fixture_urls)))
              (elements present_urls)) in
  let incomplete := incomplete_loop per_match_teams [] in
  mkReport rows missing_urls extra_urls incomplete.

End reconcile.

End Reconcile.

(** * The fetch, [request_html]

    [requests.get] is the network: it answers with a response or
    raises, and the world moves on. The choice of a user agent and the
    pauses between attempts change nothing that is read later and are
    left out. *)

Module Fetch.

Record response : Type := mkResponse {
  status_code : Z;
  text : string;
}.

Section fetch.

Variable World : Type.
(** [requests.get(url, headers=headers, timeout=25)] *)
Variable requests_get : string -> World -> result response * World.

(** [resp.status_code == 200 and resp.text] *)
Definition good (resp : response) : bool :=
  (status_code resp =? 200)%Z && negb (is_empty (text resp)).

(** The loop [for attempt in range(1, MAX_RETRIES_PER_URL + 1)], with
    [attempts] turns left. *)
Fixpoint request_html_loop (attempts : nat) (url : string) (w : World)
    : option string * World :=
  match attempts with
  | O => (None, w)
  | S attempts' =>
      let '(r, w) := requests_get url w in
      match r with
      | Ok resp =>
          if good resp then (Some (text resp), w)
          else request_html_loop attempts' url w
      | Raise _ => request_html_loop attempts' url w
      end
  end.

Definition request_html (url : string) (w : World) : option string * World :=
  request_html_loop MAX_RETRIES_PER_URL url w.

End fetch.

Arguments request_html_loop {World}.
Arguments request_html {World}.

End Fetch.

(** * The run of [extract_missing_appearance.main]

    [MISSING_URLS_JSON] holds a list of URLs; it is given as the list
    [json.load] reads from it, [None] when the file does not exist. *)

Section extract_missing.

Variable BeautifulSoup : string -> result node.
Variable json_loads : string -> result json.
Variable json_dumps : option nat -> bool -> json -> string.
Variable World : Type.
Variable request_html : string -> World -> option string * World.

(** The loop over the URLs: [total_rows], the files and the world. *)
Fixpoint missing_loop (urls : list string) (total_rows : nat) (f : files) (w : World)
    : nat * files * World :=
  match urls with
  | [] => (total_rows, f, w)
  | url :: rest =>
      let '(html, w) := request_html url w in
      if negb (truthy html) then missing_loop rest total_rows f w
      else
        match extract_from_html BeautifulSoup (default "" html) url with
        | Raise _ => missing_loop rest total_rows f w
        | Ok [] => missing_loop rest total_rows f w
        | Ok rows =>
            missing_loop rest (total_rows + length rows) (append_jsonl json_dumps rows f) w
        end
  end.

Definition extract_missing_main (MISSING_URLS_JSON : option (list string))
    (f : files) (w : World) : result (files * World) :=
  match MISSING_URLS_JSON with
  | None => Ok (f, w)
  | Some [] => Ok (f, w)
  | Some urls =>
      let '(_, f, w) := missing_loop urls 0 f w in
      f' ← rebuild_full_json_from_jsonl json_loads json_dumps f;
      mret (f', w)
  end.

End extract_missing.

Arguments missing_loop BeautifulSoup json_dumps {World}.
Arguments extract_missing_main BeautifulSoup json_loads json_dumps {World}.

(** * The run of [fix_started_flags.main]

    The rows of the snapshot are grouped by [matchUrl]; a group holds
    the rows themselves, not copies, so that an update of a row of a
    group is an update of the snapshot. A group is kept here as the
    positions of its rows in the snapshot. *)

Section fix_started.

Variable BeautifulSoup : string -> result node.
Variable World : Type.
Variable request_html : string -> World -> option string * World.

Definition get_lineup_starters_from_html (html : string) : result (gset string) :=
  soup ← BeautifulSoup html;
  mret (get_lineup_starters soup).

(** [by_url.setdefault(mu, []).append(r)], for the row at position [i] *)
Fixpoint group_add (mu : string) (i : nat) (by_url : list (string * list nat))
    : list (string * list nat) :=
  match by_url with
  | [] => [(mu, [i])]
  | (k, rows) :: rest =>
      if String.eqb k mu then (k, rows ++ [i]) :: rest
      else (k, rows) :: group_add mu i rest
  end.

(** Group rows by matchUrl; [i] is the position of the first of
    [data]. *)
Fixpoint group_loop (data : list AppearanceRow) (i : nat) (by_url : list (string * list nat))
    : list (string * list nat) :=
  match data with
  | [] => by_url
  | r :: rest =>
      if is_empty (matchUrl r) then group_loop rest (S i) by_url
      else group_loop rest (S i) (group_add (matchUrl r) i by_url)
  end.

(** Update started flags: the loop over the rows of a group. *)
Fixpoint fix_rows (rows : list nat) (starters : gset string)
    (data : list AppearanceRow) (fixed_count : nat) : list AppearanceRow * nat :=
  match rows with
  | [] => (data, fixed_count)
  | i :: rest =>
      fix_rows rest starters
        (alter (fun r => set_started (bool_decide (playerName r ∈ starters)) r) i data)
        (fixed_count + 1)
  end.

Fixpoint fix_loop (items : list (string * list nat)) (data : list AppearanceRow)
    (fixed_count : nat) (w : World) : result (list AppearanceRow * nat * World) :=
  match items with
  | [] => Ok (data, fixed_count, w)
  | (url, rows) :: rest =>
      let '(html, w) := request_html url w in
      if negb (truthy html) then fix_loop rest data fixed_count w
      else
        starters ← get_lineup_starters_from_html (default "" html);
        if bool_decide (starters = ∅) then fix_loop rest data fixed_count w
        else
          let '(data, fixed_count) := fix_rows rows starters data fixed_count in
          fix_loop rest data fixed_count w
  end.

(** [main], from the rows of [APPEAR_JSON]: the rows it writes to
    [APPEAR_JSON_FIXED], the count it prints and the world it
    leaves. *)
Definition fix_started_main (data : list AppearanceRow) (w : World)
    : result (list AppearanceRow * nat * World) :=
  fix_loop (group_loop data 0 []) data 0 w.

End fix_started.

Arguments fix_loop BeautifulSoup {World}.
Arguments fix_started_main BeautifulSoup {World}.

(** * A match report

    A small document in the shape of the pages the scripts read, and a
    parser that knows this page and the table hidden in its comment.
    The statistics table of the home side starts with a Bench divider,
    so that the position in the table says "substitute" for every
    player; a second table has no caption. *)

Module Demo.

Definition el (name : string) (attrs : list (string * string)) (children : list node) : node :=
  Tag name (list_to_map attrs) children.

Definition txt : string -> node := NavigableString.

Definition lineup_row (number player : string) : node :=
  el "tr" [] [el "td" [] [txt number]; el "td" [] [el "a" [] [txt player]]].

Definition header_row (text : string) : node :=
  el "tr" [] [el "th" [("colspan", "2")] [txt text]].

Definition stats_row (player minutes npxg xag : string) : node :=
  el "tr" []
    [el "th" [("data-stat", "player")] [el "a" [] [txt player]];
     el "td" [("data-stat", "minutes")] [txt minutes];
     el "td" [("data-stat", "npxg")] [txt npxg];
     el "td" [("data-stat", "xg_assist")] [txt xag]].

Definition divider (text : string) : node :=
  el "tr" [("class", "thead")] [el "th" [] [txt text]].

Definition home_lineup : node :=
  el "div" [("class", "lineup"); ("id", "a")]
    [el "table" []
       [header_row "Arsenal (4-3-3)";
        lineup_row "7" "Saka";
        header_row "Bench";
        lineup_row "14" "Nketiah";
        lineup_row "25" "Elneny"]].

Definition home_table : node :=
  el "table" [("id", "stats_18bb7c10_summary")]
    [el "caption" [] [txt "Arsenal Player Stats"];
     el "tbody" []
       [divider "Bench";
        stats_row "Saka" "78" "0.3" "0.1";
        stats_row "Nketiah" "12" "" "-"]].

Definition uncaptioned_table : node :=
  el "table" [("id", "stats_deadbeef_summary")]
    [el "tbody" [] [stats_row "Nobody" "90" "0.0" "0.0"]].

Definition away_table : node :=
  el "table" [("id", "stats_822bd0ba_summary")]
    [el "caption" [] [txt " Liverpool Player Stats "];
     el "tbody" []
       [stats_row "Salah" "90+4" "1,0" "0.2";
        divider "Bench";
        stats_row "Jota" "31" "0.25" "n/a"]].

Definition away_comment : string := "table stats_822bd0ba_summary".

Definition page : node :=
  el "[document]" []
    [home_lineup; home_table; uncaptioned_table; Comment away_comment].

Definition page_without_lineup : node :=
  el "[document]" [] [home_table].

Definition url : string := "https://fbref.com/en/matches/0a1b2c3d/Arsenal-Liverpool".

Definition empty_page : node := el "[document]" [] [el "p" [] [txt "Match postponed"]].

Definition BeautifulSoup (text : string) : result node :=
  if String.eqb text "page" then Ok page
  else if String.eqb text "no lineup" then Ok page_without_lineup
  else if String.eqb text "postponed" then Ok empty_page
  else if String.eqb text away_comment then Ok (el "[document]" [] [away_table])
  else Raise ParserError.

(** A stand-in for the JSON reader and writer, enough to run the
    store: a stored row is written as the URL of its match, a blank line
    does not parse, and the text [snapshot] is the snapshot that holds
    the bench row of Elneny. *)
Definition elneny : AppearanceRow := unused_sub_row "0a1b2c3d" url "Elneny" "Arsenal".

Definition json_loads (text : string) : result json :=
  let t := strip text in
  if is_empty t then Raise JSONDecodeError
  else if String.eqb t "snapshot" then Ok (JList [asdict elneny])
  else Ok (JDict [("matchUrl", JStr t)]).

Definition json_dumps (indent : option nat) (ensure_ascii : bool) (v : json) : string :=
  match v with
  | JDict d => default "" (assoc "matchUrl" d ≫= as_str)
  | JList [] => "[]"
  | JList _ => "snapshot"
  | _ => "null"
  end.

(** A network that answers every request, and counts them: the report
    of the match above, and a page without tables for any other
    URL. *)
Definition request_html (u : string) (w : nat) : option string * nat :=
  (Some (if String.eqb u url then "page" else "postponed"), S w).

Definition postponed (n : string) : string := "https://fbref.com/en/matches/0000000" +:+ n.

End Demo.

(** * More networks and files to run the code on *)

Module Cases.

(** A network that is down. *)
Definition offline (u : string) (w : nat) : option string * nat := (None, S w).

(** A network that answers with a text the parser of [Demo] rejects. *)
Definition garbled (u : string) (w : nat) : option string * nat := (Some "garbled", S w).

(** A run that has just met four failures in a row. *)
Definition at_the_brink : run_state nat :=
  mkRun (mkFiles None None []) 0 [] ∅ 4 0 0.

(** The bench row of a player of the home side of [Demo]. *)
Definition bench_row (name : string) : AppearanceRow :=
  unused_sub_row "0a1b2c3d" Demo.url name "Arsenal".

(** A stand-in for the JSON writer and reader that round-trips the rows
    [bench_row]: such a row is written as the name of its player. *)
Definition json_dumps (indent : option nat) (ensure_ascii : bool) (v : json) : string :=
  match v with
  | JDict d => default "" (assoc "playerName" d ≫= as_str)
  | _ => "[]"
  end.

Definition json_loads (line : string) : result json :=
  let t := strip line in
  if is_empty t then Raise JSONDecodeError else Ok (asdict (bench_row t)).

(** [requests.get] that fails once, with a server error, and then
    answers. The world counts the calls. *)
Definition flaky_get (u : string) (w : nat) : result Fetch.response * nat :=
  (if (w =? 0) then Ok (Fetch.mkResponse 503 "busy") else Ok (Fetch.mkResponse 200 "page"),
   S w).

End Cases.

(** * Notions used in the statements *)

(** Some prefix of [raw] is an integer literal, that is, [int] accepts
    it. *)
Definition has_numeric_prefix (raw : string) : bool :=
  existsb (fun n => is_ok (py_int (String.substring 0 n raw)))
    (seq 0 (S (String.length raw))).

(** The rows of a lineup table that follow its first Bench row. *)
Fixpoint after_bench_marker (trs : list node) : list node :=
  match trs with
  | [] => []
  | tr :: rest => if is_bench_row tr then rest else after_bench_marker rest
  end.

(** The name a lineup row lists: that of its second cell, when the row
    is no Bench row, has two cells and the name is not empty. *)
Definition listed_name (tr : node) : option string :=
  if is_bench_row tr then None
  else
    td ← second_td tr;
    let name := cell_name td in
    if is_empty name then None else Some name.

(** The bench listings of a document, in document order: the player
    named and the team of the lineup that lists them. *)
Definition bench_listings (soup : node) : list (string * string) :=
  lineup_div ← find_all_class "div" "lineup" soup;
  match find "table" lineup_div with
  | None => []
  | Some table =>
      match find "th" table with
      | None => []
      | Some first_th =>
          (fun name => (name, lineup_team_name first_th))
            <$> omap listed_name (after_bench_marker (find_all "tr" table))
      end
  end.

(** The team a statistics table is captioned with. *)
Definition caption_team (caption_el : node) : string :=
  strip (replace "Player Stats" "" (get_text_strip caption_el)).

Definition names_of (rows : list AppearanceRow) : gset string :=
  list_to_set (playerName <$> rows).

(** The rows one candidate table contributes to the result: none
    without a caption, else the rows of its body, with [started]
    overridden when the lineups name starters. *)
Definition table_contributes (starters : gset string) (match_url : string)
    (tbl : node) (rows : list AppearanceRow) : Prop :=
  match find "caption" tbl with
  | None => rows = []
  | Some caption_el =>
      exists raw,
        extract_player_rows_from_table tbl (caption_team caption_el)
          (match_id_of match_url) match_url = Ok raw /\
        rows = if bool_decide (starters ≠ ∅)
               then (fun r => set_started (bool_decide (playerName r ∈ starters)) r) <$> raw
               else raw
  end.

(** The first occurrences of the elements of a list, in their order. *)
Fixpoint dedup (l : list string) : list string :=
  match l with
  | [] => []
  | x :: l' => x :: List.filter (fun y => negb (String.eqb y x)) (dedup l')
  end.

(** The URLs of the rows of a snapshot, each once, in the order in
    which the snapshot first names them; a row without URL names
    none. *)
Definition first_seen (rows : list AppearanceRow) : list string :=
  dedup (List.filter (fun u => negb (is_empty u)) (matchUrl <$> rows)).

(** The team names recorded for a match: the normalized names of its
    rows. *)
Definition teams_of (rows : list AppearanceRow) (url : string) : gset string :=
  list_to_set
    ((fun r => Reconcile.normalize_team (teamName r))
       <$> List.filter (fun r => String.eqb (matchUrl r) url) rows).

(** The links of the fixtures that have one, made absolute. *)
Definition report_links (to_abs : string -> string) (vs : list fixture) : list string :=
  omap (fun v =>
          let u := py_or (match_report_url v) (matchReportUrl v) in
          if truthy u then Some (to_abs (default "" u)) else None) vs.

Definition fixture_values (fixtures : Reconcile.fixtures_file) : list fixture :=
  match fixtures with
  | Reconcile.FixturesList l => l
  | Reconcile.FixturesDict d => d.*2
  end.

(** The dictionary [per_match_teams] as an association list: the
    teams under a key. *)
Fixpoint get_teams (url : string) (d : list (string * gset string)) : gset string :=
  match d with
  | [] => ∅
  | (k, teams) :: d' => if String.eqb k url then teams else get_teams url d'
  end.

(** The text of the log; a missing log has none. *)
Definition log_text (f : files) : string := default "" (OUTPUT_JSONL f).

(** A URL with a scheme, as [to_abs_url] tests it. *)
Definition is_absolute (url : string) : bool :=
  startswith "http://" url || startswith "https://" url.

(** The world after [k] calls of [requests.get] for one URL. *)
Fixpoint after_calls {World : Type}
    (requests_get : string -> World -> result Fetch.response * World)
    (k : nat) (url : string) (w : World) : World :=
  match k with
  | O => w
  | S k' => after_calls requests_get k' url (requests_get url w).2
  end.

(** The text the call made in world [w] gives, when it answers 200
    with a text. *)
Definition call_result {World : Type}
    (requests_get : string -> World -> result Fetch.response * World)
    (url : string) (w : World) : option string :=
  match (requests_get url w).1 with
  | Ok resp => if Fetch.good resp then Some (Fetch.text resp) else None
  | Raise _ => None
  end.

(** The rows of a lineup table that come before its first Bench
    row. *)
Fixpoint before_bench_marker (trs : list node) : list node :=
  match trs with
  | [] => []
  | tr :: rest => if is_bench_row tr then [] else tr :: before_bench_marker rest
  end.

(** The names the lineups of a document list before their Bench
    rows. *)
Definition starter_listings (soup : node) : list string :=
  lineup_div ← find_all_class "div" "lineup" soup;
  match find "table" lineup_div with
  | None => []
  | Some table => omap listed_name (before_bench_marker (find_all "tr" table))
  end.

(** The URLs whose rows a run reports as saved, in the order of the
    reports. *)
Definition saved_urls (out : list event) : list string :=
  omap (fun e => match e with Saved u _ _ => Some u | _ => None end) out.

(** What the loop keeps true of the URLs reported as saved: each is
    reported once, was given to the run, was not in the index at the
    start and is in the index now; and the index has lost nothing. *)
Definition saved_once {World : Type} (index0 : gset string) (given : list string)
    (st : run_state World) : Prop :=
  NoDup (saved_urls (run_out st)) /\
  (forall u, u ∈ saved_urls (run_out st) ->
             (u ∈ processed st) /\ (u ∉ index0) /\ (u ∈ given)) /\
  index0 ⊆ processed st.

(** The rows of the documents of a list of URLs, fetched one after the
    other: those of every document that is obtained and parses, in the
    order of the URLs, and the world after the last fetch. *)
Fixpoint fetch_all {World : Type} (BeautifulSoup : string -> result node)
    (request_html : string -> World -> option string * World)
    (urls : list string) (w : World) : list AppearanceRow * World :=
  match urls with
  | [] => ([], w)
  | url :: rest =>
      let '(html, w) := request_html url w in
      let rows :=
        if truthy html
        then default [] (to_option (extract_from_html BeautifulSoup (default "" html) url))
        else [] in
      let '(more, w) := fetch_all BeautifulSoup request_html rest w in
      (rows ++ more, w)
  end.

(** A stored row that enters the index of [augment_bench_dnp] under
    strings: it is a dictionary whose three fields are strings, none
    empty. *)
Definition stored_key (r : json) (mu pn tn : string) : Prop :=
  Json.get "matchUrl" r = Ok (JStr mu) /\
  Json.get "playerName" r = Ok (JStr pn) /\
  Json.get "teamName" r = Ok (JStr tn) /\
  mu <> "" /\ pn <> "" /\ tn <> "".

(** A heading row of a statistics table that names the bench: the row
    at which the loop of [extract_player_rows_from_table] drops its
    flag. *)
Definition is_bench_divider (tr : node) : bool :=
  has_class "thead" tr && contains "Bench" (get_text_strip tr).

(** The rows of a statistics table before its first Bench divider, and
    the rows after it. *)
Fixpoint before_bench_divider (trs : list node) : list node :=
  match trs with
  | [] => []
  | tr :: rest => if is_bench_divider tr then [] else tr :: before_bench_divider rest
  end.

Fixpoint after_bench_divider (trs : list node) : list node :=
  match trs with
  | [] => []
  | tr :: rest => if is_bench_divider tr then rest else after_bench_divider rest
  end.

(** The positions, counted from [i], of the rows of a URL. *)
Fixpoint positions (url : string) (data : list AppearanceRow) (i : nat) : list nat :=
  match data with
  | [] => []
  | r :: rest =>
      if String.eqb (matchUrl r) url then i :: positions url rest (S i)
      else positions url rest (S i)
  end.

(** The dictionary [by_url] as an association list: the group under a
    key. *)
Fixpoint get_group (url : string) (d : list (string * list nat)) : list nat :=
  match d with
  | [] => []
  | (k, rows) :: d' => if String.eqb k url then rows else get_group url d'
  end.

(** The lineups read for a list of URLs, with one fetch for each, in
    order: the starters of every URL whose page is obtained and names
    one. A page that does not parse ends the reading. *)
Fixpoint lineups_read {World : Type} (BeautifulSoup : string -> result node)
    (request_html : string -> World -> option string * World)
    (urls : list string) (w : World) : result (list (string * gset string) * World) :=
  match urls with
  | [] => Ok ([], w)
  | url :: rest =>
      let '(html, w) := request_html url w in
      if negb (truthy html) then lineups_read BeautifulSoup request_html rest w
      else
        match get_lineup_starters_from_html BeautifulSoup (default "" html) with
        | Raise e => Raise e
        | Ok starters =>
            match lineups_read BeautifulSoup request_html rest w with
            | Raise e => Raise e
            | Ok (found, w) =>
                Ok (if bool_decide (starters = ∅) then found else (url, starters) :: found, w)
            end
        end
  end.

(** A row after the fix, from the starters found for the URLs. *)
Definition fix_row (found : gmap string (gset string)) (r : AppearanceRow) : AppearanceRow :=
  match found !! matchUrl r with
  | Some starters => set_started (bool_decide (playerName r ∈ starters)) r
  | None => r
  end.

(** The rows of the URLs for which starters were found. *)
Definition fixed_rows (found : gmap string (gset string)) (data : list AppearanceRow) : nat :=
  length (List.filter (fun r => bool_decide (is_Some (found !! matchUrl r))) data).

(** [r'] is [r] but for its [started] flag, and is [r] when [r] has no
    URL. *)
Definition flag_fixed (r r' : AppearanceRow) : Prop :=
  r' = set_started (started r') r /\ (matchUrl r = "" -> r' = r).

(** The world after one fetch for each URL of a list, in order. *)
Definition fetches {World : Type} (request_html : string -> World -> option string * World)
    (urls : list string) (w : World) : World :=
  foldl (fun w u => (request_html u w).2) w urls.

(** The URLs a run reports as failed, in the order of the reports. *)
Definition failed_urls (out : list event) : list string :=
  omap (fun e => match e with
                 | FailedToFetch u | ParseErrorFor u | NoRowsExtracted u => Some u
                 | _ => None
                 end) out.

(** What the loop keeps true of the failure ledger: it holds the
    entries [ledger0], then one entry for each reported failure, in
    order; the snapshot is [snapshot0]; every failed URL was given to
    the run and was not in the index at the start; and the index has
    lost nothing. *)
Definition ledger_kept {World : Type} (ledger0 : list string) (snapshot0 : option string)
    (index0 : gset string) (given : list string) (st : run_state World) : Prop :=
  (FAIL_LOG (run_files st)).*1 = ledger0 ++ failed_urls (run_out st) /\
  OUTPUT_JSON (run_files st) = snapshot0 /\
  (forall u, u ∈ failed_urls (run_out st) -> (u ∈ given) /\ (u ∉ index0)) /\
  index0 ⊆ processed st.

(** * Properties *)


(** ** Strings *)

Section string_facts.

Lemma append_empty_r (s : string) : s +:+ "" = s.
Proof.
  induction s as [|c s IH]; [done|].
  change (String c (s +:+ "") = String c s). by rewrite IH.
Qed.

Lemma append_assoc (a b c : string) : (a +:+ b) +:+ c = a +:+ (b +:+ c).
Proof.
  induction a as [|x a IH]; [done|].
  change (String x ((a +:+ b) +:+ c) = String x (a +:+ (b +:+ c))). by rewrite IH.
Qed.

Lemma substring_all (s : string) : String.substring 0 (String.length s) s = s.
Proof. induction s as [|c s IH]; simpl; [done | by rewrite IH]. Qed.

Lemma substring_take_while (p : ascii -> bool) (s : string) :
  String.substring 0 (String.length (take_while p s)) s = take_while p s.
Proof.
  induction s as [|c s IH]; simpl; [done|].
  destruct (p c); simpl; [by rewrite IH | done].
Qed.

Lemma length_take_while_le (p : ascii -> bool) (s : string) :
  String.length (take_while p s) ≤ String.length s.
Proof. induction s as [|c s IH]; simpl; [lia|]. destruct (p c); simpl; lia. Qed.

Lemma take_while_app (p : ascii -> bool) (s t : string) :
  PyStr.forallb p s = true -> take_while p t = "" ->
  take_while p (s +:+ t) = s.
Proof.
  intros Hs Ht. induction s as [|c s IH]; simpl in *; [done|].
  apply andb_true_iff in Hs as [-> Hs]. by rewrite IH.
Qed.

Lemma drop_while_end_id (p : ascii -> bool) (s : string) :
  PyStr.forallb (fun c => negb (p c)) s = true -> drop_while_end p s = s.
Proof.
  induction s as [|c s IH]; simpl; [done|].
  intros [Hc Hs]%andb_true_iff. rewrite IH by done.
  apply negb_true_iff in Hc. rewrite Hc. by rewrite andb_false_r.
Qed.

Lemma drop_while_id (p : ascii -> bool) (s : string) :
  PyStr.forallb (fun c => negb (p c)) s = true -> drop_while p s = s.
Proof.
  destruct s as [|c s]; simpl; [done|].
  intros [Hc _]%andb_true_iff. apply negb_true_iff in Hc. by rewrite Hc.
Qed.

Lemma forallb_impl (p q : ascii -> bool) (s : string) :
  (forall c, p c = true -> q c = true) ->
  PyStr.forallb p s = true -> PyStr.forallb q s = true.
Proof.
  intros Hpq. induction s as [|c s IH]; simpl; [done|].
  intros [Hc Hs]%andb_true_iff. by rewrite (Hpq _ Hc), IH.
Qed.

End string_facts.

(** ** The numeric parsers *)

Section numeric.

(** A digit is no blank, no underscore and no sign. *)
Lemma digit_is_plain (c : ascii) :
  is_digit c = true ->
  num_space c = false /\ is_underscore c = false /\
  (code c =? 45)%N = false /\ (code c =? 43)%N = false.
Proof. destruct c as [[] [] [] [] [] [] [] []]; vm_compute; intros; done. Qed.

Lemma strip_underscores_digits (prev : ascii) (ds : string) :
  PyStr.forallb is_digit ds = true ->
  is_underscore prev = false \/ ds <> "" ->
  strip_underscores prev ds = Some ds.
Proof.
  revert prev. induction ds as [|c ds IH]; intros prev Hd Hp; simpl.
  - destruct Hp as [-> | ?]; done.
  - simpl in Hd. apply andb_true_iff in Hd as [Hc Hd].
    destruct (digit_is_plain c Hc) as (_ & Hu & _).
    rewrite Hu, Hc, andb_false_r. rewrite IH; auto.
Qed.

Lemma py_int_digits (ds : string) :
  all_digits ds = true -> String.length ds ≤ max_str_digits ->
  py_int ds = Ok (Z.of_N (digits_value ds)).
Proof.
  intros [Hne Hd]%andb_true_iff Hlen. unfold py_int, num_strip.
  assert (PyStr.forallb (fun c => negb (num_space c)) ds = true) as Hns.
  { eapply forallb_impl; [|exact Hd]. intros c Hc.
    destruct (digit_is_plain c Hc) as (-> & _). done. }
  rewrite drop_while_id, drop_while_end_id by done.
  destruct ds as [|c ds]; [done|].
  pose proof Hd as Hd'. simpl in Hd'. apply andb_true_iff in Hd' as [Hc _].
  destruct (digit_is_plain c Hc) as (_ & _ & H45 & H43).
  unfold split_sign. rewrite H45, H43.
  rewrite strip_underscores_digits by (auto; right; done).
  unfold all_digits. rewrite Hd. simpl negb. cbv iota beta. simpl andb.
  destruct (Nat.ltb_spec max_str_digits (String.length (String c ds))); [lia|done].
Qed.

Lemma parse_minutes_total (raw : string) : exists v, parse_minutes raw = Ok v.
Proof.
  unfold parse_minutes. destruct (is_empty raw); [eauto|].
  destruct (py_int raw); simpl; [eauto|].
  destruct (match_leading_digits raw); [|eauto].
  destruct (py_int _); simpl; eauto.
Qed.

Lemma parse_float_total (raw : option string) : exists v, parse_float raw = Ok v.
Proof.
  unfold parse_float. destruct raw as [s|]; [|eauto].
  destruct (_ || _); [eauto|].
  destruct (py_float (strip _)); simpl; [eauto|].
  destruct (py_float _); simpl; eauto.
Qed.

Lemma has_numeric_prefix_intro (raw : string) (n : nat) :
  n ≤ String.length raw ->
  is_ok (py_int (String.substring 0 n raw)) = true ->
  has_numeric_prefix raw = true.
Proof.
  intros Hn Hok. unfold has_numeric_prefix. apply existsb_exists.
  exists n. split; [|done]. apply in_seq. lia.
Qed.

Lemma parse_minutes_no_numeric_prefix (raw : string) :
  has_numeric_prefix raw = false -> parse_minutes raw = Ok None.
Proof.
  intros Hno. unfold parse_minutes. destruct (is_empty raw); [done|].
  destruct (py_int raw) as [v|e] eqn:Hint; simpl.
  { rewrite (has_numeric_prefix_intro raw (String.length raw)) in Hno; [done|lia|].
    by rewrite substring_all, Hint. }
  unfold match_leading_digits.
  destruct (is_empty (take_while is_digit raw)); [done|].
  destruct (py_int (take_while is_digit raw)) as [v|e'] eqn:Hg; simpl; [|done].
  rewrite (has_numeric_prefix_intro raw (String.length (take_while is_digit raw))) in Hno;
    [done|apply length_take_while_le|].
  by rewrite substring_take_while, Hg.
Qed.

Lemma py_int_rejects_start (c : ascii) (rest : string) :
  is_digit c = false -> num_space c = false ->
  (code c =? 45)%N = false -> (code c =? 43)%N = false ->
  py_int (String c rest) = Raise ValueError.
Proof.
  intros Hdigit Hspace H45 H43. unfold py_int, num_strip.
  cbn [drop_while drop_while_end]. rewrite Hspace. cbn [drop_while_end].
  rewrite Hspace, andb_false_r. unfold split_sign. rewrite H45, H43.
  cbn [strip_underscores]. destruct (is_underscore c); [done|].
  change (is_underscore "000" && negb (is_digit c)) with false. cbn iota.
  destruct (strip_underscores c _) as [ds|]; [|done]. simpl.
  unfold all_digits. simpl. by rewrite Hdigit.
Qed.

Lemma parse_minutes_not_numeric_start (c : ascii) (rest : string) :
  is_digit c = false -> num_space c = false ->
  (code c =? 45)%N = false -> (code c =? 43)%N = false ->
  parse_minutes (String c rest) = Ok None.
Proof.
  intros Hdigit Hspace H45 H43. unfold parse_minutes. cbn [is_empty].
  rewrite py_int_rejects_start by done. simpl.
  unfold match_leading_digits. simpl. by rewrite Hdigit.
Qed.

Lemma parse_minutes_leading_integer (ds rest : string) :
  all_digits ds = true -> String.length ds ≤ max_str_digits ->
  take_while is_digit rest = "" ->
  is_ok (py_int (ds +:+ rest)) = false ->
  parse_minutes (ds +:+ rest) = Ok (Some (Z.of_N (digits_value ds))).
Proof.
  intros Hd Hlen Hrest Hbad. unfold parse_minutes.
  pose proof Hd as [Hne Hall]%andb_true_iff.
  destruct ds as [|c ds]; [done|]. cbn [String.append is_empty].
  change (String c (ds +:+ rest)) with (String c ds +:+ rest).
  destruct (py_int (String c ds +:+ rest)); simpl; [done|].
  unfold match_leading_digits. rewrite take_while_app by done.
  cbn [is_empty]. by rewrite py_int_digits.
Qed.

End numeric.

(** C7. The numeric parsers never raise. [parse_minutes] reads a bare
    integer ("90" is 90), reads the leading integer of a text with a
    trailing modifier ("90+2" is 90, and so for every run of digits
    followed by something [int] rejects), and gives nothing for the
    empty text and for a text without a numeric prefix: a text no
    prefix of which is an integer literal, as is every text that starts
    with neither a digit, a sign nor a blank.
    [parse_float] gives nothing for "" and "-", reads "1,234" as 1234.0
    through the removal of the commas (as it does for every text that
    is a number once its commas are removed), and gives nothing for
    any other text that is no number even then. *)
Theorem numeric_parsers_total :
  (forall raw, exists v, parse_minutes raw = Ok v) /\
  parse_minutes "90" = Ok (Some 90%Z) /\
  parse_minutes "90+2" = Ok (Some 90%Z) /\
  (forall ds rest,
     all_digits ds = true -> String.length ds ≤ max_str_digits ->
     take_while is_digit rest = "" ->
     is_ok (py_int (ds +:+ rest)) = false ->
     parse_minutes (ds +:+ rest) = Ok (Some (Z.of_N (digits_value ds)))) /\
  parse_minutes "" = Ok None /\
  (forall raw, has_numeric_prefix raw = false -> parse_minutes raw = Ok None) /\
  (forall c rest,
     is_digit c = false -> num_space c = false ->
     (code c =? 45)%N = false -> (code c =? 43)%N = false ->
     parse_minutes (String c rest) = Ok None) /\
  (forall raw, exists v, parse_float raw = Ok v) /\
  parse_float (Some "") = Ok None /\
  parse_float (Some "-") = Ok None /\
  parse_float (Some "1,234") = Ok (Some (F_dec false 1234 0)) /\
  (forall s f,
     is_ok (py_float (strip s)) = false ->
     py_float (replace "," "" (strip s)) = Ok f ->
     parse_float (Some s) = Ok (Some f)) /\
  (forall s,
     is_ok (py_float (strip s)) = false ->
     is_ok (py_float (replace "," "" (strip s))) = false ->
     parse_float (Some s) = Ok None).
Proof.
  split_and!.
  - apply parse_minutes_total.
  - by vm_compute.
  - by vm_compute.
  - apply parse_minutes_leading_integer.
  - done.
  - apply parse_minutes_no_numeric_prefix.
  - apply parse_minutes_not_numeric_start.
  - apply parse_float_total.
  - by vm_compute.
  - by vm_compute.
  - by vm_compute.
  - intros s f Hbad Hgood. unfold parse_float.
    destruct (_ || _) eqn:Hdash.
    { apply orb_true_iff in Hdash as [Hs%String.eqb_eq | Hs%String.eqb_eq];
        rewrite Hs in Hgood; vm_compute in Hgood; done. }
    rewrite Hgood. destruct (py_float (strip s)); done.
  - intros s Hbad Hbad'. unfold parse_float.
    destruct (_ || _); [done|].
    destruct (py_float (replace _ _ _)); [done|].
    destruct (py_float (strip s)); done.
Qed.

(** The parsers at "abc" and "12:30": no prefix of "abc" is a number,
    and "12:30" is read as its leading 12. *)
Lemma numeric_parsers_total_witness :
  parse_minutes "abc" = Ok None /\
  parse_minutes "n/a" = Ok None /\
  parse_minutes "12:30" = Ok (Some 12%Z) /\
  parse_float (Some "1,2,3") = Ok (Some (F_dec false 123 0)) /\
  parse_float (Some "n/a") = Ok None.
Proof.
  destruct numeric_parsers_total
    as (_ & _ & _ & Hlead & _ & Hnone & Hstart & _ & _ & _ & _ & Hcomma & Hbad).
  split_and!.
  - apply Hnone. vm_compute. reflexivity.
  - apply Hstart; reflexivity.
  - apply (Hlead "12" ":30"); [reflexivity | cbv [max_str_digits]; simpl; lia | reflexivity..].
  - apply Hcomma; vm_compute; reflexivity.
  - apply Hbad; vm_compute; reflexivity.
Defined.

(** ** The extractor *)

Section extractor_facts.

Lemma player_rows_loop_spec trs team mid url flag rows :
  exists new,
    player_rows_loop trs team mid url flag rows = Ok (rows ++ new) /\
    Forall (fun r => matchUrl r = url /\ matchId r = mid /\ teamName r = team /\
                     in_squad r = true) new.
Proof.
  revert flag rows. induction trs as [|tr trs IH]; intros flag rows; simpl.
  { exists []. by rewrite app_nil_r. }
  destruct (has_class "thead" tr); [apply IH|].
  destruct (_ && _); [apply IH|].
  destruct (match find_with_attr "th" "data-stat" "player" tr with
            | Some c => Some c
            | None => find_with_attr "td" "data-stat" "player" tr
            end) as [cell|]; [|apply IH].
  destruct (is_empty (get_text_strip cell)); [apply IH|].
  destruct (parse_minutes_total
              (default "" (cell_text (find_with_attr "td" "data-stat" "minutes" tr))))
    as [m ->].
  destruct (parse_float_total (cell_text (find_with_attr "td" "data-stat" "npxg" tr)))
    as [x ->].
  destruct (parse_float_total (cell_text (find_with_attr "td" "data-stat" "xg_assist" tr)))
    as [a ->].
  simpl.
  destruct (IH flag (rows ++ [mkAppearanceRow mid url (get_text_strip cell) team true flag m x a]))
    as (new & -> & Hnew).
  eexists (_ :: new). rewrite <- app_assoc. split; [done|].
  constructor; [done|exact Hnew].
Qed.

Lemma extract_player_rows_from_table_spec table team mid url :
  exists rows,
    extract_player_rows_from_table table team mid url = Ok rows /\
    Forall (fun r => matchUrl r = url /\ matchId r = mid /\ teamName r = team /\
                     in_squad r = true) rows.
Proof.
  unfold extract_player_rows_from_table.
  destruct (find "tbody" table) as [tbody|]; [|by exists []].
  destruct (player_rows_loop_spec (find_all_children "tr" tbody) team mid url true [])
    as (new & -> & Hnew).
  by exists new.
Qed.

Lemma foldl_played (rows : list AppearanceRow) (played : gset string) :
  foldl (fun s r => {[ playerName r ]} ∪ s) played rows = played ∪ names_of rows.
Proof.
  revert played. induction rows as [|r rows IH]; intros played; simpl.
  - unfold names_of. simpl. set_solver.
  - rewrite IH. unfold names_of. simpl. set_solver.
Qed.

Lemma names_of_app (l k : list AppearanceRow) :
  names_of (l ++ k) = names_of l ∪ names_of k.
Proof. unfold names_of. rewrite fmap_app. set_solver. Qed.

Lemma tables_loop_spec tables starters url results played :
  exists per_table,
    tables_loop tables starters url results played
      = Ok (results ++ concat per_table, played ∪ names_of (concat per_table)) /\
    Forall2 (table_contributes starters url) tables per_table.
Proof.
  revert results played.
  induction tables as [|tbl tables IH]; intros results played; simpl.
  { exists []. simpl. rewrite app_nil_r. split; [|constructor].
    do 2 f_equal. unfold names_of. simpl. set_solver. }
  destruct (find "caption" tbl) as [cap|] eqn:Hcap.
  - destruct (extract_player_rows_from_table_spec tbl
                (strip (replace "Player Stats" "" (get_text_strip cap)))
                (match_id_of url) url) as (raw & Hraw & _).
    rewrite Hraw. simpl.
    set (rows := if bool_decide (starters ≠ ∅)
                 then (fun r => set_started (bool_decide (playerName r ∈ starters)) r) <$> raw
                 else raw).
    destruct (IH (results ++ rows) (foldl (fun s r => {[ playerName r ]} ∪ s) played rows))
      as (per & -> & Hper).
    exists (rows :: per). simpl. split.
    + rewrite <- app_assoc. do 2 f_equal.
      rewrite foldl_played, names_of_app. set_solver.
    + constructor; [|done]. unfold table_contributes. rewrite Hcap.
      exists raw. done.
  - destruct (IH results played) as (per & -> & Hper).
    exists ([] :: per). simpl. split; [done|].
    constructor; [|done]. unfold table_contributes. by rewrite Hcap.
Qed.

(** The result of the extraction: the rows the candidate tables
    contribute, table after table, then the unused substitutes of the
    lineups, those the tables do not name. *)
Lemma extract_from_tables_spec tables soup url :
  exists per_table,
    extract_from_tables tables soup url
      = Ok (concat per_table ++
            extract_unused_subs_from_lineups soup (names_of (concat per_table))
              (match_id_of url) url) /\
    Forall2 (table_contributes (get_lineup_starters soup) url) tables per_table.
Proof.
  unfold extract_from_tables.
  destruct (tables_loop_spec tables (get_lineup_starters soup) url [] ∅)
    as (per & -> & Hper).
  exists per. split; [|done]. simpl.
  replace (∅ ∪ names_of (concat per)) with (names_of (concat per)) by set_solver.
  done.
Qed.

Lemma bench_loop_seen trs played mid url team results :
  bench_loop trs played mid url team true results
  = results ++
    ((fun name => unused_sub_row mid url name team)
       <$> List.filter (fun name => negb (bool_decide (name ∈ played)))
             (omap listed_name trs)).
Proof.
  revert results. induction trs as [|tr trs IH]; intros results; simpl.
  { by rewrite app_nil_r. }
  unfold listed_name at 1.
  destruct (is_bench_row tr); simpl; [apply IH|].
  destruct (second_td tr) as [td|]; simpl; [|apply IH].
  destruct (is_empty (cell_name td)); simpl; [apply IH|].
  destruct (bool_decide (cell_name td ∈ played)); simpl; [apply IH|].
  rewrite IH, <- app_assoc. done.
Qed.

Lemma bench_loop_unseen trs played mid url team results :
  bench_loop trs played mid url team false results
  = results ++
    ((fun name => unused_sub_row mid url name team)
       <$> List.filter (fun name => negb (bool_decide (name ∈ played)))
             (omap listed_name (after_bench_marker trs))).
Proof.
  revert results. induction trs as [|tr trs IH]; intros results; simpl.
  { by rewrite app_nil_r. }
  destruct (is_bench_row tr); simpl; [apply bench_loop_seen | apply IH].
Qed.

Lemma filter_listings (played : gset string) (team : string) (l : list string) :
  List.filter (fun e : string * string => negb (bool_decide (e.1 ∈ played)))
    ((fun name => (name, team)) <$> l)
  = (fun name => (name, team))
      <$> List.filter (fun name => negb (bool_decide (name ∈ played))) l.
Proof.
  induction l as [|a l IH]; simpl; [done|].
  destruct (bool_decide (a ∈ played)); simpl; [|f_equal]; exact IH.
Qed.

Lemma filter_bind {A B} (p : B -> bool) (f : A -> list B) (l : list A) :
  List.filter p (l ≫= f) = l ≫= (fun a => List.filter p (f a)).
Proof.
  induction l as [|a l IH]; simpl; [done|].
  rewrite List.filter_app. f_equal. exact IH.
Qed.

Lemma bind_ext_eq {A B} (f g : A -> list B) (l : list A) :
  (forall a, f a = g a) -> l ≫= f = l ≫= g.
Proof.
  intros Hfg. induction l as [|a l IH]; simpl; [done|].
  rewrite Hfg. f_equal. exact IH.
Qed.

Lemma unused_subs_loop_spec divs played mid url results :
  unused_subs_loop divs played mid url results
  = results ++
    ((fun e => unused_sub_row mid url e.1 e.2)
      <$> (lineup_div ← divs;
           match find "table" lineup_div with
           | None => []
           | Some table =>
               match find "th" table with
               | None => []
               | Some first_th =>
                   (fun name => (name, lineup_team_name first_th))
                     <$> List.filter (fun name => negb (bool_decide (name ∈ played)))
                           (omap listed_name (after_bench_marker (find_all "tr" table)))
               end
           end)).
Proof.
  revert results. induction divs as [|d divs IH]; intros results; simpl.
  { by rewrite app_nil_r. }
  destruct (find "table" d) as [table|]; simpl; [|apply IH].
  destruct (find "th" table) as [th|]; simpl; [|apply IH].
  rewrite IH, bench_loop_unseen, <- app_assoc, fmap_app.
  do 2 f_equal. rewrite <- list_fmap_compose. done.
Qed.

Lemma extract_unused_subs_spec soup played mid url :
  extract_unused_subs_from_lineups soup played mid url
  = (fun e => unused_sub_row mid url e.1 e.2)
      <$> List.filter (fun e => negb (bool_decide (e.1 ∈ played))) (bench_listings soup).
Proof.
  unfold extract_unused_subs_from_lineups, bench_listings.
  rewrite unused_subs_loop_spec. simpl. f_equal.
  rewrite filter_bind. apply bind_ext_eq. intros d.
  destruct (find "table" d) as [table|]; [|done].
  destruct (find "th" table) as [th|]; [|done].
  symmetry. apply filter_listings.
Qed.

End extractor_facts.

Section extraction.

Variable BeautifulSoup : string -> result node.

Lemma extract_from_html_spec html url soup :
  BeautifulSoup html = Ok soup ->
  exists per_table,
    extract_from_html BeautifulSoup html url
      = Ok (concat per_table ++
            extract_unused_subs_from_lineups soup (names_of (concat per_table))
              (match_id_of url) url) /\
    Forall2 (table_contributes (get_lineup_starters soup) url)
      (candidate_tables BeautifulSoup soup) per_table.
Proof.
  intros Hsoup. unfold extract_from_html. rewrite Hsoup. simpl.
  apply extract_from_tables_spec.
Qed.

Lemma tables_loop_skip pre tbl post starters url results played :
  find "caption" tbl = None ->
  tables_loop (pre ++ tbl :: post) starters url results played
  = tables_loop (pre ++ post) starters url results played.
Proof.
  intros Hcap. revert results played.
  induction pre as [|t pre IH]; intros results played; simpl.
  { by rewrite Hcap. }
  destruct (find "caption" t); [|apply IH].
  destruct (extract_player_rows_from_table _ _ _ _); simpl; [apply IH|done].
Qed.

Lemma count_unused_rows (played : gset string) (mid url X : string)
    (listings : list (string * string)) :
  X ∉ played ->
  length (List.filter (fun r => String.eqb (playerName r) X)
            ((fun e => unused_sub_row mid url e.1 e.2)
               <$> List.filter (fun e => negb (bool_decide (e.1 ∈ played))) listings))
  = length (List.filter (fun e : string * string => String.eqb e.1 X) listings).
Proof.
  intros HX. induction listings as [|e l IH]; simpl; [done|].
  destruct (bool_decide_reflect (e.1 ∈ played)) as [Hin|Hout]; simpl.
  - destruct (String.eqb_spec e.1 X) as [Heq|Hne]; [|exact IH].
    subst X. done.
  - destruct (String.eqb e.1 X); simpl; [f_equal|]; exact IH.
Qed.

Lemma split_head_app (sep : ascii) (t f : string) :
  PyStr.forallb (fun c => negb (Ascii.eqb c sep)) t = true ->
  split_head sep (t +:+ String sep f) = t.
Proof.
  unfold split_head.
  induction t as [|c t IH]; simpl.
  - by rewrite Ascii.eqb_refl.
  - intros [Hc Ht]%andb_true_iff. apply negb_true_iff in Hc. rewrite Hc.
    f_equal. by apply IH.
Qed.

End extraction.

(** C1. When the lineups of a document name starters, the result of the
    extraction is made of the rows the candidate tables contribute,
    table after table, followed by the unused substitutes; and every
    row a table contributes has [started] equal to the membership of
    its player in the set of starters, whatever the flag the Bench
    divider of the table gave it. *)
Theorem lineup_starters_override_started
    (BeautifulSoup : string -> result node) (html url : string) (soup : node) :
  BeautifulSoup html = Ok soup ->
  get_lineup_starters soup ≠ ∅ ->
  exists per_table,
    extract_from_html BeautifulSoup html url
      = Ok (concat per_table ++
            extract_unused_subs_from_lineups soup (names_of (concat per_table))
              (match_id_of url) url) /\
    Forall2 (table_contributes (get_lineup_starters soup) url)
      (candidate_tables BeautifulSoup soup) per_table /\
    Forall (Forall (fun r =>
              started r = bool_decide (playerName r ∈ get_lineup_starters soup)))
      per_table.
Proof.
  intros Hsoup Hstarters.
  destruct (extract_from_html_spec BeautifulSoup html url soup Hsoup) as (per & Hres & Hper).
  exists per. split_and!; [done..|].
  clear Hres. induction Hper as [|tbl rows tables per Hrows _ IH]; constructor; [|done].
  unfold table_contributes in Hrows.
  destruct (find "caption" tbl); [|by subst].
  destruct Hrows as (raw & _ & ->).
  rewrite bool_decide_eq_true_2 by done.
  apply Forall_fmap, Forall_true. done.
Qed.

(** The page of [Demo]: its lineup names a starter. *)
Lemma lineup_starters_override_started_witness :
  exists per_table,
    extract_from_html Demo.BeautifulSoup "page" Demo.url
      = Ok (concat per_table ++
            extract_unused_subs_from_lineups Demo.page (names_of (concat per_table))
              (match_id_of Demo.url) Demo.url) /\
    Forall2 (table_contributes (get_lineup_starters Demo.page) Demo.url)
      (candidate_tables Demo.BeautifulSoup Demo.page) per_table /\
    Forall (Forall (fun r =>
              started r = bool_decide (playerName r ∈ get_lineup_starters Demo.page)))
      per_table.
Proof.
  apply (lineup_starters_override_started Demo.BeautifulSoup "page" Demo.url Demo.page).
  - reflexivity.
  - apply (bool_decide_unpack (get_lineup_starters Demo.page ≠ ∅)). vm_compute. exact I.
Defined.

(** The page of [Demo], run: the table of the home side starts with a
    Bench divider, and Saka, named as a starter by the lineup, has
    [started] true all the same; without the lineup the divider
    decides. The away table, found in a comment, is read too. *)
Example demo_page_rows :
  (fun r => (playerName r, teamName r, started r, minutes_played r))
    <$> default [] (to_option (extract_from_html Demo.BeautifulSoup "page" Demo.url))
  = [("Saka", "Arsenal", true, Some 78%Z);
     ("Nketiah", "Arsenal", false, Some 12%Z);
     ("Salah", "Liverpool", false, Some 90%Z);
     ("Jota", "Liverpool", false, Some 31%Z);
     ("Elneny", "Arsenal", false, None)].
Proof. vm_compute. reflexivity. Qed.

Example demo_page_without_lineup_rows :
  (fun r => (playerName r, teamName r, started r, minutes_played r))
    <$> default [] (to_option (extract_from_html Demo.BeautifulSoup "no lineup" Demo.url))
  = [("Saka", "Arsenal", false, Some 78%Z);
     ("Nketiah", "Arsenal", false, Some 12%Z)].
Proof. vm_compute. reflexivity. Qed.

(** C9. A candidate table without a caption adds no row and raises
    nothing: the extraction returns, and what it returns is the result
    of the extraction over the other candidate tables. *)
Theorem table_without_caption_is_skipped
    (BeautifulSoup : string -> result node) (html url : string) (soup : node)
    (pre post : list node) (tbl : node) :
  BeautifulSoup html = Ok soup ->
  candidate_tables BeautifulSoup soup = pre ++ tbl :: post ->
  find "caption" tbl = None ->
  extract_from_html BeautifulSoup html url = extract_from_tables (pre ++ post) soup url /\
  exists rows, extract_from_html BeautifulSoup html url = Ok rows.
Proof.
  intros Hsoup Htables Hcap. split.
  - unfold extract_from_html. rewrite Hsoup. simpl.
    unfold extract_from_soup, extract_from_tables.
    by rewrite Htables, tables_loop_skip.
  - destruct (extract_from_html_spec BeautifulSoup html url soup Hsoup) as (per & -> & _).
    eauto.
Qed.

(** The page of [Demo]: its second candidate table has no caption. *)
Lemma table_without_caption_is_skipped_witness :
  extract_from_html Demo.BeautifulSoup "page" Demo.url
    = extract_from_tables [Demo.home_table; Demo.away_table] Demo.page Demo.url /\
  exists rows, extract_from_html Demo.BeautifulSoup "page" Demo.url = Ok rows.
Proof.
  apply (table_without_caption_is_skipped Demo.BeautifulSoup "page" Demo.url Demo.page
           [Demo.home_table] [Demo.away_table] Demo.uncaptioned_table).
  - reflexivity.
  - vm_compute. reflexivity.
  - vm_compute. reflexivity.
Defined.

(** C6. The result of the extraction is the rows of the statistics
    tables followed by the synthetic rows of the unused substitutes.
    These are, in the order of the lineups, one row for each bench
    listing of a player the tables do not name: as many synthetic rows
    carry a name as bench listings do. Every synthetic row has
    [started] false, no minutes, no npxG, no xAG, [in_squad] true, and
    the team of the lineup that lists the player, which is the text of
    the lineup header before its parenthesis, stripped. *)
Theorem unused_substitutes_get_one_row_each
    (BeautifulSoup : string -> result node) (html url : string) (soup : node) :
  BeautifulSoup html = Ok soup ->
  exists stats unused,
    extract_from_html BeautifulSoup html url = Ok (stats ++ unused) /\
    (exists per_table,
       stats = concat per_table /\
       Forall2 (table_contributes (get_lineup_starters soup) url)
         (candidate_tables BeautifulSoup soup) per_table) /\
    unused = ((fun e => unused_sub_row (match_id_of url) url e.1 e.2)
                <$> List.filter (fun e => negb (bool_decide (e.1 ∈ names_of stats)))
                      (bench_listings soup)) /\
    (forall X, X ∉ names_of stats ->
       length (List.filter (fun r => String.eqb (playerName r) X) unused)
       = length (List.filter (fun e : string * string => String.eqb e.1 X)
                   (bench_listings soup))) /\
    Forall (fun r =>
              started r = false /\ minutes_played r = None /\ npXg r = None /\
              xAG r = None /\ in_squad r = true /\ (playerName r ∉ names_of stats) /\
              ((playerName r, teamName r) ∈ bench_listings soup)) unused /\
    (forall first_th t f,
       get_text_strip first_th = t +:+ String "(" f ->
       PyStr.forallb (fun c => negb (Ascii.eqb c "(")) t = true ->
       lineup_team_name first_th = strip t).
Proof.
  intros Hsoup.
  destruct (extract_from_html_spec BeautifulSoup html url soup Hsoup) as (per & Hres & Hper).
  exists (concat per), (extract_unused_subs_from_lineups soup (names_of (concat per))
                          (match_id_of url) url).
  rewrite extract_unused_subs_spec. rewrite extract_unused_subs_spec in Hres.
  split_and!.
  - exact Hres.
  - by exists per.
  - done.
  - intros X HX. by apply count_unused_rows.
  - apply Forall_fmap, Forall_forall. intros [name team] Hin.
    apply list_elem_of_In in Hin. apply List.filter_In in Hin as [Hin Hout]. simpl in *.
    apply negb_true_iff in Hout. apply bool_decide_eq_false in Hout.
    split_and!; try done. by apply list_elem_of_In.
  - intros th t f Htext Ht. unfold lineup_team_name. rewrite Htext.
    by rewrite split_head_app.
Qed.

(** The page of [Demo], where Elneny is on the bench and in no
    table. *)
Lemma unused_substitutes_get_one_row_each_witness :
  exists stats unused,
    extract_from_html Demo.BeautifulSoup "page" Demo.url = Ok (stats ++ unused) /\
    unused = ((fun e => unused_sub_row (match_id_of Demo.url) Demo.url e.1 e.2)
                <$> List.filter (fun e => negb (bool_decide (e.1 ∈ names_of stats)))
                      (bench_listings Demo.page)) /\
    Forall (fun r => started r = false /\ minutes_played r = None) unused.
Proof.
  destruct (unused_substitutes_get_one_row_each Demo.BeautifulSoup "page" Demo.url Demo.page)
    as (stats & unused & Hres & _ & Hunused & _ & Hrows & _); [reflexivity|].
  exists stats, unused. split_and!; [exact Hres | exact Hunused |].
  eapply Forall_impl; [exact Hrows|]. naive_solver.
Defined.


(** ** The store *)

Section store_facts.

Variable json_loads : string -> result json.
Variable json_dumps : option nat -> bool -> json -> string.

Lemma rebuild_loop_spec (lines : list string) (all_rows : list json) :
  rebuild_loop json_loads lines all_rows
  = Ok (all_rows ++ omap (fun l => to_option (json_loads l)) lines).
Proof.
  revert all_rows. induction lines as [|line lines IH]; intros all_rows; simpl.
  { by rewrite app_nil_r. }
  destruct (json_loads line) as [v|e]; simpl; rewrite IH; [|done].
  by rewrite <- app_assoc.
Qed.

Lemma parsed_lines_Forall2 (lines : list string) :
  Forall2 (fun l v => json_loads l = Ok v)
    (List.filter (fun l => is_ok (json_loads l)) lines)
    (omap (fun l => to_option (json_loads l)) lines).
Proof.
  induction lines as [|line lines IH]; simpl; [constructor|].
  destruct (json_loads line) as [v|e] eqn:Hline; simpl; [|exact IH].
  constructor; [exact Hline | exact IH].
Qed.

Lemma filter_sublist {A} (p : A -> bool) (l : list A) : List.filter p l `sublist_of` l.
Proof.
  induction l as [|a l IH]; simpl; [constructor|].
  destruct (p a); by constructor.
Qed.

Lemma filter_all {A} (p : A -> bool) (l : list A) :
  Forall (fun a => p a = true) l -> List.filter p l = l.
Proof.
  induction 1 as [|a l Ha _ IH]; simpl; [done|]. by rewrite Ha, IH.
Qed.

Lemma write_rows_extends (rows : list AppearanceRow) (content : string) :
  write_rows json_dumps rows content = content +:+ write_rows json_dumps rows "".
Proof.
  revert content. induction rows as [|r rows IH]; intros content; simpl.
  - by rewrite append_empty_r.
  - rewrite IH. rewrite (IH ("" +:+ _)). by rewrite !append_assoc.
Qed.

Lemma append_jsonl_extends (rows : list AppearanceRow) (f : files) :
  log_text (append_jsonl json_dumps rows f) = log_text f +:+ write_rows json_dumps rows "".
Proof.
  unfold log_text. destruct rows as [|r rows].
  - simpl. by rewrite append_empty_r.
  - unfold append_jsonl, set_jsonl. cbn [OUTPUT_JSONL default from_option].
    apply write_rows_extends.
Qed.

(** Reading back what [append_jsonl] wrote: when no record is written
    with a line break inside, the log has one line for each row. *)
Lemma readlines_go_line (cur line rest : string) :
  PyStr.forallb (fun c => negb (code c =? 10)%N) line = true ->
  readlines_go cur (line +:+ newline +:+ rest)
  = (cur +:+ line +:+ newline) :: readlines_go "" rest.
Proof.
  revert cur. induction line as [|c line IH]; intros cur Hline.
  - done.
  - cbn [PyStr.forallb] in Hline. apply andb_true_iff in Hline as [Hc Hline].
    apply negb_true_iff in Hc.
    change (String c line +:+ newline +:+ rest) with (String c (line +:+ newline +:+ rest)).
    cbn [readlines_go]. rewrite Hc, IH by done. by rewrite append_assoc.
Qed.

Lemma readlines_write_rows (rows : list AppearanceRow) :
  Forall (fun r => PyStr.forallb (fun c => negb (code c =? 10)%N)
                     (json_dumps None false (asdict r)) = true) rows ->
  readlines (write_rows json_dumps rows "")
  = (fun r => json_dumps None false (asdict r) +:+ newline) <$> rows.
Proof.
  induction 1 as [|r rows Hr _ IH]; [done|].
  cbn [write_rows]. rewrite write_rows_extends.
  change ("" +:+ json_dumps None false (asdict r) +:+ newline)
    with (json_dumps None false (asdict r) +:+ newline).
  rewrite append_assoc. unfold readlines at 1.
  rewrite readlines_go_line by done. csimpl. f_equal. exact IH.
Qed.

Lemma parsed_written_rows (rows : list AppearanceRow) :
  Forall (fun r => json_loads (json_dumps None false (asdict r) +:+ newline)
                   = Ok (asdict r)) rows ->
  omap (fun l => to_option (json_loads l))
    ((fun r => json_dumps None false (asdict r) +:+ newline) <$> rows)
  = asdict <$> rows.
Proof.
  induction 1 as [|r rows Hr _ IH]; [done|].
  csimpl. rewrite Hr. csimpl. by rewrite IH.
Qed.

(** X16. The round trip through a new log: when the records are
    written without a line break and read back as they were, the
    snapshot rebuilt after the rows of a document were appended holds
    these rows, in their order. *)
Lemma rebuild_after_append (rows : list AppearanceRow) (f : files) :
  OUTPUT_JSONL f = None -> rows <> [] ->
  Forall (fun r => PyStr.forallb (fun c => negb (code c =? 10)%N)
                     (json_dumps None false (asdict r)) = true /\
                   json_loads (json_dumps None false (asdict r) +:+ newline)
                   = Ok (asdict r)) rows ->
  rebuild_full_json_from_jsonl json_loads json_dumps (append_jsonl json_dumps rows f)
  = Ok (set_json (Some (json_dumps (Some 2) false (JList (asdict <$> rows))))
          (append_jsonl json_dumps rows f)).
Proof.
  intros Hlog Hrows Hwell. unfold rebuild_full_json_from_jsonl.
  destruct rows as [|r0 rows0]; [done|]. set (rows := r0 :: rows0) in *.
  unfold append_jsonl at 1 3. cbn [rows OUTPUT_JSONL set_jsonl]. fold rows.
  rewrite Hlog. cbn [default from_option].
  rewrite readlines_write_rows by (eapply Forall_impl; [exact Hwell|]; naive_solver).
  rewrite rebuild_loop_spec.
  rewrite parsed_written_rows by (eapply Forall_impl; [exact Hwell|]; naive_solver).
  done.
Qed.

(** The index of [extract_appearance_data]: the URLs that a line of
    the log records. *)
Lemma processed_loop_spec (lines : list string) (acc : gset string) (u : string) :
  u ∈ processed_loop json_loads lines acc <->
  u ∈ acc \/
  exists line obj,
    line ∈ lines /\ json_loads line = Ok obj /\ Json.get "matchUrl" obj = Ok (JStr u).
Proof.
  revert acc. induction lines as [|line lines IH]; intros acc; simpl.
  { split; [by left|]. intros [?|(line & obj & Hin & _)]; [done|].
    by apply elem_of_nil in Hin. }
  assert (forall acc',
            (u ∈ acc' <-> u ∈ acc \/
               exists obj, json_loads line = Ok obj /\
                           Json.get "matchUrl" obj = Ok (JStr u)) ->
            u ∈ processed_loop json_loads lines acc' <->
            u ∈ acc \/
            exists l obj,
              l ∈ line :: lines /\ json_loads l = Ok obj /\
              Json.get "matchUrl" obj = Ok (JStr u)) as Hstep.
  { intros acc' Hacc. rewrite IH, Hacc. split.
    - intros [[?|(obj & ? & ?)]|(l & obj & ? & ? & ?)]; [by left|right..].
      + exists line, obj. split_and!; [left|..]; done.
      + exists l, obj. split_and!; [by right|..]; done.
    - intros [?|(l & obj & [->|?]%elem_of_cons & ? & ?)]; [by left; left|..].
      + left. right. by exists obj.
      + right. by exists l, obj. }
  destruct (json_loads line) as [obj|e] eqn:Hline; simpl.
  - destruct (Json.get "matchUrl" obj) as [v|e] eqn:Hget.
    + destruct v; apply Hstep;
        try (split; [by left | intros [?|(o & [= <-] & Hv)]; [done|]; congruence]).
      rewrite elem_of_union, elem_of_singleton. split.
      * intros [->|?]; [right|by left]. by exists obj.
      * intros [?|(o & [= <-] & Hv)]; [by right|]. left. congruence.
    + apply Hstep. split; [by left|]. intros [?|(o & [= <-] & Hv)]; [done|]. congruence.
  - apply Hstep. split; [by left|]. intros [?|(o & ? & _)]; done.
Qed.

(** X17. A URL is in the index loaded at the start of a run exactly
    when the log exists and one of its lines parses to an object whose
    [matchUrl] is that URL; lines that do not parse and objects of
    another shape add nothing. *)
Lemma load_already_processed_urls_spec (f : files) (u : string) :
  u ∈ load_already_processed_urls json_loads f <->
  exists content line obj,
    OUTPUT_JSONL f = Some content /\ line ∈ readlines content /\
    json_loads line = Ok obj /\ Json.get "matchUrl" obj = Ok (JStr u).
Proof.
  unfold load_already_processed_urls. destruct (OUTPUT_JSONL f) as [content|].
  - rewrite processed_loop_spec. split.
    + intros [?|(line & obj & ?)]; [set_solver|]. by exists content, line, obj.
    + intros (c & line & obj & [= <-] & ?). right. by exists line, obj.
  - split; [set_solver|]. by intros (c & line & obj & ? & _).
Qed.

End store_facts.

(** C3. When the log exists, the rebuild returns without raising and
    writes the array of the values of the log lines that parse: the
    lines kept are a subsequence of the lines of the log, in their
    order, and the array holds their values one for one. When every
    line of the log parses, the array holds the value of every line. *)
Theorem rebuild_keeps_parsable_lines
    (json_loads : string -> result json) (json_dumps : option nat -> bool -> json -> string)
    (f : files) (content : string) :
  OUTPUT_JSONL f = Some content ->
  let lines := readlines content in
  let kept := List.filter (fun l => is_ok (json_loads l)) lines in
  exists all_rows,
    rebuild_full_json_from_jsonl json_loads json_dumps f
      = Ok (set_json (Some (json_dumps (Some 2) false (JList all_rows))) f) /\
    all_rows = omap (fun l => to_option (json_loads l)) lines /\
    kept `sublist_of` lines /\
    Forall2 (fun l v => json_loads l = Ok v) kept all_rows /\
    (Forall (fun l => is_ok (json_loads l) = true) lines ->
     Forall2 (fun l v => json_loads l = Ok v) lines all_rows).
Proof.
  intros Hlog lines kept.
  exists (omap (fun l => to_option (json_loads l)) lines). split_and!.
  - unfold rebuild_full_json_from_jsonl. rewrite Hlog.
    fold lines. by rewrite rebuild_loop_spec.
  - done.
  - apply filter_sublist.
  - apply parsed_lines_Forall2.
  - intros Hall. rewrite <- (filter_all (fun l => is_ok (json_loads l)) lines Hall) at 1.
    apply parsed_lines_Forall2.
Qed.

(** A log of two records with a blank line between them. *)
Lemma rebuild_keeps_parsable_lines_witness :
  exists all_rows,
    rebuild_full_json_from_jsonl Demo.json_loads Demo.json_dumps
      (mkFiles (Some ("a" +:+ newline +:+ newline +:+ "b" +:+ newline)) None [])
    = Ok (mkFiles (Some ("a" +:+ newline +:+ newline +:+ "b" +:+ newline))
            (Some (Demo.json_dumps (Some 2) false (JList all_rows))) []) /\
    all_rows = [JDict [("matchUrl", JStr "a")]; JDict [("matchUrl", JStr "b")]].
Proof.
  destruct (rebuild_keeps_parsable_lines Demo.json_loads Demo.json_dumps
              (mkFiles (Some ("a" +:+ newline +:+ newline +:+ "b" +:+ newline)) None [])
              ("a" +:+ newline +:+ newline +:+ "b" +:+ newline))
    as (all_rows & Hres & Hrows & _); [reflexivity|].
  exists all_rows. split; [exact Hres|]. rewrite Hrows. vm_compute. reflexivity.
Defined.

(** C10. When the log does not exist, the rebuild returns without
    raising, and the snapshot it writes is the empty array; the log is
    still missing and the failure ledger is as it was. *)
Theorem rebuild_without_log_writes_empty_array
    (json_loads : string -> result json) (json_dumps : option nat -> bool -> json -> string)
    (f : files) :
  OUTPUT_JSONL f = None ->
  rebuild_full_json_from_jsonl json_loads json_dumps f
  = Ok (mkFiles None (Some (json_dumps None true (JList []))) (FAIL_LOG f)).
Proof.
  intros Hlog. unfold rebuild_full_json_from_jsonl, set_json. by rewrite Hlog.
Qed.

(** No log, an older snapshot and one entry in the ledger. *)
Lemma rebuild_without_log_writes_empty_array_witness :
  rebuild_full_json_from_jsonl Demo.json_loads Demo.json_dumps
    (mkFiles None (Some "snapshot") [(Demo.url, "fetch_failed")])
  = Ok (mkFiles None (Some "[]") [(Demo.url, "fetch_failed")]).
Proof.
  apply (rebuild_without_log_writes_empty_array Demo.json_loads Demo.json_dumps
           (mkFiles None (Some "snapshot") [(Demo.url, "fetch_failed")])).
  reflexivity.
Defined.

(** ** The runs *)

Section run_facts.

Variable BeautifulSoup : string -> result node.
Variable json_loads : string -> result json.
Variable json_dumps : option nat -> bool -> json -> string.
Variable World : Type.
Variable request_html : string -> World -> option string * World.

#[local] Abbreviation loop := (main_loop BeautifulSoup json_dumps request_html).

#[local] Arguments Nat.leb : simpl never.
#[local] Arguments Nat.eqb : simpl never.
#[local] Arguments Nat.modulo : simpl never.

Lemma rebuild_returns (f : files) :
  exists snapshot,
    rebuild_full_json_from_jsonl json_loads json_dumps f
    = Ok (mkFiles (OUTPUT_JSONL f) (Some snapshot) (FAIL_LOG f)).
Proof.
  unfold rebuild_full_json_from_jsonl, set_json.
  destruct (OUTPUT_JSONL f) as [content|]; [|eauto].
  rewrite rebuild_loop_spec. simpl. eauto.
Qed.

(** A URL of the index is passed over: nothing is fetched. *)
Lemma main_loop_all_processed (urls : list string) (st : run_state World) :
  (forall u, u ∈ urls -> u ∈ processed st) ->
  loop urls st
  = mkRun (run_files st) (run_world st) (run_out st ++ (Skipping <$> urls)) (processed st)
      (consecutive_fails st) (batch_counter st) (total_saved_rows st).
Proof.
  revert st. induction urls as [|u urls IH]; intros st Hall; simpl.
  { rewrite app_nil_r. by destruct st. }
  rewrite bool_decide_eq_true_2 by (apply Hall; left).
  rewrite IH by (intros v Hv; apply Hall; by right).
  simpl. by rewrite <- app_assoc.
Qed.

(** X10. The breaker, on a failed fetch: when the failure brings the
    count to the cutoff, the run prints its last line and ends; the
    URLs that follow are not looked at. *)
Lemma breaker_halts_on_fetch_failure (url : string) (rest : list string)
    (st : run_state World) :
  url ∉ processed st ->
  truthy (request_html url (run_world st)).1 = false ->
  CONSECUTIVE_FAIL_CUTOFF ≤ consecutive_fails st + 1 ->
  loop (url :: rest) st = loop [url] st /\
  last (run_out (loop (url :: rest) st)) = Some TooManyFailures.
Proof.
  intros Hnew Hfail Hcut. simpl.
  rewrite bool_decide_eq_false_2 by done.
  unfold fetch. simpl. destruct (request_html url (run_world st)) as [html w].
  simpl in Hfail. rewrite Hfail. simpl.
  destruct (Nat.leb_spec CONSECUTIVE_FAIL_CUTOFF (consecutive_fails st + 1)); [|lia].
  split; [done|]. simpl. by rewrite last_snoc.
Qed.

(** X11. The breaker, on a document that does not parse: when the
    failure brings the count to the cutoff, the run prints its last line
    and ends; the URLs that follow are not looked at. *)
Lemma breaker_halts_on_parse_error (url html : string) (e : exn) (rest : list string)
    (st : run_state World) :
  url ∉ processed st ->
  (request_html url (run_world st)).1 = Some html -> is_empty html = false ->
  extract_from_html BeautifulSoup html url = Raise e ->
  CONSECUTIVE_FAIL_CUTOFF ≤ consecutive_fails st + 1 ->
  loop (url :: rest) st = loop [url] st /\
  last (run_out (loop (url :: rest) st)) = Some TooManyFailuresDuringParse.
Proof.
  intros Hnew Hhtml Hne Hraise Hcut. simpl.
  rewrite bool_decide_eq_false_2 by done.
  unfold fetch. simpl. destruct (request_html url (run_world st)) as [h w].
  simpl in Hhtml. subst h. simpl. rewrite Hne. simpl. rewrite Hraise. simpl.
  destruct (Nat.leb_spec CONSECUTIVE_FAIL_CUTOFF (consecutive_fails st + 1)); [|lia].
  split; [done|]. simpl. by rewrite last_snoc.
Qed.

(** A document without rows is counted as a failure, but the count is
    not compared with the cutoff: whatever it has reached, the loop
    goes on with the next URL. *)
Lemma no_rows_never_halts (url html : string) (rest : list string) (st : run_state World) :
  url ∉ processed st ->
  (request_html url (run_world st)).1 = Some html -> is_empty html = false ->
  extract_from_html BeautifulSoup html url = Ok [] ->
  loop (url :: rest) st
  = loop rest
      (end_of_iteration
         (count_failure url "no_rows"
            (print (NoRowsExtracted url) (fetch request_html url (print (Fetching url) st)).2))).
Proof.
  intros Hnew Hhtml Hne Hrows. simpl.
  rewrite bool_decide_eq_false_2 by done.
  unfold fetch. simpl. destruct (request_html url (run_world st)) as [h w].
  simpl in Hhtml. subst h. simpl. rewrite Hne. simpl. by rewrite Hrows.
Qed.

(** X12. The log only grows: whatever the run meets, the log it leaves
    starts with the log it found. *)
Lemma main_loop_log_extends (urls : list string) (st : run_state World) :
  exists added,
    log_text (run_files (loop urls st)) = log_text (run_files st) +:+ added.
Proof.
  revert st. induction urls as [|url urls IH]; intros st.
  { exists "". simpl. by rewrite append_empty_r. }
  cbn [main_loop].
  destruct (bool_decide (url ∈ processed st)).
  { destruct (IH (print (Skipping url) st)) as (added & ->). by exists added. }
  unfold fetch. cbn [run_world print].
  destruct (request_html url (run_world st)) as [html w].
  destruct (negb (truthy html)).
  { match goal with |- context [if ?c then _ else _] => destruct c end.
    - exists "". simpl. by rewrite append_empty_r.
    - match goal with |- context [main_loop _ _ _ _ ?s] =>
        destruct (IH s) as (added & ->) end.
      by exists added. }
  destruct (extract_from_html BeautifulSoup (default "" html) url) as [rows|e].
  - match goal with |- context [main_loop _ _ _ _ ?s] =>
      destruct (IH s) as (added & ->) end.
    destruct rows as [|r rows].
    + exists added. unfold end_of_iteration. simpl.
      by destruct (_ =? 0).
    + eexists. unfold end_of_iteration.
      match goal with |- context [if ?c then _ else _] => destruct c end;
        cbn [run_files print save_rows];
        rewrite append_jsonl_extends, append_assoc; reflexivity.
  - match goal with |- context [if ?c then _ else _] => destruct c end.
    + exists "". simpl. by rewrite append_empty_r.
    + match goal with |- context [main_loop _ _ _ _ ?s] =>
        destruct (IH s) as (added & ->) end.
      by exists added.
Qed.

Lemma no_new_bench_rows (existing_set : gset (string * string)) (rows : list AppearanceRow) :
  Forall (fun r => minutes_played r = None -> row_key r ∈ existing_set) rows ->
  bench_dnp_new_rows existing_set rows = [].
Proof.
  induction 1 as [|r rows Hr _ IH]; simpl; [done|].
  destruct (bool_decide_reflect (minutes_played r = None)) as [Hnone|]; simpl; [|exact IH].
  by rewrite (bool_decide_eq_true_2 _ (Hr Hnone)).
Qed.

(** The augmenting run fetches the URL at position [i] in the world
    that the fetches of the URLs before it have left. When every
    document it obtains there yields no row without minutes that the
    index lacks, it leaves the files as they are. *)
Lemma augment_loop_adds_nothing (urls : list string) (st : augment_state World) :
  (forall i u html rows,
     urls !! i = Some u ->
     (request_html u (fetches request_html (take i urls) (aug_world st))).1 = Some html ->
     is_empty html = false ->
     extract_from_html BeautifulSoup html u = Ok rows ->
     Forall (fun r => minutes_played r = None ->
                      row_key r ∈ default ∅ (existing st !! u)) rows) ->
  aug_files (augment_loop BeautifulSoup json_dumps request_html urls st) = aug_files st.
Proof.
  revert st. induction urls as [|url urls IH]; intros st Hidx; [done|].
  cbn [augment_loop].
  pose proof (Hidx 0 url) as Hhead. cbn [take lookup list_lookup] in Hhead.
  unfold fetches in Hhead. cbn [foldl] in Hhead.
  destruct (request_html url (aug_world st)) as [html w] eqn:Hreq.
  assert (forall n, aug_files
            (augment_loop BeautifulSoup json_dumps request_html urls
               (mkAugment (aug_files st) w (existing st) (added_rows st) n))
          = aug_files st) as Hnext.
  { intros n. rewrite IH; [done|]. cbn [aug_world existing].
    intros i u h rows Hu Hh. apply (Hidx (S i) u h rows Hu).
    unfold fetches in *. cbn [take foldl]. by rewrite Hreq. }
  destruct html as [h|]; [|apply Hnext].
  destruct (is_empty h) eqn:Hh.
  { destruct h; [apply Hnext|done]. }
  replace (negb (truthy (Some h))) with false by (by destruct h).
  change (default "" (Some h)) with h.
  destruct (extract_from_html BeautifulSoup h url) as [rows|e] eqn:Hrows; [|apply Hnext].
  destruct rows as [|r rows]; [apply Hnext|].
  cbn [existing aug_files aug_world added_rows processed_urls].
  rewrite no_new_bench_rows by (by apply (Hhead h)).
  apply Hnext.
Qed.

End run_facts.

(** C2. Five documents in a row without any row, then the report of
    [Demo]. After the five the count of consecutive failures has reached
    the cutoff; the run does not halt there: the sixth URL is fetched (the
    network has answered six requests) and its rows are appended to the
    log, which was empty when the count reached the cutoff. *)
Theorem breaker_ignores_documents_without_rows :
  let five := Demo.postponed <$> ["1"; "2"; "3"; "4"; "5"] in
  let start := initial_state Demo.json_loads (mkFiles None None []) 0 in
  let run := main_loop Demo.BeautifulSoup Demo.json_dumps Demo.request_html in
  consecutive_fails (run five start) = CONSECUTIVE_FAIL_CUTOFF /\
  FAIL_LOG (run_files (run five start)) = (fun u => (u, "no_rows")) <$> five /\
  OUTPUT_JSONL (run_files (run five start)) = None /\
  run_world (run five start) = 5 /\
  run_out (run (five ++ [Demo.url]) start)
  = run_out (run five start) ++ [Fetching Demo.url; Saved Demo.url 5 5] /\
  run_world (run (five ++ [Demo.url]) start) = 6 /\
  exists rows,
    extract_from_html Demo.BeautifulSoup "page" Demo.url = Ok rows /\
    length rows = 5 /\
    OUTPUT_JSONL (run_files (run (five ++ [Demo.url]) start))
    = Some (write_rows Demo.json_dumps rows "").
Proof.
  vm_compute. split_and!; try reflexivity.
  eexists. split_and!; reflexivity.
Qed.

(** C8. A run over documents that are all in the index loaded at its
    start leaves the log as it found it. For [extract_appearance_data]
    the index is the set of the URLs of the log: when every URL of the
    fixtures is in it, [main] fetches nothing, passes over every URL and
    returns with the log unchanged. For [augment_bench_dnp] the index
    maps a URL to the players stored for it: when every row without
    minutes of every document the run fetches (the page it obtains for
    a URL of the fixtures, in the world the fetches before it have
    left) is in it, [main] returns with the log unchanged. *)
Theorem rerun_over_indexed_documents_appends_nothing
    (BeautifulSoup : string -> result node)
    (json_loads : string -> result json) (json_dumps : option nat -> bool -> json -> string)
    (World : Type) (request_html : string -> World -> option string * World)
    (fixtures : list fixture) (f : files) (w : World) :
  ((forall u, u ∈ build_urls fixtures -> u ∈ load_already_processed_urls json_loads f) ->
   exists f',
     main BeautifulSoup json_loads json_dumps request_html fixtures f w
     = Ok (f', w, Skipping <$> build_urls fixtures) /\
     OUTPUT_JSONL f' = OUTPUT_JSONL f) /\
  (forall idx,
     load_existing_index json_loads f = Ok idx ->
     (forall i u html rows,
        augment_urls fixtures !! i = Some u ->
        (request_html u (fetches request_html (take i (augment_urls fixtures)) w)).1
        = Some html ->
        is_empty html = false ->
        extract_from_html BeautifulSoup html u = Ok rows ->
        Forall (fun r => minutes_played r = None -> row_key r ∈ default ∅ (idx !! u)) rows) ->
     exists f' w',
       augment_main BeautifulSoup json_loads json_dumps request_html fixtures f w
       = Ok (f', w') /\
       OUTPUT_JSONL f' = OUTPUT_JSONL f).
Proof.
  split.
  - intros Hall. unfold main.
    rewrite main_loop_all_processed by exact Hall. simpl.
    destruct (rebuild_returns json_loads json_dumps f) as (snapshot & ->). simpl.
    eauto.
  - intros idx Hidx Hrows. unfold augment_main. rewrite Hidx. simpl.
    set (st := augment_loop _ _ _ _ _).
    destruct (rebuild_returns json_loads json_dumps (aug_files st)) as (snapshot & ->).
    simpl. do 2 eexists. split; [done|]. simpl.
    unfold st. by rewrite augment_loop_adds_nothing.
Qed.

(** The fixture of the match of [Demo]: its URL is in the log, and its
    bench row is in the snapshot. *)
Lemma rerun_over_indexed_documents_appends_nothing_witness :
  let fixtures := [mkFixture (Some Demo.url) None None None] in
  let log := Some (Demo.url +:+ newline) in
  (exists f',
     main Demo.BeautifulSoup Demo.json_loads Demo.json_dumps Demo.request_html
       fixtures (mkFiles log None []) 0
     = Ok (f', 0, [Skipping Demo.url]) /\
     OUTPUT_JSONL f' = log) /\
  (exists f' w',
     augment_main Demo.BeautifulSoup Demo.json_loads Demo.json_dumps Demo.request_html
       fixtures (mkFiles None (Some "snapshot") []) 0
     = Ok (f', w') /\
     OUTPUT_JSONL f' = None).
Proof.
  intros fixtures log. split.
  - apply (rerun_over_indexed_documents_appends_nothing
             Demo.BeautifulSoup Demo.json_loads Demo.json_dumps nat Demo.request_html
             fixtures (mkFiles log None []) 0).
    intros u Hu. vm_compute in Hu. apply list_elem_of_singleton in Hu. subst u.
    apply (bool_decide_unpack (_ ∈ _)). vm_compute. exact I.
  - eapply (rerun_over_indexed_documents_appends_nothing
              Demo.BeautifulSoup Demo.json_loads Demo.json_dumps nat Demo.request_html
              fixtures (mkFiles None (Some "snapshot") []) 0).
    + reflexivity.
    + intros i u html rows Hu Hhtml _ Hrows.
      destruct i as [|i]; [|by destruct i].
      vm_compute in Hu. injection Hu as <-.
      vm_compute in Hhtml. injection Hhtml as <-.
      vm_compute in Hrows. injection Hrows as <-.
      repeat constructor; intros Hmin; try discriminate Hmin;
        apply (bool_decide_unpack (_ ∈ _)); vm_compute; exact I.
Defined.

(** ** The reconciler *)

Section reconciler_facts.

Import Reconcile.

Lemma sorted_Sorted (l : list string) : Sorted String.le (sorted l).
Proof. apply (Sorted_merge_sort String.le). Qed.

Lemma sorted_Permutation (l : list string) : sorted l ≡ₚ l.
Proof. apply (merge_sort_Permutation String.le). Qed.

Lemma elem_of_sorted (l : list string) (x : string) : x ∈ sorted l <-> x ∈ l.
Proof. by rewrite sorted_Permutation. Qed.

Lemma elem_of_filter_bool {A} (p : A -> bool) (l : list A) (x : A) :
  x ∈ List.filter p l <-> x ∈ l /\ p x = true.
Proof. rewrite !list_elem_of_In. apply List.filter_In. Qed.

Lemma NoDup_filter_bool {A} (p : A -> bool) (l : list A) :
  NoDup l -> NoDup (List.filter p l).
Proof. rewrite !NoDup_ListNoDup. apply List.NoDup_filter. Qed.

(** A sorted list of the elements of a difference of two sets. *)
Lemma sorted_difference (X Y : gset string) :
  sorted (List.filter (fun u => negb (bool_decide (u ∈ Y))) (elements X))
  ≡ₚ elements (X ∖ Y).
Proof.
  rewrite sorted_Permutation. apply NoDup_Permutation.
  - apply NoDup_filter_bool, NoDup_elements.
  - apply NoDup_elements.
  - intros u. rewrite elem_of_filter_bool, !elem_of_elements, elem_of_difference.
    rewrite negb_true_iff, bool_decide_eq_false. done.
Qed.

Lemma keys_setdefault_add (mu t : string) (d : list (string * gset string)) :
  (setdefault_add mu t d).*1 = if bool_decide (mu ∈ d.*1) then d.*1 else d.*1 ++ [mu].
Proof.
  induction d as [|[k teams] d IH]; csimpl; [done|].
  destruct (String.eqb_spec k mu) as [->|Hne]; csimpl.
  - rewrite bool_decide_eq_true_2 by left. done.
  - rewrite IH. destruct (bool_decide_reflect (mu ∈ d.*1)) as [Hin|Hout].
    + rewrite bool_decide_eq_true_2 by (by right). done.
    + rewrite bool_decide_eq_false_2; [done|].
      intros [?|?]%elem_of_cons; congruence.
Qed.

Lemma get_teams_setdefault_add (url mu t : string) (d : list (string * gset string)) :
  get_teams url (setdefault_add mu t d)
  = if String.eqb mu url then {[ t ]} ∪ get_teams url d else get_teams url d.
Proof.
  induction d as [|[k teams] d IH]; csimpl.
  - destruct (String.eqb mu url); [set_solver|done].
  - destruct (String.eqb_spec k mu) as [->|Hne]; csimpl.
    + destruct (String.eqb mu url); done.
    + destruct (String.eqb_spec k url) as [->|Hne'].
      * rewrite (proj2 (String.eqb_neq mu url)) by congruence. done.
      * exact IH.
Qed.

Lemma filter_filter_absorb (keys : list string) (mu : string) (l : list string) :
  mu ∈ keys ->
  List.filter (fun u => negb (bool_decide (u ∈ keys)))
    (List.filter (fun y => negb (String.eqb y mu)) l)
  = List.filter (fun u => negb (bool_decide (u ∈ keys))) l.
Proof.
  intros Hin. induction l as [|x l IH]; csimpl; [done|].
  destruct (String.eqb_spec x mu) as [->|Hne]; csimpl.
  - rewrite bool_decide_eq_true_2 by done. exact IH.
  - destruct (bool_decide (x ∈ keys)); csimpl; [|f_equal]; exact IH.
Qed.

Lemma filter_snoc_keys (keys : list string) (mu : string) (l : list string) :
  List.filter (fun u => negb (bool_decide (u ∈ keys ++ [mu]))) l
  = List.filter (fun u => negb (bool_decide (u ∈ keys)))
      (List.filter (fun y => negb (String.eqb y mu)) l).
Proof.
  induction l as [|x l IH]; csimpl; [done|].
  destruct (String.eqb_spec x mu) as [->|Hne]; csimpl.
  - rewrite bool_decide_eq_true_2 by (apply elem_of_app; right; left). exact IH.
  - destruct (bool_decide_reflect (x ∈ keys)) as [Hin|Hout]; csimpl.
    + rewrite bool_decide_eq_true_2 by (apply elem_of_app; by left). exact IH.
    + rewrite bool_decide_eq_false_2.
      * csimpl. f_equal. exact IH.
      * intros [?|?%list_elem_of_singleton]%elem_of_app; done.
Qed.

(** The keys of the dictionary after the loop: those it had, then the
    new URLs in the order in which the rows first name them. *)
Lemma index_loop_keys rows done d :
  (index_loop rows done d).2.*1
  = d.*1 ++ List.filter (fun u => negb (bool_decide (u ∈ d.*1))) (first_seen rows).
Proof.
  unfold first_seen. revert done d.
  induction rows as [|r rows IH]; intros done d; csimpl.
  { by rewrite app_nil_r. }
  destruct (is_empty (matchUrl r)) eqn:Hmu; csimpl; [apply IH|].
  rewrite IH, keys_setdefault_add.
  destruct (bool_decide_reflect (matchUrl r ∈ d.*1)) as [Hin|Hout]; csimpl.
  - by rewrite filter_filter_absorb.
  - rewrite <- app_assoc. csimpl. by rewrite filter_snoc_keys.
Qed.

(** The teams under a URL after the loop: those it had, and the
    normalized team names of the rows of that URL. *)
Lemma index_loop_teams rows done d url :
  url <> "" ->
  get_teams url (index_loop rows done d).2 = get_teams url d ∪ teams_of rows url.
Proof.
  intros Hurl. unfold teams_of. revert done d.
  induction rows as [|r rows IH]; intros done d; csimpl.
  { set_solver. }
  destruct (is_empty (matchUrl r)) eqn:Hmu; csimpl.
  - rewrite IH. destruct (String.eqb_spec (matchUrl r) url) as [Heq|Hne]; [|done].
    rewrite Heq in Hmu. by destruct url.
  - rewrite IH, get_teams_setdefault_add.
    destruct (String.eqb (matchUrl r) url); csimpl; set_solver.
Qed.

Lemma NoDup_dedup (l : list string) : NoDup (dedup l).
Proof.
  induction l as [|x l IH]; csimpl; constructor.
  - rewrite elem_of_filter_bool. intros [_ Hx]. by rewrite String.eqb_refl in Hx.
  - by apply NoDup_filter_bool.
Qed.

Lemma elem_of_dedup (l : list string) (x : string) : x ∈ dedup l <-> x ∈ l.
Proof.
  induction l as [|y l IH]; csimpl; [done|].
  rewrite !elem_of_cons, elem_of_filter_bool, IH, negb_true_iff, String.eqb_neq.
  destruct (decide (x = y)); naive_solver.
Qed.

Lemma assoc_list_by_keys (d : list (string * gset string)) :
  NoDup d.*1 -> d = (fun k => (k, get_teams k d)) <$> d.*1.
Proof.
  induction d as [|[k teams] d IH]; csimpl; [done|].
  intros [Hk Hd]%NoDup_cons. rewrite String.eqb_refl. f_equal.
  rewrite IH at 1 by done. apply list_fmap_ext.
  intros i k' Hk'. f_equal.
  rewrite (proj2 (String.eqb_neq k k')); [done|].
  intros ->. apply Hk. by eapply list_elem_of_lookup_2.
Qed.

(** The dictionary the reconciler builds from a snapshot. *)
Lemma index_loop_spec rows :
  (index_loop rows [] []).2 = (fun url => (url, teams_of rows url)) <$> first_seen rows.
Proof.
  pose proof (index_loop_keys rows [] []) as Hkeys. csimpl in Hkeys.
  rewrite (filter_all (fun _ => true)) in Hkeys by (by apply Forall_true).
  rewrite (assoc_list_by_keys (index_loop rows [] []).2), Hkeys.
  - apply list_fmap_ext. intros i url Hurl. f_equal.
    rewrite index_loop_teams; [csimpl; set_solver|].
    intros ->. apply list_elem_of_lookup_2 in Hurl.
    unfold first_seen in Hurl.
    apply elem_of_dedup, elem_of_filter_bool in Hurl as [_ Hne]. done.
  - rewrite Hkeys. apply NoDup_dedup.
Qed.

Lemma incomplete_loop_spec items acc :
  incomplete_loop items acc
  = acc ++ ((fun e => (e.1, sorted (elements e.2)))
              <$> List.filter (fun e => bool_decide (size e.2 ≠ 2)) items).
Proof.
  revert acc. induction items as [|[url teams] items IH]; intros acc; csimpl.
  { by rewrite app_nil_r. }
  destruct (bool_decide (size teams ≠ 2)); csimpl; rewrite IH; [|done].
  by rewrite <- app_assoc.
Qed.

Lemma filter_fmap_bool {A B} (p : B -> bool) (g : A -> B) (l : list A) :
  List.filter p (g <$> l) = g <$> List.filter (fun a => p (g a)) l.
Proof.
  induction l as [|a l IH]; csimpl; [done|].
  destruct (p (g a)); csimpl; [f_equal|]; exact IH.
Qed.

Lemma fixture_urls_loop_spec urljoin vs acc :
  fixture_urls_loop urljoin vs acc
  = acc ∪ list_to_set (report_links (to_abs_url urljoin) vs).
Proof.
  unfold report_links. revert acc. induction vs as [|v vs IH]; intros acc; csimpl.
  { set_solver. }
  destruct (truthy (py_or (match_report_url v) (matchReportUrl v))); csimpl;
    rewrite IH; set_solver.
Qed.

Lemma load_fixture_urls_spec urljoin fixtures :
  load_fixture_urls urljoin fixtures
  = list_to_set (report_links (to_abs_url urljoin) (fixture_values fixtures)).
Proof.
  destruct fixtures; csimpl; rewrite fixture_urls_loop_spec; set_solver.
Qed.

Lemma fst_fmap_pair {A B} (g : A -> B) (l : list A) :
  ((fun a => (a, g a)) <$> l).*1 = l.
Proof. induction l as [|a l IH]; csimpl; [done | by rewrite IH]. Qed.

(** What [main] reports, in terms of the snapshot. *)
Lemma main_spec urljoin fixtures rows :
  let source := load_fixture_urls urljoin fixtures in
  let present : gset string := list_to_set (first_seen rows) in
  let rep := main urljoin fixtures rows in
  missing_urls rep
  = sorted (List.filter (fun u => negb (bool_decide (u ∈ present))) (elements source)) /\
  extra_urls rep
  = sorted (List.filter (fun u => negb (bool_decide (u ∈ source))) (elements present)) /\
  incomplete rep
  = (fun url => (url, sorted (elements (teams_of rows url))))
      <$> List.filter (fun url => bool_decide (size (teams_of rows url) ≠ 2))
            (first_seen rows).
Proof.
  intros source present rep. unfold rep, main.
  pose proof (index_loop_spec rows) as Hidx.
  destruct (index_loop rows [] []) as [rows' d]. csimpl in Hidx. subst d.
  csimpl. rewrite fst_fmap_pair.
  split_and!; [done..|].
  rewrite incomplete_loop_spec. csimpl.
  rewrite (filter_fmap_bool (fun e : string * gset string => bool_decide (size e.2 ≠ 2))).
  rewrite <- list_fmap_compose. done.
Qed.

Lemma prefix_longer (c : ascii) : String.prefix "  " (String c "") = false.
Proof. destruct c as [[] [] [] [] [] [] [] []]; reflexivity. Qed.

Lemma length_replace_go_double_space (s : string) (k : nat) :
  String.length (replace_go "  " " " k s) ≤ String.length s - k.
Proof.
  revert k. induction s as [|c s IH]; intros k; [done|].
  destruct k as [|k]; cbn [replace_go].
  - destruct (String.prefix "  " (String c s)) eqn:Hp.
    + change (String.length (String " " (replace_go "  " " " 1 s)) ≤ String.length (String c s) - 0).
      cbn [String.length]. specialize (IH 1).
      destruct s as [|c' s]; [|cbn [String.length] in *; lia].
      by rewrite prefix_longer in Hp.
    + cbn [String.length]. specialize (IH 0). lia.
  - cbn [String.length]. specialize (IH k). lia.
Qed.

Lemma length_replace_double_space (s : string) :
  contains "  " s = true ->
  String.length (replace "  " " " s) < String.length s.
Proof.
  unfold replace. induction s as [|c s IH]; [done|].
  unfold contains; fold contains. cbn [replace_go].
  destruct (String.prefix "  " (String c s)) eqn:Hp.
  - intros _.
    change (String.length (String " " (replace_go "  " " " 1 s)) < String.length (String c s)).
    cbn [String.length]. pose proof (length_replace_go_double_space s 1).
    destruct s as [|c' s]; [|cbn [String.length] in *; lia].
    by rewrite prefix_longer in Hp.
  - intros Hc. cbn [orb String.length] in *. specialize (IH Hc). lia.
Qed.

(** The fuel of [collapse_spaces] is enough: the text it returns has
    no double space left, as when the loop of [normalize_team] ends. *)
Lemma collapse_spaces_terminates (fuel : nat) (n : string) :
  String.length n ≤ fuel -> contains "  " (collapse_spaces fuel n) = false.
Proof.
  revert n. induction fuel as [|fuel IH]; intros n Hlen.
  - destruct n; [done | cbn in Hlen; lia].
  - cbn [collapse_spaces]. destruct (contains "  " n) eqn:Hc; [|exact Hc].
    apply IH. pose proof (length_replace_double_space n Hc). lia.
Qed.

End reconciler_facts.

(** C4. The missing URLs are the elements of the difference of the
    source URLs (the absolute links of the fixtures that have one) and
    the present URLs (the URLs the rows of the snapshot name), the extra
    URLs those of the opposite difference, and a match is in the
    incomplete report, with the sorted list of the team names recorded
    for it, exactly when it is present and the number of these names is
    not 2. The team names recorded for a match are those of its rows,
    as [normalize_team] writes them. With fixtures A, B, C and rows for
    A (one team) and B (two teams): C is missing, nothing is extra, and
    A is incomplete with its one team. *)
Theorem reconciler_reports_differences
    (urljoin : string -> string -> string)
    (fixtures : Reconcile.fixtures_file) (rows : list AppearanceRow) :
  let source := Reconcile.load_fixture_urls urljoin fixtures in
  let present : gset string := list_to_set (first_seen rows) in
  let rep := Reconcile.main urljoin fixtures rows in
  (forall u, u ∈ source <->
             u ∈ report_links (Reconcile.to_abs_url urljoin) (fixture_values fixtures)) /\
  (forall u, u ∈ present <-> u <> "" /\ exists r, r ∈ rows /\ matchUrl r = u) /\
  (forall url t, t ∈ teams_of rows url <->
                 exists r, r ∈ rows /\ matchUrl r = url /\
                           t = Reconcile.normalize_team (teamName r)) /\
  Reconcile.missing_urls rep ≡ₚ elements (source ∖ present) /\
  Reconcile.extra_urls rep ≡ₚ elements (present ∖ source) /\
  (forall url found,
     (url, found) ∈ Reconcile.incomplete rep <->
     url ∈ present /\ size (teams_of rows url) ≠ 2 /\
     found = sorted (elements (teams_of rows url))) /\
  (let A := "https://fbref.com/A" in
   let B := "https://fbref.com/B" in
   let C := "https://fbref.com/C" in
   let fixture u := mkFixture (Some u) None None None in
   let row u team := mkAppearanceRow "" u "Player" team true false None None None in
   let rep := Reconcile.main urljoin (Reconcile.FixturesList [fixture A; fixture B; fixture C])
                [row A "Team1"; row B "Team1"; row B "Team2"] in
   Reconcile.missing_urls rep = [C] /\
   Reconcile.extra_urls rep = [] /\
   Reconcile.incomplete rep = [(A, ["Team1"])]).
Proof.
  intros source present rep.
  destruct (main_spec urljoin fixtures rows) as (Hmissing & Hextra & Hincomplete).
  fold source present rep in Hmissing, Hextra, Hincomplete.
  split_and!.
  - intros u. unfold source. rewrite load_fixture_urls_spec. apply elem_of_list_to_set.
  - intros u. unfold present, first_seen.
    rewrite elem_of_list_to_set, elem_of_dedup, elem_of_filter_bool, list_elem_of_fmap.
    rewrite negb_true_iff. split.
    + intros [(r & -> & Hr) Hne]. split; [by destruct (matchUrl r)|eauto].
    + intros [Hne (r & Hr & <-)]. split; [eauto|by destruct (matchUrl r)].
  - intros url t. unfold teams_of.
    rewrite elem_of_list_to_set, list_elem_of_fmap. split.
    + intros (r & -> & Hr). apply elem_of_filter_bool in Hr as [Hr Hurl].
      apply String.eqb_eq in Hurl. eauto.
    + intros (r & Hr & Hurl & ->). exists r. split; [done|].
      apply elem_of_filter_bool. split; [done|]. by apply String.eqb_eq.
  - rewrite Hmissing. apply sorted_difference.
  - rewrite Hextra. apply sorted_difference.
  - intros url found. rewrite Hincomplete, list_elem_of_fmap. split.
    + intros (u & [= -> ->] & Hu). apply elem_of_filter_bool in Hu as [Hu Hsize].
      apply bool_decide_eq_true in Hsize. split_and!; [|done..].
      unfold present. by apply elem_of_list_to_set.
    + intros (Hurl & Hsize & ->). exists url. split; [done|].
      apply elem_of_filter_bool. split.
      * unfold present in Hurl. by apply elem_of_list_to_set in Hurl.
      * by apply bool_decide_eq_true.
  - vm_compute. done.
Qed.

(** C5, as the code has it. The missing URLs and the extra URLs are
    sorted by URL. The incomplete matches are reported in the order in
    which the snapshot first names them; the team names of each are
    sorted. *)
Theorem reconciler_report_order
    (urljoin : string -> string -> string)
    (fixtures : Reconcile.fixtures_file) (rows : list AppearanceRow) :
  let rep := Reconcile.main urljoin fixtures rows in
  Sorted String.le (Reconcile.missing_urls rep) /\
  Sorted String.le (Reconcile.extra_urls rep) /\
  (Reconcile.incomplete rep).*1
  = List.filter (fun url => bool_decide (size (teams_of rows url) ≠ 2)) (first_seen rows) /\
  Forall (fun e => Sorted String.le e.2) (Reconcile.incomplete rep).
Proof.
  intros rep.
  destruct (main_spec urljoin fixtures rows) as (Hmissing & Hextra & Hincomplete).
  fold rep in Hmissing, Hextra, Hincomplete.
  split_and!.
  - rewrite Hmissing. apply sorted_Sorted.
  - rewrite Hextra. apply sorted_Sorted.
  - rewrite Hincomplete. apply fst_fmap_pair.
  - rewrite Hincomplete. apply Forall_fmap, Forall_true. intros url. apply sorted_Sorted.
Qed.

(** A snapshot that names match B before match A, each with one team:
    the incomplete report lists B before A. *)
Lemma incomplete_report_is_not_sorted :
  let A := "https://fbref.com/A" in
  let B := "https://fbref.com/B" in
  let row u team := mkAppearanceRow "" u "Player" team true false None None None in
  let rep := Reconcile.main String.append (Reconcile.FixturesList [])
               [row B "Team1"; row A "Team1"] in
  (Reconcile.incomplete rep).*1 = [B; A] /\
  ~ Sorted String.le ((Reconcile.incomplete rep).*1).
Proof.
  intros A B row rep.
  assert ((Reconcile.incomplete rep).*1 = [B; A]) as Hurls by (by vm_compute).
  split; [exact Hurls|]. rewrite Hurls. intros Hsorted.
  apply Sorted_inv in Hsorted as [_ Hhead]. apply HdRel_inv in Hhead.
  vm_compute in Hhead. exact Hhead.
Qed.


(** * Further properties of the code *)

(** ** URLs and match identifiers *)

Section url_facts.

Lemma base_url_absolute (rest : string) : is_absolute (BASE_URL +:+ rest) = true.
Proof. unfold is_absolute, startswith. vm_compute. reflexivity. Qed.

Lemma to_abs_url_nonempty (url : string) :
  is_empty url = false -> is_absolute (to_abs_url url) = true.
Proof.
  intros Hne. unfold to_abs_url. rewrite Hne.
  destruct (_ || _) eqn:Habs; [exact Habs|].
  destruct (startswith "/" url); apply base_url_absolute.
Qed.

Lemma is_absolute_nonempty (url : string) : is_absolute url = true -> is_empty url = false.
Proof. by destruct url. Qed.

Lemma prefix_split (p s : string) :
  String.prefix p s = true -> exists t, s = p +:+ t.
Proof.
  revert s. induction p as [|c p IH]; intros s Hp.
  - by exists s.
  - destruct s as [|c' s]; [done|]. simpl in Hp.
    destruct (ascii_dec c c') as [->|]; [|done].
    destruct (IH s Hp) as (t & ->). by exists t.
Qed.

Lemma prefix_app_same (p a b : string) :
  String.prefix (p +:+ a) (p +:+ b) = String.prefix a b.
Proof.
  induction p as [|c p IH]; [done|].
  change (String.prefix (String c (p +:+ a)) (String c (p +:+ b)) = String.prefix a b).
  simpl. by destruct (ascii_dec c c).
Qed.

Lemma prefix_substring (n : nat) (t : string) :
  String.prefix (String.substring 0 n t) t = true.
Proof.
  revert t. induction n as [|n IH]; intros t.
  - by destruct t.
  - destruct t as [|c t]; [done|]. simpl. by destruct (ascii_dec c c).
Qed.

Lemma contains_cons (sub : string) (c : ascii) (s : string) :
  contains sub s = true -> contains sub (String c s) = true.
Proof. intros H. unfold contains; fold contains. rewrite H. apply orb_true_r. Qed.

Lemma contains_prefix (sub s : string) :
  String.prefix sub s = true -> contains sub s = true.
Proof. intros H. destruct s; unfold contains; fold contains; by rewrite H. Qed.

Lemma match_id_here (s : string) :
  String.prefix "/matches/" s = true ->
  contains ("/matches/" +:+ String.substring 9 8 s) s = true.
Proof.
  intros Hp. apply contains_prefix.
  destruct (prefix_split _ _ Hp) as (t & ->).
  change (String.substring 9 8 ("/matches/" +:+ t)) with (String.substring 0 8 t).
  rewrite prefix_app_same. apply prefix_substring.
Qed.

Lemma search_match_id_shape (s g : string) :
  search_match_id s = Some g ->
  String.length g = 8 /\ PyStr.forallb is_hex_lower g = true /\
  contains ("/matches/" +:+ g) s = true.
Proof.
  induction s as [|c s IH]; [done|].
  change (search_match_id (String c s))
    with (let g := String.substring 9 8 (String c s) in
          if String.prefix "/matches/" (String c s) && (String.length g =? 8)
             && PyStr.forallb is_hex_lower g
          then Some g else search_match_id s).
  cbv zeta. generalize (match_id_here (String c s)).
  generalize (String.substring 9 8 (String c s)) as g0. intros g0 Hhere_contains.
  destruct (_ && _) eqn:Hhere.
  - intros [= <-].
    apply andb_true_iff in Hhere as [[Hp Hlen]%andb_true_iff Hhex].
    apply Nat.eqb_eq in Hlen. split_and!; [done..|]. by apply Hhere_contains.
  - intros Hg. destruct (IH Hg) as (? & ? & ?).
    split_and!; [done..|]. by apply contains_cons.
Qed.

Lemma length_omap_le {A B} (f : A -> option B) (l : list A) :
  length (omap f l) ≤ length l.
Proof. induction l as [|a l IH]; csimpl; [done|]. destruct (f a); simpl; lia. Qed.

End url_facts.

(** X1. [to_abs_url] gives an absolute URL for every link that is not
    empty and the empty text for the empty link; it leaves its own
    results as they are. *)
Theorem to_abs_url_absolute (url : string) :
  is_absolute (to_abs_url url) = negb (is_empty url) /\
  to_abs_url (to_abs_url url) = to_abs_url url.
Proof.
  destruct (is_empty url) eqn:Hne.
  - destruct url; [|done]. done.
  - pose proof (to_abs_url_nonempty url Hne) as Habs. split; [done|].
    set (u := to_abs_url url) in *. unfold to_abs_url.
    rewrite (is_absolute_nonempty u Habs). unfold is_absolute in Habs. by rewrite Habs.
Qed.

(** X2. The URLs [main] builds from the fixtures are absolute, hence
    not empty, and there is at most one for each fixture. *)
Theorem build_urls_absolute (fixtures : list fixture) :
  Forall (fun u => is_absolute u = true) (build_urls fixtures) /\
  length (build_urls fixtures) ≤ length fixtures.
Proof.
  unfold build_urls. split.
  - apply Forall_forall. intros u Hu.
    apply list_elem_of_In, List.filter_In in Hu as [Hu _].
    apply list_elem_of_In, list_elem_of_omap in Hu as (fx & _ & Hfx).
    destruct (truthy _) eqn:Htruthy; [|done]. injection Hfx as <-.
    apply to_abs_url_nonempty.
    destruct (py_or _ _) as [link|]; [|done].
    simpl in *. by destruct link.
  - etrans; [apply List.filter_length_le|]. apply length_omap_le.
Qed.

(** X4. The match identifier read from a URL is empty, or it is eight
    characters among 0-9 and a-f that follow [/matches/] in the URL. *)
Theorem match_id_shape (match_url : string) :
  match_id_of match_url = "" \/
  (String.length (match_id_of match_url) = 8 /\
   PyStr.forallb is_hex_lower (match_id_of match_url) = true /\
   contains ("/matches/" +:+ match_id_of match_url) match_url = true).
Proof.
  unfold match_id_of. destruct (search_match_id match_url) as [g|] eqn:Hg; [|by left].
  right. simpl. by apply search_match_id_shape.
Qed.

(** ** The fetch *)

Section fetch_facts.

Variable World : Type.
Variable requests_get : string -> World -> result Fetch.response * World.

Lemma request_html_loop_spec (n : nat) (url : string) (w : World) :
  n <> 0 ->
  exists i,
    i < n /\
    (Fetch.request_html_loop requests_get n url w).2 = after_calls requests_get (S i) url w /\
    (forall j, j < i -> call_result requests_get url (after_calls requests_get j url w) = None) /\
    match (Fetch.request_html_loop requests_get n url w).1 with
    | Some t =>
        is_empty t = false /\
        call_result requests_get url (after_calls requests_get i url w) = Some t
    | None =>
        i = n - 1 /\
        call_result requests_get url (after_calls requests_get i url w) = None
    end.
Proof.
  revert w. induction n as [|n IH]; intros w Hn; [done|].
  cbn [Fetch.request_html_loop]. unfold call_result.
  destruct (requests_get url w) as [r w1] eqn:Hcall.
  assert ((match r with
           | Ok resp => if Fetch.good resp then Some (Fetch.text resp) else None
           | Raise _ => None
           end = None) ->
          exists i,
            i < S n /\
            (Fetch.request_html_loop requests_get n url w1).2
            = after_calls requests_get (S i) url w /\
            (forall j, j < i ->
               call_result requests_get url (after_calls requests_get j url w) = None) /\
            match (Fetch.request_html_loop requests_get n url w1).1 with
            | Some t =>
                is_empty t = false /\
                call_result requests_get url (after_calls requests_get i url w) = Some t
            | None =>
                i = S n - 1 /\
                call_result requests_get url (after_calls requests_get i url w) = None
            end) as Hretry.
  { intros Hfail. destruct n as [|n].
    - exists 0. simpl. rewrite Hcall.
      split; [lia|]. split; [done|]. split; [intros; lia|].
      split; [done|]. unfold call_result. by rewrite Hcall.
    - destruct (IH w1) as (i & Hi & Hw & Hbefore & Hres); [done|].
      exists (S i). split_and!.
      + lia.
      + rewrite Hw. cbn [after_calls]. by rewrite Hcall.
      + intros [|j] Hj.
        * unfold call_result. cbn [after_calls]. by rewrite Hcall.
        * cbn [after_calls]. rewrite Hcall. apply Hbefore. lia.
      + cbn [after_calls]. rewrite Hcall. cbn [snd].
        destruct (Fetch.request_html_loop requests_get (S n) url w1).1; [done|].
        destruct Hres as [-> Hres]. split; [lia|done]. }
  destruct r as [resp|e]; [|by apply Hretry].
  destruct (Fetch.good resp) eqn:Hgood; [|by apply Hretry].
  exists 0. cbn [fst snd after_calls]. rewrite Hcall.
  split; [lia|]. split; [done|]. split; [intros; lia|].
  cbn [fst]. rewrite Hgood. split; [|done].
  unfold Fetch.good in Hgood. apply andb_true_iff in Hgood as [_ Hne].
  by apply negb_true_iff in Hne.
Qed.

End fetch_facts.

(** X3. [request_html] calls the network at least once and at most
    [MAX_RETRIES_PER_URL] times, and stops at the first call that
    answers 200 with a text: it returns that text, which is not empty,
    after calls that had all failed; it returns nothing only when all
    the calls it may make have failed. *)
Theorem request_html_retries (World : Type)
    (requests_get : string -> World -> result Fetch.response * World)
    (url : string) (w : World) :
  exists i,
    i < MAX_RETRIES_PER_URL /\
    (Fetch.request_html requests_get url w).2 = after_calls requests_get (S i) url w /\
    (forall j, j < i -> call_result requests_get url (after_calls requests_get j url w) = None) /\
    match (Fetch.request_html requests_get url w).1 with
    | Some t =>
        is_empty t = false /\
        call_result requests_get url (after_calls requests_get i url w) = Some t
    | None =>
        i = MAX_RETRIES_PER_URL - 1 /\
        call_result requests_get url (after_calls requests_get i url w) = None
    end.
Proof. apply request_html_loop_spec. done. Qed.

(** ** The extractor, further *)

Section extractor_more.

Lemma player_rows_loop_flags trs team mid url flag rows :
  exists a b,
    player_rows_loop trs team mid url flag rows = Ok (rows ++ a ++ b) /\
    Forall (fun r => started r = flag) a /\
    Forall (fun r => started r = false) b /\
    Forall (fun r => playerName r <> "") (a ++ b) /\
    length (a ++ b) ≤ length trs.
Proof.
  revert flag rows. induction trs as [|tr trs IH]; intros flag rows; simpl.
  { exists [], []. by rewrite app_nil_r. }
  assert (exists a b,
            player_rows_loop trs team mid url flag rows = Ok (rows ++ a ++ b) /\
            Forall (fun r => started r = flag) a /\
            Forall (fun r => started r = false) b /\
            Forall (fun r => playerName r <> "") (a ++ b) /\
            length (a ++ b) ≤ S (length trs)) as Hskip.
  { destruct (IH flag rows) as (a & b & ? & ? & ? & ? & ?).
    exists a, b. split_and!; [done..|lia]. }
  destruct (has_class "thead" tr).
  { destruct (contains "Bench" (get_text_strip tr)); [|exact Hskip].
    destruct (IH false rows) as (a & b & Hres & Ha & Hb & Hn & Hlen).
    exists [], (a ++ b). split_and!; [done|done| |done|simpl; lia].
    apply Forall_app. done. }
  destruct (_ && _); [exact Hskip|].
  destruct (match find_with_attr "th" "data-stat" "player" tr with
            | Some c => Some c
            | None => find_with_attr "td" "data-stat" "player" tr
            end) as [cell|]; [|exact Hskip].
  destruct (is_empty (get_text_strip cell)) eqn:Hname; [exact Hskip|].
  destruct (parse_minutes_total
              (default "" (cell_text (find_with_attr "td" "data-stat" "minutes" tr))))
    as [m ->].
  destruct (parse_float_total (cell_text (find_with_attr "td" "data-stat" "npxg" tr)))
    as [x ->].
  destruct (parse_float_total (cell_text (find_with_attr "td" "data-stat" "xg_assist" tr)))
    as [xa ->].
  simpl.
  destruct (IH flag (rows ++ [mkAppearanceRow mid url (get_text_strip cell) team true flag m x xa]))
    as (a & b & -> & Ha & Hb & Hn & Hlen).
  eexists (_ :: a), b. rewrite <- !app_assoc. split_and!; [done| |done| |simpl; lia].
  - constructor; done.
  - simpl. constructor; [|done]. simpl. by destruct (get_text_strip cell).
Qed.

Lemma player_rows_loop_blocks trs team mid url flag :
  exists a b,
    (forall rows, player_rows_loop trs team mid url flag rows = Ok (rows ++ a ++ b)) /\
    Forall (fun r => started r = flag) a /\
    Forall (fun r => started r = false) b /\
    Forall (fun r => playerName r <> "") (a ++ b) /\
    length (a ++ b) ≤ length trs.
Proof.
  revert flag. induction trs as [|tr trs IH]; intros flag.
  { exists [], []. simpl. split_and!; try done. intros rows. by rewrite app_nil_r. }
  cbn [player_rows_loop].
  assert (exists a b,
            (forall rows, player_rows_loop trs team mid url flag rows = Ok (rows ++ a ++ b)) /\
            Forall (fun r => started r = flag) a /\
            Forall (fun r => started r = false) b /\
            Forall (fun r => playerName r <> "") (a ++ b) /\
            length (a ++ b) ≤ length (tr :: trs)) as Hskip.
  { destruct (IH flag) as (a & b & ? & ? & ? & ? & ?).
    exists a, b. split_and!; [done..|simpl; lia]. }
  destruct (has_class "thead" tr).
  { destruct (contains "Bench" (get_text_strip tr)); [|exact Hskip].
    destruct (IH false) as (a & b & Hres & Ha & Hb & Hn & Hlen).
    exists [], (a ++ b). split_and!; [done|done| |done|simpl; lia].
    apply Forall_app. done. }
  destruct (_ && _); [exact Hskip|].
  destruct (match find_with_attr "th" "data-stat" "player" tr with
            | Some c => Some c
            | None => find_with_attr "td" "data-stat" "player" tr
            end) as [cell|]; [|exact Hskip].
  destruct (is_empty (get_text_strip cell)) eqn:Hname; [exact Hskip|].
  destruct (parse_minutes_total
              (default "" (cell_text (find_with_attr "td" "data-stat" "minutes" tr))))
    as [m ->].
  destruct (parse_float_total (cell_text (find_with_attr "td" "data-stat" "npxg" tr)))
    as [x ->].
  destruct (parse_float_total (cell_text (find_with_attr "td" "data-stat" "xg_assist" tr)))
    as [xa ->].
  simpl.
  destruct (IH flag) as (a & b & Hres & Ha & Hb & Hn & Hlen).
  exists (mkAppearanceRow mid url (get_text_strip cell) team true flag m x xa :: a), b.
  split_and!; [|by constructor|done| |simpl; lia].
  - intros rows. rewrite Hres, <- !app_assoc. done.
  - simpl. constructor; [|done]. simpl. by destruct (get_text_strip cell).
Qed.

Lemma player_rows_loop_split trs team mid url :
  exists a b,
    (forall rows, player_rows_loop (before_bench_divider trs) team mid url true rows
                  = Ok (rows ++ a)) /\
    (forall rows, player_rows_loop (after_bench_divider trs) team mid url false rows
                  = Ok (rows ++ b)) /\
    (forall rows, player_rows_loop trs team mid url true rows = Ok (rows ++ a ++ b)) /\
    Forall (fun r => started r = true) a /\
    Forall (fun r => started r = false) b /\
    Forall (fun r => playerName r <> "") (a ++ b) /\
    length (a ++ b) ≤ length trs.
Proof.
  induction trs as [|tr trs IH].
  { exists [], []. simpl. split_and!; try done; intros rows; by rewrite app_nil_r. }
  destruct IH as (a & b & Hbefore & Hafter & Hall & Ha & Hb & Hn & Hlen).
  assert (is_bench_divider tr = false ->
          has_class "thead" tr = true ->
          contains "Bench" (get_text_strip tr) = false) as Hplain.
  { unfold is_bench_divider. intros Hdiv Hhead. by rewrite Hhead in Hdiv. }
  cbn [before_bench_divider after_bench_divider].
  destruct (is_bench_divider tr) eqn:Hdiv.
  { apply andb_true_iff in Hdiv as [Hhead Hbench].
    destruct (player_rows_loop_blocks trs team mid url false)
      as (x & y & Hc & Hx & Hy & Hnames & Hl).
    exists [], (x ++ y). split_and!.
    - intros rows. simpl. by rewrite app_nil_r.
    - intros rows. apply Hc.
    - intros rows. cbn [player_rows_loop]. rewrite Hhead, Hbench. apply Hc.
    - done.
    - by apply Forall_app.
    - done.
    - simpl. lia. }
  cbn [player_rows_loop].
  destruct (has_class "thead" tr) eqn:Hhead.
  { rewrite (Hplain eq_refl eq_refl). exists a, b. split_and!; try done. simpl. lia. }
  destruct (_ && _).
  { exists a, b. split_and!; try done. simpl. lia. }
  destruct (match find_with_attr "th" "data-stat" "player" tr with
            | Some c => Some c
            | None => find_with_attr "td" "data-stat" "player" tr
            end) as [cell|].
  2: { exists a, b. split_and!; try done. simpl. lia. }
  destruct (is_empty (get_text_strip cell)) eqn:Hname.
  { exists a, b. split_and!; try done. simpl. lia. }
  destruct (parse_minutes_total
              (default "" (cell_text (find_with_attr "td" "data-stat" "minutes" tr))))
    as [m ->].
  destruct (parse_float_total (cell_text (find_with_attr "td" "data-stat" "npxg" tr)))
    as [x ->].
  destruct (parse_float_total (cell_text (find_with_attr "td" "data-stat" "xg_assist" tr)))
    as [xa ->].
  simpl.
  exists (mkAppearanceRow mid url (get_text_strip cell) team true true m x xa :: a), b.
  split_and!.
  - intros rows. rewrite Hbefore, <- app_assoc. done.
  - done.
  - intros rows. rewrite Hall, <- !app_assoc. done.
  - by constructor.
  - done.
  - simpl. constructor; [|done]. simpl. by destruct (get_text_strip cell).
  - simpl. lia.
Qed.

Lemma elem_of_summary_tables (soup tbl : node) :
  tbl ∈ summary_tables soup ->
  is_tag "table" tbl = true /\ is_summary_table tbl = true /\ tbl ∈ descendants soup.
Proof.
  unfold summary_tables, find_all. rewrite !list_elem_of_In.
  intros [[Hin Htag]%List.filter_In Hid]%List.filter_In. done.
Qed.

Lemma starters_loop_spec (trs : list node) (starters : gset string) :
  starters_loop trs starters
  = starters ∪ list_to_set (omap listed_name (before_bench_marker trs)).
Proof.
  revert starters. induction trs as [|tr trs IH]; intros starters; simpl.
  { set_solver. }
  destruct (is_bench_row tr) eqn:Hbench; simpl; [set_solver|].
  unfold listed_name at 1. rewrite Hbench.
  destruct (second_td tr) as [td|]; simpl; [|apply IH].
  destruct (is_empty (cell_name td)); simpl; rewrite IH; set_solver.
Qed.

Lemma lineups_starters_loop_spec (divs : list node) (starters : gset string) :
  lineups_starters_loop divs starters
  = starters ∪
    list_to_set
      (lineup_div ← divs;
       match find "table" lineup_div with
       | None => []
       | Some table => omap listed_name (before_bench_marker (find_all "tr" table))
       end).
Proof.
  revert starters. induction divs as [|d divs IH]; intros starters; csimpl.
  { set_solver. }
  destruct (find "table" d) as [table|]; rewrite IH; [|set_solver].
  rewrite starters_loop_spec, list_to_set_app_L. set_solver.
Qed.

Lemma listed_name_nonempty (tr : node) (name : string) :
  listed_name tr = Some name -> name <> "".
Proof.
  unfold listed_name. destruct (is_bench_row tr); [done|].
  destruct (second_td tr) as [td|]; [|done]. simpl.
  destruct (is_empty (cell_name td)) eqn:Hne; [done|].
  intros [= <-] Heq. by rewrite Heq in Hne.
Qed.

Lemma bench_listings_nonempty (soup : node) (e : string * string) :
  e ∈ bench_listings soup -> e.1 <> "".
Proof.
  unfold bench_listings. rewrite list_elem_of_bind. intros (d & He & _).
  destruct (find "table" d) as [table|]; [|by apply elem_of_nil in He].
  destruct (find "th" table) as [th|]; [|by apply elem_of_nil in He].
  apply list_elem_of_fmap in He as (name & -> & Hname).
  apply list_elem_of_omap in Hname as (tr & _ & Htr).
  by eapply listed_name_nonempty.
Qed.

Lemma table_rows_nonempty_names table team mid url raw :
  extract_player_rows_from_table table team mid url = Ok raw ->
  Forall (fun r => matchUrl r = url /\ matchId r = mid /\ teamName r = team /\
                   in_squad r = true) raw /\
  Forall (fun r => playerName r <> "") raw.
Proof.
  intros Hraw. split.
  - destruct (extract_player_rows_from_table_spec table team mid url) as (rows & Hrows & ?).
    congruence.
  - revert Hraw. unfold extract_player_rows_from_table.
    destruct (find "tbody" table) as [tbody|]; [|by intros [= <-]].
    destruct (player_rows_loop_flags (find_all_children "tr" tbody) team mid url true [])
      as (a & b & -> & _ & _ & Hnames & _).
    by intros [= <-].
Qed.

End extractor_more.

(** X5. The rows of a statistics table come in two blocks, and the
    first Bench divider of the table (a heading row that names the
    bench) is where they part. The first block is what the loop reads
    from the [tr] rows before that divider, and all its rows have
    [started] true; the second is what the loop reads, with the flag
    down, from the [tr] rows after it, and all its rows have [started]
    false: once down, the flag stays down. No row lacks a player name,
    and there are at most as many rows as the body of the table has
    [tr] children. *)
Theorem table_rows_started_then_bench (table : node) (team mid url : string) :
  let trs := default [] (find_all_children "tr" <$> find "tbody" table) in
  exists starting bench,
    player_rows_loop (before_bench_divider trs) team mid url true [] = Ok starting /\
    player_rows_loop (after_bench_divider trs) team mid url false [] = Ok bench /\
    extract_player_rows_from_table table team mid url = Ok (starting ++ bench) /\
    Forall (fun r => started r = true) starting /\
    Forall (fun r => started r = false) bench /\
    Forall (fun r => playerName r <> "") (starting ++ bench) /\
    length (starting ++ bench) ≤ length trs.
Proof.
  intros trs.
  destruct (player_rows_loop_split trs team mid url)
    as (a & b & Hbefore & Hafter & Hall & Ha & Hb & Hn & Hlen).
  exists a, b. split_and!; [apply (Hbefore [])|apply (Hafter [])| |done..].
  unfold extract_player_rows_from_table. unfold trs in Hall.
  destruct (find "tbody" table) as [tbody|]; simpl in *; [apply (Hall [])|].
  by injection (Hall []) as <-.
Qed.

(** In the second statistics table of [Demo] the divider comes after
    the first player: one row is started, the one after it is not. *)
Example demo_table_blocks :
  let trs := default [] (find_all_children "tr" <$> find "tbody" Demo.away_table) in
  (started <$> default [] (to_option
      (player_rows_loop (before_bench_divider trs) "T" "m" "u" true [])),
   started <$> default [] (to_option
      (player_rows_loop (after_bench_divider trs) "T" "m" "u" false [])),
   started <$> default [] (to_option
      (extract_player_rows_from_table Demo.away_table "T" "m" "u")))
  = ([true], [false], [true; false]).
Proof. vm_compute. reflexivity. Qed.

(** X6. Every row the extraction returns carries the URL it was given,
    the match identifier read from that URL and [in_squad] true, and
    names a player. *)
Theorem extracted_rows_well_formed
    (BeautifulSoup : string -> result node) (html url : string)
    (rows : list AppearanceRow) :
  extract_from_html BeautifulSoup html url = Ok rows ->
  Forall (fun r => matchUrl r = url /\ matchId r = match_id_of url /\
                   in_squad r = true /\ playerName r <> "") rows.
Proof.
  unfold extract_from_html. destruct (BeautifulSoup html) as [soup|] eqn:Hsoup; [|done].
  simpl. unfold extract_from_soup.
  destruct (extract_from_tables_spec (candidate_tables BeautifulSoup soup) soup url)
    as (per & -> & Hper).
  intros [= <-]. apply Forall_app. split.
  - apply Forall_concat.
    induction Hper as [|tbl trows tables per Htbl _ IH]; constructor; [|done].
    unfold table_contributes in Htbl. destruct (find "caption" tbl) as [cap|]; [|by subst].
    destruct Htbl as (raw & Hraw & ->).
    destruct (table_rows_nonempty_names tbl (caption_team cap) (match_id_of url) url raw Hraw)
      as [Hfields Hnames].
    assert (Forall (fun r => matchUrl r = url /\ matchId r = match_id_of url /\
                             in_squad r = true /\ playerName r <> "") raw) as Hok.
    { apply Forall_forall. intros r Hr.
      rewrite Forall_forall in Hfields. rewrite Forall_forall in Hnames.
      destruct (Hfields r Hr) as (? & ? & _ & ?). split_and!; [done..|]. by apply Hnames. }
    destruct (bool_decide _); [|done].
    apply Forall_fmap. eapply Forall_impl; [exact Hok|]. by intros [].
  - rewrite extract_unused_subs_spec. apply Forall_fmap, Forall_forall. intros e He.
    apply list_elem_of_In, List.filter_In in He as [He _].
    split_and!; [done..|]. simpl. eapply bench_listings_nonempty. by apply list_elem_of_In.
Qed.

(** The page of [Demo]. *)
Lemma extracted_rows_well_formed_witness :
  exists rows,
    extract_from_html Demo.BeautifulSoup "page" Demo.url = Ok rows /\
    length rows = 5 /\
    Forall (fun r => matchUrl r = Demo.url /\ matchId r = match_id_of Demo.url /\
                     in_squad r = true /\ playerName r <> "") rows.
Proof.
  destruct (extract_from_html Demo.BeautifulSoup "page" Demo.url) as [rows|] eqn:Hrows;
    [|by vm_compute in Hrows].
  exists rows. split_and!; [done| |].
  - vm_compute in Hrows. by injection Hrows as <-.
  - by apply (extracted_rows_well_formed Demo.BeautifulSoup "page" Demo.url).
Defined.

(** X7. The tables the extraction reads are [table] elements whose id
    starts with [stats_] and ends with [_summary], and no others: those
    of the document itself, then those of the comments that name both
    [table] and [stats_] and parse. *)
Theorem candidate_tables_are_summary_tables
    (BeautifulSoup : string -> result node) (soup : node) :
  Forall (fun tbl => is_tag "table" tbl = true /\ is_summary_table tbl = true)
    (candidate_tables BeautifulSoup soup) /\
  (forall tbl,
     tbl ∈ candidate_tables BeautifulSoup soup <->
     (tbl ∈ descendants soup /\ is_tag "table" tbl = true /\ is_summary_table tbl = true) \/
     exists c sub,
       c ∈ comments soup /\ contains "table" c = true /\ contains "stats_" c = true /\
       BeautifulSoup c = Ok sub /\
       tbl ∈ descendants sub /\ is_tag "table" tbl = true /\ is_summary_table tbl = true).
Proof.
  assert (forall s tbl,
            tbl ∈ summary_tables s <->
            tbl ∈ descendants s /\ is_tag "table" tbl = true /\ is_summary_table tbl = true)
    as Hsummary.
  { intros s tbl. split; [intros H; apply elem_of_summary_tables in H; tauto|].
    intros (Hin & Htag & Hid). unfold summary_tables, find_all.
    rewrite list_elem_of_In, !List.filter_In, <- list_elem_of_In. done. }
  assert (forall tbl,
            tbl ∈ candidate_tables BeautifulSoup soup <->
            (tbl ∈ descendants soup /\ is_tag "table" tbl = true /\
             is_summary_table tbl = true) \/
            exists c sub,
              c ∈ comments soup /\ contains "table" c = true /\
              contains "stats_" c = true /\ BeautifulSoup c = Ok sub /\
              tbl ∈ descendants sub /\ is_tag "table" tbl = true /\
              is_summary_table tbl = true) as Hiff.
  { intros tbl. unfold candidate_tables, commented_tables.
    rewrite elem_of_app, Hsummary, list_elem_of_bind.
    apply or_iff_compat_l. split.
    - intros (c & Htbl & Hc).
      destruct (contains "table" c) eqn:H1; [|by apply elem_of_nil in Htbl].
      destruct (contains "stats_" c) eqn:H2; [|by apply elem_of_nil in Htbl].
      simpl in Htbl. destruct (BeautifulSoup c) as [sub|] eqn:Hsub;
        [|by apply elem_of_nil in Htbl].
      apply Hsummary in Htbl. exists c, sub. tauto.
    - intros (c & sub & Hc & H1 & H2 & Hsub & Htbl).
      exists c. split; [|done]. rewrite H1, H2, Hsub. simpl. by apply Hsummary. }
  split; [|exact Hiff].
  apply Forall_forall. intros tbl Htbl. apply Hiff in Htbl.
  destruct Htbl as [?|(c & sub & ?)]; tauto.
Qed.

(** X8. The starters of a document are the names its lineup tables
    list before their first Bench row, and none of them is empty: a
    row after the Bench row of its table adds no starter. *)
Theorem lineup_starters_are_listed_before_bench (soup : node) :
  get_lineup_starters soup = list_to_set (starter_listings soup) /\
  (forall name, name ∈ get_lineup_starters soup <-> name ∈ starter_listings soup) /\
  "" ∉ get_lineup_starters soup.
Proof.
  assert (get_lineup_starters soup = list_to_set (starter_listings soup)) as Heq.
  { unfold get_lineup_starters, starter_listings.
    rewrite lineups_starters_loop_spec. set_solver. }
  split_and!; [done| |].
  - intros name. rewrite Heq. apply elem_of_list_to_set.
  - rewrite Heq, elem_of_list_to_set. unfold starter_listings.
    rewrite list_elem_of_bind. intros (d & Hin & _).
    destruct (find "table" d) as [table|]; [|by apply elem_of_nil in Hin].
    apply list_elem_of_omap in Hin as (tr & _ & Htr).
    by apply listed_name_nonempty in Htr.
Qed.

(** X9. Without starters from the lineups the extraction keeps the
    flag the table gave: the rows a captioned table contributes are the
    rows [extract_player_rows_from_table] reads from it, unchanged. *)
Theorem without_lineup_table_flags_stand
    (BeautifulSoup : string -> result node) (html url : string) (soup : node) :
  BeautifulSoup html = Ok soup ->
  get_lineup_starters soup = ∅ ->
  exists per_table,
    extract_from_html BeautifulSoup html url
      = Ok (concat per_table ++
            extract_unused_subs_from_lineups soup (names_of (concat per_table))
              (match_id_of url) url) /\
    Forall2 (fun tbl rows =>
               match find "caption" tbl with
               | None => rows = []
               | Some caption_el =>
                   extract_player_rows_from_table tbl (caption_team caption_el)
                     (match_id_of url) url = Ok rows
               end)
      (candidate_tables BeautifulSoup soup) per_table.
Proof.
  intros Hsoup Hnone. unfold extract_from_html. rewrite Hsoup. simpl.
  destruct (extract_from_tables_spec (candidate_tables BeautifulSoup soup) soup url)
    as (per & Hres & Hper).
  exists per. split; [exact Hres|]. rewrite Hnone in Hper.
  eapply Forall2_impl; [exact Hper|]. intros tbl rows Htbl.
  unfold table_contributes in Htbl. destruct (find "caption" tbl); [|done].
  destruct Htbl as (raw & Hraw & ->).
  rewrite bool_decide_eq_false_2; [done|]. by intros H.
Qed.

(** The page of [Demo] without its lineup: Saka keeps the flag of the
    Bench divider that opens the table. *)
Lemma without_lineup_table_flags_stand_witness :
  exists per_table,
    extract_from_html Demo.BeautifulSoup "no lineup" Demo.url
      = Ok (concat per_table ++
            extract_unused_subs_from_lineups Demo.page_without_lineup
              (names_of (concat per_table)) (match_id_of Demo.url) Demo.url) /\
    Forall2 (fun tbl rows =>
               match find "caption" tbl with
               | None => rows = []
               | Some caption_el =>
                   extract_player_rows_from_table tbl (caption_team caption_el)
                     (match_id_of Demo.url) Demo.url = Ok rows
               end)
      (candidate_tables Demo.BeautifulSoup Demo.page_without_lineup) per_table.
Proof.
  apply (without_lineup_table_flags_stand Demo.BeautifulSoup "no lineup" Demo.url
           Demo.page_without_lineup).
  - reflexivity.
  - vm_compute. reflexivity.
Defined.

(** ** The run, further *)

(** The network is down and four failures have been met: the first
    URL trips the breaker, the second is not looked at. *)
Lemma breaker_halts_on_fetch_failure_witness :
  main_loop Demo.BeautifulSoup Demo.json_dumps Cases.offline
    [Demo.postponed "1"; Demo.url] Cases.at_the_brink
  = main_loop Demo.BeautifulSoup Demo.json_dumps Cases.offline
      [Demo.postponed "1"] Cases.at_the_brink /\
  last (run_out (main_loop Demo.BeautifulSoup Demo.json_dumps Cases.offline
                   [Demo.postponed "1"; Demo.url] Cases.at_the_brink))
  = Some TooManyFailures.
Proof.
  apply (breaker_halts_on_fetch_failure Demo.BeautifulSoup Demo.json_dumps nat Cases.offline).
  - apply not_elem_of_empty.
  - reflexivity.
  - vm_compute. lia.
Defined.

(** The network answers with a text that does not parse. *)
Lemma breaker_halts_on_parse_error_witness :
  main_loop Demo.BeautifulSoup Demo.json_dumps Cases.garbled
    [Demo.postponed "1"; Demo.url] Cases.at_the_brink
  = main_loop Demo.BeautifulSoup Demo.json_dumps Cases.garbled
      [Demo.postponed "1"] Cases.at_the_brink /\
  last (run_out (main_loop Demo.BeautifulSoup Demo.json_dumps Cases.garbled
                   [Demo.postponed "1"; Demo.url] Cases.at_the_brink))
  = Some TooManyFailuresDuringParse.
Proof.
  apply (breaker_halts_on_parse_error Demo.BeautifulSoup Demo.json_dumps nat Cases.garbled
           (Demo.postponed "1") "garbled" ParserError).
  - apply not_elem_of_empty.
  - reflexivity.
  - reflexivity.
  - reflexivity.
  - vm_compute. lia.
Defined.

(** Two bench rows appended to a new log and read back. *)
Lemma rebuild_after_append_witness :
  let rows := [Cases.bench_row "Elneny"; Cases.bench_row "Kiwior"] in
  let f := append_jsonl Cases.json_dumps rows (mkFiles None None []) in
  rebuild_full_json_from_jsonl Cases.json_loads Cases.json_dumps f
  = Ok (set_json (Some (Cases.json_dumps (Some 2) false (JList (asdict <$> rows)))) f).
Proof.
  intros rows f.
  apply (rebuild_after_append Cases.json_loads Cases.json_dumps rows (mkFiles None None [])).
  - reflexivity.
  - discriminate.
  - repeat constructor.
Defined.

Section run_more.

Variable json_dumps : option nat -> bool -> json -> string.
Variable World : Type.

Lemma saved_urls_snoc (out : list event) (e : event) :
  saved_urls (out ++ [e])
  = saved_urls out ++ match e with Saved u _ _ => [u] | _ => [] end.
Proof. unfold saved_urls. rewrite omap_app. by destruct e. Qed.

Lemma saved_once_same index0 given (st st' : run_state World) :
  saved_urls (run_out st') = saved_urls (run_out st) ->
  processed st' = processed st ->
  saved_once index0 given st -> saved_once index0 given st'.
Proof. unfold saved_once. intros -> ->. done. Qed.

Lemma saved_once_end_of_iteration index0 given (st : run_state World) :
  saved_once index0 given st -> saved_once index0 given (end_of_iteration st).
Proof.
  apply saved_once_same; unfold end_of_iteration; destruct (_ =? 0); simpl; try done.
  rewrite saved_urls_snoc. by rewrite app_nil_r.
Qed.

Lemma saved_once_save_rows index0 given url rows (st : run_state World) :
  url ∉ processed st -> url ∈ given ->
  saved_once index0 given st -> saved_once index0 given (save_rows json_dumps url rows st).
Proof.
  intros Hnew Hgiven (Hnodup & Hsaved & Hsub). unfold saved_once, save_rows. simpl.
  rewrite saved_urls_snoc. split_and!.
  - apply NoDup_app. split_and!; [done| |apply NoDup_singleton].
    intros u Hu ->%list_elem_of_singleton. by destruct (Hsaved _ Hu).
  - intros u [Hu | ->%list_elem_of_singleton]%elem_of_app.
    + destruct (Hsaved _ Hu) as (? & ? & ?). split_and!; [set_solver|done..].
    + split_and!; [set_solver| |done]. intros Hin. apply Hnew. by apply Hsub.
  - set_solver.
Qed.

Lemma main_loop_saved_once (BeautifulSoup : string -> result node)
    (request_html : string -> World -> option string * World)
    index0 given (urls : list string) (st : run_state World) :
  (forall u, u ∈ urls -> u ∈ given) ->
  saved_once index0 given st ->
  saved_once index0 given (main_loop BeautifulSoup json_dumps request_html urls st).
Proof.
  revert st. induction urls as [|url urls IH]; intros st Hgiven Hinv; [done|].
  assert (forall u, u ∈ urls -> u ∈ given) as Hrest by (intros u Hu; apply Hgiven; by right).
  assert (url ∈ given) as Hurl by (apply Hgiven; by left).
  cbn [main_loop].
  destruct (bool_decide_reflect (url ∈ processed st)) as [Hold|Hnew].
  { apply IH; [done|]. revert Hinv. apply saved_once_same; simpl; [|done].
    rewrite saved_urls_snoc. by rewrite app_nil_r. }
  unfold fetch. cbn [run_world print].
  destruct (request_html url (run_world st)) as [html w].
  assert (forall (e : list event) n m k f,
            saved_urls e = [] ->
            saved_once index0 given
              (mkRun f w ((run_out st ++ [Fetching url]) ++ e) (processed st) n m k)) as Hstep.
  { intros e n m k f He. revert Hinv. apply saved_once_same; simpl; [|done].
    unfold saved_urls in *. rewrite !omap_app, He. simpl. by rewrite !app_nil_r. }
  destruct (negb (truthy html)).
  { match goal with |- context [if ?c then _ else _] => destruct c end.
    - unfold count_failure, print. simpl.
      rewrite <- (app_assoc (run_out st ++ [Fetching url])). apply Hstep. done.
    - apply IH; [done|]. unfold count_failure, print. simpl. apply Hstep. done. }
  destruct (extract_from_html BeautifulSoup (default "" html) url) as [rows|e].
  - apply IH; [done|]. apply saved_once_end_of_iteration.
    destruct rows as [|r rows].
    + unfold count_failure, print. simpl. apply Hstep. done.
    + apply saved_once_save_rows; [done..|].
      eapply saved_once_same; [| |apply (Hstep [] 0 0 0 (run_files st) eq_refl)]; simpl;
        [by rewrite app_nil_r | done].
  - match goal with |- context [if ?c then _ else _] => destruct c end.
    + unfold count_failure, print. simpl.
      rewrite <- (app_assoc (run_out st ++ [Fetching url])). apply Hstep. done.
    + apply IH; [done|]. unfold count_failure, print. simpl. apply Hstep. done.
Qed.

Lemma write_rows_app (a b : list AppearanceRow) (content : string) :
  write_rows json_dumps (a ++ b) content
  = write_rows json_dumps b (write_rows json_dumps a content).
Proof. revert content. induction a as [|r a IH]; intros content; simpl; [done|apply IH]. Qed.

Lemma append_jsonl_app_two (a b : list AppearanceRow) (f : files) :
  append_jsonl json_dumps (a ++ b) f
  = append_jsonl json_dumps b (append_jsonl json_dumps a f).
Proof.
  destruct a as [|r a]; [done|]. destruct b as [|r' b].
  - by rewrite app_nil_r.
  - unfold append_jsonl, set_jsonl. simpl. f_equal. f_equal.
    by rewrite write_rows_app.
Qed.

End run_more.

(** X13. In a run, a URL is reported as saved at most once, however
    often the fixtures name it; a URL that was in the index at the
    start is never saved; every saved URL was given to the run and is in
    the index at the end, and the index has lost nothing. *)
Theorem main_loop_saves_each_url_once
    (BeautifulSoup : string -> result node)
    (json_loads : string -> result json) (json_dumps : option nat -> bool -> json -> string)
    (World : Type) (request_html : string -> World -> option string * World)
    (urls : list string) (f : files) (w : World) :
  let index0 := load_already_processed_urls json_loads f in
  let st := main_loop BeautifulSoup json_dumps request_html urls
              (initial_state json_loads f w) in
  NoDup (saved_urls (run_out st)) /\
  (forall u, u ∈ saved_urls (run_out st) ->
             (u ∈ processed st) /\ (u ∉ index0) /\ (u ∈ urls)) /\
  index0 ⊆ processed st.
Proof.
  intros index0 st.
  apply (main_loop_saved_once json_dumps World BeautifulSoup request_html index0 urls);
    [done|].
  unfold saved_once, initial_state. simpl. split_and!.
  - constructor.
  - intros u Hu. by apply elem_of_nil in Hu.
  - done.
Qed.

(** X18. Appending the rows of two documents one after the other
    leaves the files that appending them at once leaves. *)
Theorem append_jsonl_app
    (json_dumps : option nat -> bool -> json -> string)
    (a b : list AppearanceRow) (f : files) :
  append_jsonl json_dumps (a ++ b) f
  = append_jsonl json_dumps b (append_jsonl json_dumps a f).
Proof. apply append_jsonl_app_two. Qed.

(** X19. The rebuild reads the log only: it returns, leaves the log
    and the failure ledger as they are, gives the same snapshot
    whatever snapshot was there before, and gives it again when it is
    run again. *)
Theorem rebuild_idempotent
    (json_loads : string -> result json) (json_dumps : option nat -> bool -> json -> string)
    (f : files) :
  exists snapshot,
    rebuild_full_json_from_jsonl json_loads json_dumps f
    = Ok (mkFiles (OUTPUT_JSONL f) (Some snapshot) (FAIL_LOG f)) /\
    (forall old,
       rebuild_full_json_from_jsonl json_loads json_dumps (set_json old f)
       = Ok (mkFiles (OUTPUT_JSONL f) (Some snapshot) (FAIL_LOG f))) /\
    rebuild_full_json_from_jsonl json_loads json_dumps
      (mkFiles (OUTPUT_JSONL f) (Some snapshot) (FAIL_LOG f))
    = Ok (mkFiles (OUTPUT_JSONL f) (Some snapshot) (FAIL_LOG f)).
Proof.
  unfold rebuild_full_json_from_jsonl, set_json. simpl.
  destruct (OUTPUT_JSONL f) as [content|]; [|eauto].
  rewrite rebuild_loop_spec. simpl. eauto.
Qed.

(** ** The failure ledger of the run *)

Section ledger_facts.

Variable json_dumps : option nat -> bool -> json -> string.
Variable World : Type.

Lemma failed_urls_snoc (out : list event) (e : event) :
  failed_urls (out ++ [e]) = failed_urls out ++ failed_urls [e].
Proof. unfold failed_urls. by rewrite omap_app. Qed.

Lemma ledger_kept_same ledger0 snapshot0 index0 given (st st' : run_state World) :
  run_files st' = run_files st -> failed_urls (run_out st') = failed_urls (run_out st) ->
  processed st' = processed st ->
  ledger_kept ledger0 snapshot0 index0 given st ->
  ledger_kept ledger0 snapshot0 index0 given st'.
Proof. unfold ledger_kept. intros -> -> ->. done. Qed.

Lemma ledger_kept_print ledger0 snapshot0 index0 given (e : event) (st : run_state World) :
  failed_urls [e] = [] ->
  ledger_kept ledger0 snapshot0 index0 given st ->
  ledger_kept ledger0 snapshot0 index0 given (print e st).
Proof.
  intros He. apply ledger_kept_same; simpl; [done| |done].
  by rewrite failed_urls_snoc, He, app_nil_r.
Qed.

Lemma ledger_kept_count_failure ledger0 snapshot0 index0 given (url reason : string)
    (e : event) (st : run_state World) :
  failed_urls [e] = [url] -> url ∈ given -> url ∉ processed st ->
  ledger_kept ledger0 snapshot0 index0 given st ->
  ledger_kept ledger0 snapshot0 index0 given (count_failure url reason (print e st)).
Proof.
  intros He Hgiven Hnew (Hledger & Hsnap & Hfailed & Hsub).
  unfold ledger_kept, count_failure, print, save_failure. simpl.
  rewrite failed_urls_snoc, He, fmap_app, Hledger, <- app_assoc. split_and!; [done..| |done].
  intros u [Hu | ->%list_elem_of_singleton]%elem_of_app; [by apply Hfailed|].
  split; [done|]. intros Hin. apply Hnew. by apply Hsub.
Qed.

Lemma append_jsonl_keeps (rows : list AppearanceRow) (f : files) :
  FAIL_LOG (append_jsonl json_dumps rows f) = FAIL_LOG f /\
  OUTPUT_JSON (append_jsonl json_dumps rows f) = OUTPUT_JSON f.
Proof. unfold append_jsonl. by destruct rows. Qed.

Lemma ledger_kept_save_rows ledger0 snapshot0 index0 given (url : string)
    (rows : list AppearanceRow) (st : run_state World) :
  ledger_kept ledger0 snapshot0 index0 given st ->
  ledger_kept ledger0 snapshot0 index0 given (save_rows json_dumps url rows st).
Proof.
  intros (Hledger & Hsnap & Hfailed & Hsub).
  unfold ledger_kept, save_rows, print. simpl.
  destruct (append_jsonl_keeps rows (run_files st)) as [-> ->].
  rewrite failed_urls_snoc. simpl. rewrite app_nil_r.
  split_and!; [done..|set_solver].
Qed.

Lemma ledger_kept_end_of_iteration ledger0 snapshot0 index0 given (st : run_state World) :
  ledger_kept ledger0 snapshot0 index0 given st ->
  ledger_kept ledger0 snapshot0 index0 given (end_of_iteration st).
Proof.
  apply ledger_kept_same; unfold end_of_iteration; destruct (_ =? 0); simpl; try done.
  by rewrite failed_urls_snoc, app_nil_r.
Qed.

Lemma main_loop_ledger_kept (BeautifulSoup : string -> result node)
    (request_html : string -> World -> option string * World)
    ledger0 snapshot0 index0 given (urls : list string) (st : run_state World) :
  (forall u, u ∈ urls -> u ∈ given) ->
  ledger_kept ledger0 snapshot0 index0 given st ->
  ledger_kept ledger0 snapshot0 index0 given
    (main_loop BeautifulSoup json_dumps request_html urls st).
Proof.
  revert st. induction urls as [|url urls IH]; intros st Hgiven Hinv; [done|].
  assert (forall u, u ∈ urls -> u ∈ given) as Hrest by (intros u Hu; apply Hgiven; by right).
  assert (url ∈ given) as Hurl by (apply Hgiven; by left).
  cbn [main_loop].
  destruct (bool_decide_reflect (url ∈ processed st)) as [Hold|Hnew].
  { apply IH; [done|]. by apply ledger_kept_print. }
  unfold fetch. cbn [run_world print].
  destruct (request_html url (run_world st)) as [html w].
  match goal with |- context [count_failure url "fetch_failed" (print _ ?s)] =>
    set (st1 := s) end.
  assert (ledger_kept ledger0 snapshot0 index0 given st1) as Hinv1.
  { revert Hinv. apply ledger_kept_same; simpl; [done| |done].
    by rewrite failed_urls_snoc, app_nil_r. }
  assert (url ∉ processed st1) as Hnew1 by done.
  clearbody st1.
  destruct (negb (truthy html)).
  { match goal with |- context [if ?c then _ else _] => destruct c end.
    - apply ledger_kept_print; [done|]. by apply ledger_kept_count_failure.
    - apply IH; [done|]. by apply ledger_kept_count_failure. }
  destruct (extract_from_html BeautifulSoup (default "" html) url) as [rows|e].
  - apply IH; [done|]. apply ledger_kept_end_of_iteration.
    destruct rows as [|r rows].
    + by apply ledger_kept_count_failure.
    + by apply ledger_kept_save_rows.
  - match goal with |- context [if ?c then _ else _] => destruct c end.
    + apply ledger_kept_print; [done|]. by apply ledger_kept_count_failure.
    + apply IH; [done|]. by apply ledger_kept_count_failure.
Qed.

End ledger_facts.

(** X14. The failure ledger of a run: the loop adds one entry for
    each failure it reports (a failed fetch, a document that does not
    parse, a document without rows), in the order of the reports, and
    nothing else; it removes nothing and does not touch the snapshot.
    Every failed URL was given to the run and was not in the index at
    the start. *)
Theorem ledger_lists_reported_failures
    (BeautifulSoup : string -> result node)
    (json_loads : string -> result json) (json_dumps : option nat -> bool -> json -> string)
    (World : Type) (request_html : string -> World -> option string * World)
    (urls : list string) (f : files) (w : World) :
  let index0 := load_already_processed_urls json_loads f in
  let st := main_loop BeautifulSoup json_dumps request_html urls
              (initial_state json_loads f w) in
  (FAIL_LOG (run_files st)).*1 = (FAIL_LOG f).*1 ++ failed_urls (run_out st) /\
  OUTPUT_JSON (run_files st) = OUTPUT_JSON f /\
  (forall u, u ∈ failed_urls (run_out st) -> (u ∈ urls) /\ (u ∉ index0)).
Proof.
  intros index0 st.
  destruct (main_loop_ledger_kept json_dumps World BeautifulSoup request_html
              ((FAIL_LOG f).*1) (OUTPUT_JSON f) index0 urls urls
              (initial_state json_loads f w)) as (H1 & H2 & H3 & _); [done| |done].
  unfold ledger_kept, initial_state. simpl. rewrite app_nil_r.
  split_and!; [done..| |done]. intros u Hu. by apply elem_of_nil in Hu.
Qed.



(** ** The augmenting run and the run over the missing URLs *)

Section augment_more.

Variable json_dumps : option nat -> bool -> json -> string.
Variable World : Type.

Lemma foldl_row_keys (rows : list AppearanceRow) (S : gset (string * string)) :
  foldl (fun s r => {[ row_key r ]} ∪ s) S rows = S ∪ list_to_set (row_key <$> rows).
Proof.
  revert S. induction rows as [|r rows IH]; intros S; csimpl; [set_solver|].
  rewrite IH. set_solver.
Qed.

Lemma existing_after_add (url : string) (new_rows : list AppearanceRow)
    (st : augment_state World) (u : string) :
  default ∅ (existing (add_new_rows json_dumps url new_rows st) !! u)
  = if decide (url = u)
    then default ∅ (existing st !! u) ∪ list_to_set (row_key <$> new_rows)
    else default ∅ (existing st !! u).
Proof.
  destruct new_rows as [|r new_rows].
  - simpl. case_decide; [by rewrite (right_id_L ∅ (∪))|done].
  - unfold add_new_rows. cbn [existing]. rewrite lookup_insert.
    destruct (decide (url = u)) as [<-|]; [|done].
    cbn [default]. by rewrite foldl_row_keys.
Qed.

Lemma index_add_lookup (mu pn tn : string) (idx : gmap string (gset (string * string)))
    (u : string) :
  default ∅ (index_add mu pn tn idx !! u)
  = if decide (mu = u) then {[ (pn, tn) ]} ∪ default ∅ (idx !! u) else default ∅ (idx !! u).
Proof. unfold index_add. rewrite lookup_insert. by destruct (decide (mu = u)) as [<-|]. Qed.

Lemma existing_index_loop_spec (data : list json) (idx idx' : gmap string (gset (string * string)))
    (mu pn tn : string) :
  existing_index_loop data idx = Ok idx' ->
  (pn, tn) ∈ default ∅ (idx' !! mu) <->
  (pn, tn) ∈ default ∅ (idx !! mu) \/ exists r, r ∈ data /\ stored_key r mu pn tn.
Proof.
  revert idx. induction data as [|r data IH]; intros idx; simpl.
  { intros [= <-]. split; [by left|]. intros [?|(r & Hr & _)]; [done|].
    by apply elem_of_nil in Hr. }
  destruct (Json.get "matchUrl" r) as [vmu|] eqn:Hmu; [|done]. simpl.
  destruct (Json.get "playerName" r) as [vpn|] eqn:Hpn; [|done]. simpl.
  destruct (Json.get "teamName" r) as [vtn|] eqn:Htn; [|done]. simpl.
  assert (forall s : string, bool_of (JStr s) = true <-> s <> "") as Hstr.
  { intros [|c s]; simpl; split; done. }
  assert ((exists r', r' ∈ r :: data /\ stored_key r' mu pn tn) <->
          (vmu = JStr mu /\ vpn = JStr pn /\ vtn = JStr tn /\
           mu <> "" /\ pn <> "" /\ tn <> "") \/
          exists r', r' ∈ data /\ stored_key r' mu pn tn) as Hsplit.
  { split.
    - intros (r' & [->|Hr']%elem_of_cons & Hkey); [left|right; by exists r'].
      destruct Hkey as (K1 & K2 & K3 & ? & ? & ?).
      rewrite Hmu in K1. rewrite Hpn in K2. rewrite Htn in K3.
      injection K1 as ->. injection K2 as ->. injection K3 as ->. done.
    - intros [(-> & -> & -> & ? & ? & ?)|(r' & Hr' & Hkey)].
      + exists r. split; [by left|]. done.
      + exists r'. split; [by right|done]. }
  rewrite Hsplit. clear Hsplit.
  destruct (_ || _) eqn:Hskip.
  - intros Hloop. rewrite (IH _ Hloop). apply or_iff_compat_l. split; [by right|].
    intros [(-> & -> & -> & H1 & H2 & H3)|?]; [|done].
    rewrite !(proj2 (Hstr _)) in Hskip by done. done.
  - apply orb_false_iff in Hskip as [[H1 H2]%orb_false_iff H3].
    apply negb_false_iff in H1, H2, H3.
    unfold index_add_values.
    destruct (hashable vmu) eqn:Hhmu; simpl; [|done].
    destruct (hashable vpn && hashable vtn) eqn:Hh; simpl; [|done].
    assert ((exists m p t, vmu = JStr m /\ vpn = JStr p /\ vtn = JStr t) \/
            ((forall m p t, ~ (vmu = JStr m /\ vpn = JStr p /\ vtn = JStr t)) /\
             match vmu, vpn, vtn with
             | JStr m, JStr p, JStr t => Ok (index_add m p t idx)
             | _, _, _ => Ok idx
             end = Ok idx)) as [(m & p & t & -> & -> & ->)|[Hnot Hsame]].
    { destruct vmu; try (right; split; [by intros ? ? ? (? & _)|done]).
      destruct vpn; try (right; split; [by intros ? ? ? (_ & ? & _)|done]).
      destruct vtn; try (right; split; [by intros ? ? ? (_ & _ & ?)|done]).
      left. do 3 eexists. done. }
    + apply Hstr in H1, H2, H3. simpl.
      intros Hloop. rewrite (IH _ Hloop), index_add_lookup. split.
      * intros [Hin|?]; [|by right; right].
        destruct (decide (m = mu)) as [->|]; [|by left].
        apply elem_of_union in Hin as [[= -> ->]%elem_of_singleton|?]; [|by left].
        right. left. done.
      * intros [Hin|[(Em & Ep & Et & _)|?]].
        -- left. destruct (decide (m = mu)); set_solver.
        -- injection Em as ->. injection Ep as ->. injection Et as ->.
           left. rewrite decide_True by done. set_solver.
        -- by right.
    + rewrite Hsame. simpl. intros Hloop. rewrite (IH _ Hloop).
      apply or_iff_compat_l. split; [by right|].
      intros [(-> & -> & -> & _)|?]; [|done]. by destruct (Hnot mu pn tn).
Qed.

End augment_more.

(** X20. After the new bench rows of a document were appended, the
    index holds their keys: the same document met again in the run
    gives no new row. The new rows have no minutes and were not in the
    index, and the index loses nothing. *)
Theorem augment_index_prevents_duplicates
    (json_dumps : option nat -> bool -> json -> string) (World : Type)
    (url : string) (rows : list AppearanceRow) (st : augment_state World) :
  let new_rows := bench_dnp_new_rows (default ∅ (existing st !! url)) rows in
  let st' := add_new_rows json_dumps url new_rows st in
  bench_dnp_new_rows (default ∅ (existing st' !! url)) rows = [] /\
  Forall (fun r => minutes_played r = None /\
                   row_key r ∉ default ∅ (existing st !! url)) new_rows /\
  (forall u, default ∅ (existing st !! u) ⊆ default ∅ (existing st' !! u)).
Proof.
  intros new_rows st'. split_and!.
  - apply no_new_bench_rows, Forall_forall. intros r Hr Hnone.
    unfold st'. rewrite existing_after_add, decide_True by done.
    destruct (decide (row_key r ∈ default ∅ (existing st !! url))) as [?|Hout];
      [set_solver|].
    apply elem_of_union. right. apply elem_of_list_to_set, list_elem_of_fmap.
    exists r. split; [done|]. unfold new_rows, bench_dnp_new_rows.
    apply list_elem_of_In, List.filter_In. split; [by apply list_elem_of_In|].
    rewrite bool_decide_eq_true_2 by done. by rewrite bool_decide_eq_false_2.
  - apply Forall_forall. intros r Hr.
    apply list_elem_of_In, List.filter_In in Hr as [_ [H1 H2]%andb_true_iff].
    apply bool_decide_eq_true in H1. apply negb_true_iff, bool_decide_eq_false in H2. done.
  - intros u. unfold st'. rewrite existing_after_add. case_decide; set_solver.
Qed.

(** X21. When the index of [augment_bench_dnp] loads, a pair of a
    player and a team is in it under a URL exactly when some element
    the loop meets in the snapshot holds the three as strings, none
    empty; without a snapshot the index is empty. *)
Theorem load_existing_index_holds_stored_keys
    (json_loads : string -> result json) (f : files)
    (idx : gmap string (gset (string * string))) (mu pn tn : string) :
  load_existing_index json_loads f = Ok idx ->
  (pn, tn) ∈ default ∅ (idx !! mu) <->
  exists text data rows r,
    OUTPUT_JSON f = Some text /\ json_loads text = Ok data /\ iter data = Ok rows /\
    r ∈ rows /\ stored_key r mu pn tn.
Proof.
  unfold load_existing_index. destruct (OUTPUT_JSON f) as [text|].
  - destruct (json_loads text) as [data|] eqn:Hdata; [|done]. simpl.
    destruct (iter data) as [rows|] eqn:Hiter; [|done]. simpl. intros Hloop.
    rewrite (existing_index_loop_spec rows ∅ idx mu pn tn Hloop). split.
    + intros [Hin|(r & ? & ?)]; [set_solver|]. by exists text, data, rows, r.
    + intros (t & data' & rows' & r & [= <-] & Hdata' & Hrows & ? & ?). right.
      rewrite Hdata in Hdata'. injection Hdata' as <-.
      rewrite Hiter in Hrows. injection Hrows as <-. by exists r.
  - intros [= <-]. split; [set_solver|]. by intros (t & data & rows & r & ? & _).
Qed.

(** The snapshot of [Demo], which holds the bench row of Elneny. *)
Lemma load_existing_index_holds_stored_keys_witness :
  exists idx,
    load_existing_index Demo.json_loads (mkFiles None (Some "snapshot") []) = Ok idx /\
    ("Elneny", "Arsenal") ∈ default ∅ (idx !! Demo.url).
Proof.
  destruct (load_existing_index Demo.json_loads (mkFiles None (Some "snapshot") []))
    as [idx|] eqn:Hidx; [|by vm_compute in Hidx].
  exists idx. split; [done|].
  apply (load_existing_index_holds_stored_keys Demo.json_loads
           (mkFiles None (Some "snapshot") []) idx Demo.url "Elneny" "Arsenal" Hidx).
  exists "snapshot", (JList [asdict Demo.elneny]), [asdict Demo.elneny], (asdict Demo.elneny).
  split_and!; [reflexivity|reflexivity|reflexivity|by left|].
  unfold stored_key. split_and!; try reflexivity; discriminate.
Defined.

(** The loader on snapshots that are not lists of rows: an empty
    dictionary and an empty string have nothing to iterate and give
    the empty index; a number cannot be iterated; an element that is
    not a dictionary has no [get]; a row with a list for a field that
    is to be hashed raises, unless an empty field lets the loop pass
    over it first; a row with a number for its URL adds nothing under
    a string. *)
Example load_existing_index_odd_snapshots :
  let load data :=
    load_existing_index (fun _ => Ok data) (mkFiles None (Some "snapshot") []) in
  let row mu pn tn := JDict [("matchUrl", mu); ("playerName", pn); ("teamName", tn)] in
  load (JDict []) = Ok ∅ /\
  load (JStr "") = Ok ∅ /\
  load (JInt 5) = Raise TypeError /\
  load (JDict [("a", JInt 1)]) = Raise AttributeError /\
  load (JList [JInt 5]) = Raise AttributeError /\
  load (JList [row (JList [JInt 1]) (JStr "p") (JStr "t")]) = Raise TypeError /\
  load (JList [row (JStr "u") (JList [JInt 1]) (JStr "t")]) = Raise TypeError /\
  load (JList [row (JList [JInt 1]) (JStr "") (JStr "t")]) = Ok ∅ /\
  load (JList [row (JInt 5) (JStr "p") (JStr "t")]) = Ok ∅.
Proof. vm_compute. split_and!; reflexivity. Qed.

Section missing_more.

Variable BeautifulSoup : string -> result node.
Variable json_dumps : option nat -> bool -> json -> string.
Variable World : Type.
Variable request_html : string -> World -> option string * World.

Lemma missing_loop_spec (urls : list string) (n : nat) (f : files) (w : World) :
  missing_loop BeautifulSoup json_dumps request_html urls n f w
  = (n + length (fetch_all BeautifulSoup request_html urls w).1,
     append_jsonl json_dumps (fetch_all BeautifulSoup request_html urls w).1 f,
     (fetch_all BeautifulSoup request_html urls w).2).
Proof.
  revert n f w. induction urls as [|url urls IH]; intros n f w.
  { simpl. by rewrite Nat.add_0_r. }
  cbn [missing_loop fetch_all].
  destruct (request_html url w) as [html w1].
  destruct (fetch_all BeautifulSoup request_html urls w1) as [more w2] eqn:Hmore.
  assert (missing_loop BeautifulSoup json_dumps request_html urls n f w1
          = (n + length more, append_jsonl json_dumps more f, w2)) as Hskip.
  { rewrite IH, Hmore. done. }
  destruct (truthy html); simpl; [|exact Hskip].
  destruct (extract_from_html BeautifulSoup (default "" html) url) as [rows|e]; simpl;
    [|exact Hskip].
  destruct rows as [|r rows]; [exact Hskip|].
  rewrite IH, Hmore. cbn [fst snd].
  rewrite length_app, (append_jsonl_app_two json_dumps (r :: rows) more).
  f_equal. f_equal. lia.
Qed.

End missing_more.

(** X22. The run over the missing URLs fetches every URL once, in
    order, and appends to the log the rows of every document that is
    obtained and parses, as one batch would: it consults no index, so
    that rows already stored are appended again, and it leaves the
    failure ledger as it is. It ends with the rebuild: the files it
    leaves are those [rebuild_full_json_from_jsonl] gives from the
    files with the rows appended, and the rebuild returns. Without the
    file of the URLs, or with an empty list in it, nothing is fetched,
    appended or rebuilt. *)
Theorem extract_missing_appends_all_rows
    (BeautifulSoup : string -> result node)
    (json_loads : string -> result json) (json_dumps : option nat -> bool -> json -> string)
    (World : Type) (request_html : string -> World -> option string * World)
    (url : string) (urls : list string) (f : files) (w : World) :
  let rows := (fetch_all BeautifulSoup request_html (url :: urls) w).1 in
  let w' := (fetch_all BeautifulSoup request_html (url :: urls) w).2 in
  (exists f',
     rebuild_full_json_from_jsonl json_loads json_dumps (append_jsonl json_dumps rows f)
     = Ok f' /\
     extract_missing_main BeautifulSoup json_loads json_dumps request_html
       (Some (url :: urls)) f w
     = Ok (f', w') /\
     OUTPUT_JSONL f' = OUTPUT_JSONL (append_jsonl json_dumps rows f) /\
     FAIL_LOG f' = FAIL_LOG f) /\
  log_text (append_jsonl json_dumps rows f) = log_text f +:+ write_rows json_dumps rows "" /\
  extract_missing_main BeautifulSoup json_loads json_dumps request_html None f w = Ok (f, w) /\
  extract_missing_main BeautifulSoup json_loads json_dumps request_html (Some []) f w
  = Ok (f, w).
Proof.
  intros rows w'. split_and!; [|apply append_jsonl_extends|done..].
  unfold extract_missing_main. rewrite missing_loop_spec. fold rows w'.
  destruct (rebuild_returns json_loads json_dumps (append_jsonl json_dumps rows f))
    as (snapshot & Hre).
  rewrite Hre. eexists. split; [done|]. simpl. split_and!; [done..|].
  unfold append_jsonl. by destruct rows.
Qed.

(** ** The repair of the started flags *)

Section fix_more.

Variable BeautifulSoup : string -> result node.
Variable World : Type.
Variable request_html : string -> World -> option string * World.

Lemma keys_group_add (mu : string) (i : nat) (d : list (string * list nat)) :
  (group_add mu i d).*1 = if bool_decide (mu ∈ d.*1) then d.*1 else d.*1 ++ [mu].
Proof.
  induction d as [|[k rows] d IH]; csimpl; [done|].
  destruct (String.eqb_spec k mu) as [->|Hne]; csimpl.
  - rewrite bool_decide_eq_true_2 by left. done.
  - rewrite IH. destruct (bool_decide_reflect (mu ∈ d.*1)) as [Hin|Hout].
    + rewrite bool_decide_eq_true_2 by (by right). done.
    + rewrite bool_decide_eq_false_2; [done|].
      intros [?|?]%elem_of_cons; congruence.
Qed.

Lemma get_group_add (url mu : string) (i : nat) (d : list (string * list nat)) :
  get_group url (group_add mu i d)
  = if String.eqb mu url then get_group url d ++ [i] else get_group url d.
Proof.
  induction d as [|[k rows] d IH]; csimpl.
  - by destruct (String.eqb mu url).
  - destruct (String.eqb_spec k mu) as [->|Hne]; csimpl.
    + by destruct (String.eqb mu url).
    + destruct (String.eqb_spec k url) as [->|Hne'].
      * rewrite (proj2 (String.eqb_neq mu url)) by congruence. done.
      * exact IH.
Qed.

Lemma group_loop_keys (data : list AppearanceRow) (i : nat) (d : list (string * list nat)) :
  (group_loop data i d).*1
  = d.*1 ++ List.filter (fun u => negb (bool_decide (u ∈ d.*1))) (first_seen data).
Proof.
  unfold first_seen. revert i d.
  induction data as [|r data IH]; intros i d; csimpl.
  { by rewrite app_nil_r. }
  destruct (is_empty (matchUrl r)) eqn:Hmu; csimpl; [apply IH|].
  rewrite IH, keys_group_add.
  destruct (bool_decide_reflect (matchUrl r ∈ d.*1)) as [Hin|Hout]; csimpl.
  - by rewrite filter_filter_absorb.
  - rewrite <- app_assoc. csimpl. by rewrite filter_snoc_keys.
Qed.

Lemma group_loop_groups (data : list AppearanceRow) (i : nat) (d : list (string * list nat))
    (url : string) :
  url <> "" ->
  get_group url (group_loop data i d) = get_group url d ++ positions url data i.
Proof.
  intros Hurl. revert i d.
  induction data as [|r data IH]; intros i d; csimpl.
  { by rewrite app_nil_r. }
  destruct (is_empty (matchUrl r)) eqn:Hmu.
  - rewrite IH. destruct (String.eqb_spec (matchUrl r) url) as [Heq|Hne]; [|done].
    rewrite Heq in Hmu. by destruct url.
  - rewrite IH, get_group_add.
    destruct (String.eqb (matchUrl r) url); [|done].
    by rewrite <- app_assoc.
Qed.

Lemma groups_by_keys (d : list (string * list nat)) :
  NoDup d.*1 -> d = (fun k => (k, get_group k d)) <$> d.*1.
Proof.
  induction d as [|[k rows] d IH]; csimpl; [done|].
  intros [Hk Hd]%NoDup_cons. rewrite String.eqb_refl. f_equal.
  rewrite IH at 1 by done. apply list_fmap_ext.
  intros i k' Hk'. f_equal.
  rewrite (proj2 (String.eqb_neq k k')); [done|].
  intros ->. apply Hk. by eapply list_elem_of_lookup_2.
Qed.

Lemma first_seen_nonempty (data : list AppearanceRow) (u : string) :
  u ∈ first_seen data -> u <> "".
Proof.
  unfold first_seen. intros [_ Hne]%elem_of_dedup%elem_of_filter_bool. by destruct u.
Qed.

(** The groups: one for each URL, in the order in which the snapshot
    first names them, with the positions of the rows of that URL. *)
Lemma group_loop_spec (data : list AppearanceRow) :
  group_loop data 0 [] = (fun u => (u, positions u data 0)) <$> first_seen data.
Proof.
  pose proof (group_loop_keys data 0 []) as Hkeys. csimpl in Hkeys.
  rewrite (filter_all (fun _ => true)) in Hkeys by (by apply Forall_true).
  rewrite (groups_by_keys (group_loop data 0 [])), Hkeys.
  - apply list_fmap_ext. intros i url Hurl. f_equal.
    rewrite group_loop_groups; [done|].
    eapply first_seen_nonempty, list_elem_of_lookup_2, Hurl.
  - rewrite Hkeys. apply NoDup_dedup.
Qed.

Lemma fix_rows_spec (rows : list nat) (starters : gset string)
    (data : list AppearanceRow) (n : nat) :
  fix_rows rows starters data n
  = (foldl (fun d i =>
              alter (fun r => set_started (bool_decide (playerName r ∈ starters)) r) i d)
       data rows,
     n + length rows).
Proof.
  revert data n. induction rows as [|i rows IH]; intros data n; simpl.
  - by rewrite Nat.add_0_r.
  - rewrite IH. f_equal. lia.
Qed.

Lemma alter_positions (f : AppearanceRow -> AppearanceRow) (u : string)
    (pre rest : list AppearanceRow) :
  foldl (fun d i => alter f i d) (pre ++ rest) (positions u rest (length pre))
  = pre ++ ((fun r => if String.eqb (matchUrl r) u then f r else r) <$> rest).
Proof.
  revert pre. induction rest as [|r rest IH]; intros pre; csimpl; [done|].
  destruct (String.eqb (matchUrl r) u); csimpl.
  - rewrite <- (Nat.add_0_r (length pre)) at 1. rewrite alter_app_r. csimpl.
    rewrite (cons_middle (f r) pre rest), app_assoc.
    replace (S (length pre)) with (length (pre ++ [f r])) by (rewrite length_app; simpl; lia).
    rewrite IH, <- app_assoc. done.
  - rewrite (cons_middle r pre rest), app_assoc.
    replace (S (length pre)) with (length (pre ++ [r])) by (rewrite length_app; simpl; lia).
    rewrite IH, <- app_assoc. done.
Qed.

Lemma positions_fmap (g : AppearanceRow -> AppearanceRow) (u : string)
    (data : list AppearanceRow) (i : nat) :
  (forall r, matchUrl (g r) = matchUrl r) ->
  positions u (g <$> data) i = positions u data i.
Proof.
  intros Hg. revert i. induction data as [|r data IH]; intros i; csimpl; [done|].
  rewrite Hg, !IH. done.
Qed.

Lemma length_positions (u : string) (data : list AppearanceRow) (i : nat) :
  length (positions u data i)
  = length (List.filter (fun r => String.eqb (matchUrl r) u) data).
Proof.
  revert i. induction data as [|r data IH]; intros i; csimpl; [done|].
  destruct (String.eqb (matchUrl r) u); csimpl; by rewrite IH.
Qed.

Lemma fixed_rows_insert (found : gmap string (gset string)) (u : string)
    (starters : gset string) (data : list AppearanceRow) :
  found !! u = None ->
  fixed_rows (<[ u := starters ]> found) data
  = length (List.filter (fun r => String.eqb (matchUrl r) u) data) + fixed_rows found data.
Proof.
  intros Hu. unfold fixed_rows. induction data as [|r data IH]; csimpl; [done|].
  destruct (String.eqb_spec (matchUrl r) u) as [->|Hne].
  - rewrite lookup_insert_eq, Hu.
    rewrite bool_decide_eq_true_2 by done.
    rewrite bool_decide_eq_false_2 by (by intros [? ?]).
    csimpl. by rewrite IH.
  - rewrite lookup_insert_ne by done.
    destruct (bool_decide (is_Some (found !! matchUrl r))); csimpl; rewrite IH; lia.
Qed.

Lemma fixed_rows_fmap (found : gmap string (gset string)) (g : AppearanceRow -> AppearanceRow)
    (data : list AppearanceRow) :
  (forall r, matchUrl (g r) = matchUrl r) ->
  fixed_rows found (g <$> data) = fixed_rows found data.
Proof.
  intros Hg. unfold fixed_rows. induction data as [|r data IH]; csimpl; [done|].
  rewrite Hg. destruct (bool_decide (is_Some (found !! matchUrl r))); csimpl; by rewrite IH.
Qed.

Lemma lineups_read_keys (urls : list string) (w w' : World)
    (found : list (string * gset string)) :
  lineups_read BeautifulSoup request_html urls w = Ok (found, w') ->
  forall k, k ∈ found.*1 -> k ∈ urls.
Proof.
  revert w found. induction urls as [|u urls IH]; intros w found; simpl.
  { intros [= <- _] k Hk. by apply elem_of_nil in Hk. }
  destruct (request_html u w) as [html w1].
  destruct (negb (truthy html)).
  { intros Hread k Hk. right. by eapply IH. }
  destruct (get_lineup_starters_from_html BeautifulSoup (default "" html)) as [s|e]; [|done].
  destruct (lineups_read BeautifulSoup request_html urls w1) as [[found1 w2]|e] eqn:Hread;
    [|done].
  intros [= <- <-] k Hk. destruct (bool_decide (s = ∅)).
  - right. by eapply IH.
  - csimpl in Hk. apply elem_of_cons in Hk as [->|Hk]; [by left|].
    right. by eapply IH.
Qed.

Lemma lineups_read_world (urls : list string) (w w' : World)
    (found : list (string * gset string)) :
  lineups_read BeautifulSoup request_html urls w = Ok (found, w') ->
  w' = fetches request_html urls w.
Proof.
  unfold fetches. revert w found. induction urls as [|u urls IH]; intros w found; simpl.
  { by intros [= _ <-]. }
  destruct (request_html u w) as [html w1]. simpl.
  destruct (negb (truthy html)); [apply IH|].
  destruct (get_lineup_starters_from_html BeautifulSoup (default "" html)) as [s|e]; [|done].
  destruct (lineups_read BeautifulSoup request_html urls w1) as [[found1 w2]|e] eqn:Hread;
    [|done].
  intros [= _ <-]. by eapply IH.
Qed.

Lemma fix_loop_spec (urls : list string) (d : list AppearanceRow) (n : nat) (w : World) :
  NoDup urls ->
  fix_loop BeautifulSoup request_html ((fun u => (u, positions u d 0)) <$> urls) d n w
  = match lineups_read BeautifulSoup request_html urls w with
    | Ok (found, w') =>
        Ok (fix_row (list_to_map found) <$> d, n + fixed_rows (list_to_map found) d, w')
    | Raise e => Raise e
    end.
Proof.
  revert d n w. induction urls as [|u urls IH]; intros d n w Hnodup.
  { simpl. assert (fix_row ∅ <$> d = d) as ->.
    { rewrite <- (list_fmap_id d) at 2. apply list_fmap_ext. intros i r _.
      unfold fix_row. by rewrite lookup_empty. }
    assert (fixed_rows ∅ d = 0) as ->; [|by rewrite Nat.add_0_r].
    unfold fixed_rows. induction d as [|r d IHd]; csimpl; [done|].
    rewrite lookup_empty, bool_decide_eq_false_2 by (by intros [? ?]). exact IHd. }
  apply NoDup_cons in Hnodup as [Hu Hnodup].
  cbn [fmap list_fmap fix_loop lineups_read].
  destruct (request_html u w) as [html w1].
  destruct (negb (truthy html)); [by apply IH|].
  destruct (get_lineup_starters_from_html BeautifulSoup (default "" html)) as [s|e];
    simpl; [|done].
  destruct (bool_decide (s = ∅)).
  { rewrite IH by done.
    by destruct (lineups_read BeautifulSoup request_html urls w1) as [[found w2]|e]. }
  rewrite fix_rows_spec.
  pose proof (alter_positions
                (fun r => set_started (bool_decide (playerName r ∈ s)) r) u [] d) as Halter.
  simpl in Halter. rewrite Halter. clear Halter.
  set (g := fun r : AppearanceRow =>
              if String.eqb (matchUrl r) u
              then set_started (bool_decide (playerName r ∈ s)) r else r).
  assert (forall r, matchUrl (g r) = matchUrl r) as Hg.
  { intros r. unfold g. by destruct (String.eqb (matchUrl r) u). }
  rewrite (list_fmap_ext (fun u0 => (u0, positions u0 d 0))
             (fun u0 => (u0, positions u0 (g <$> d) 0)) urls)
    by (intros; by rewrite positions_fmap).
  rewrite IH by done.
  destruct (lineups_read BeautifulSoup request_html urls w1) as [[found w2]|e] eqn:Hread;
    [|done].
  assert ((list_to_map found : gmap string (gset string)) !! u = None) as Hnone.
  { apply not_elem_of_list_to_map_1. intros Hin. apply Hu.
    by eapply lineups_read_keys. }
  rewrite list_to_map_cons. f_equal. f_equal. f_equal.
  - rewrite <- list_fmap_compose. apply list_fmap_ext. intros i r _.
    unfold compose, fix_row. rewrite Hg. unfold g.
    destruct (String.eqb_spec (matchUrl r) u) as [->|Hne].
    + by rewrite lookup_insert_eq, Hnone.
    + by rewrite lookup_insert_ne.
  - rewrite fixed_rows_insert, fixed_rows_fmap, length_positions by done. lia.
Qed.

(** What [main] writes, in terms of the lineups read. *)
Lemma fix_started_main_spec (data : list AppearanceRow) (w : World) :
  fix_started_main BeautifulSoup request_html data w
  = match lineups_read BeautifulSoup request_html (first_seen data) w with
    | Ok (found, w') =>
        Ok (fix_row (list_to_map found) <$> data, fixed_rows (list_to_map found) data, w')
    | Raise e => Raise e
    end.
Proof.
  unfold fix_started_main. rewrite group_loop_spec, fix_loop_spec; [done|].
  apply NoDup_dedup.
Qed.

End fix_more.

(** X23. The repair of the started flags fetches the page of every
    URL of the snapshot once, in the order in which the snapshot first
    names them. A row whose page was obtained and names a starter is
    started exactly when its player is among the starters of that
    page; every other row stays as it is. The count is the number of
    the rows that were set, and a page that does not parse ends the
    run with its error. *)
Theorem fix_started_sets_flags_from_lineups
    (BeautifulSoup : string -> result node) (World : Type)
    (request_html : string -> World -> option string * World)
    (data : list AppearanceRow) (w : World) :
  fix_started_main BeautifulSoup request_html data w
  = match lineups_read BeautifulSoup request_html (first_seen data) w with
    | Ok (found, w') =>
        Ok (fix_row (list_to_map found) <$> data, fixed_rows (list_to_map found) data, w')
    | Raise e => Raise e
    end.
Proof. apply fix_started_main_spec. Qed.

(** X24. When the repair ends, the snapshot it writes has the rows
    of the one it read, in their order, with nothing but the started
    flag changed, and the rows without URL unchanged; the count is at
    most the number of rows, and the network was asked once for each
    URL of the snapshot. *)
Theorem fix_started_changes_only_flags
    (BeautifulSoup : string -> result node) (World : Type)
    (request_html : string -> World -> option string * World)
    (data data' : list AppearanceRow) (n : nat) (w w' : World) :
  fix_started_main BeautifulSoup request_html data w = Ok (data', n, w') ->
  Forall2 flag_fixed data data' /\
  n <= length data /\
  w' = fetches request_html (first_seen data) w.
Proof.
  rewrite fix_started_main_spec.
  destruct (lineups_read BeautifulSoup request_html (first_seen data) w)
    as [[found w1]|e] eqn:Hread; [|done].
  intros [= <- <- <-]. split_and!.
  - apply Forall2_fmap_r, Forall_Forall2_diag, Forall_forall. intros r _.
    unfold flag_fixed, fix_row, compose. cbv beta.
    destruct ((list_to_map found : gmap string (gset string)) !! matchUrl r)
      as [s|] eqn:Hs.
    + split; [done|]. intros Hempty. rewrite Hempty in Hs.
      apply elem_of_list_to_map_2, (list_elem_of_fmap_2 fst) in Hs.
      apply (lineups_read_keys _ _ _ _ _ _ _ Hread), first_seen_nonempty in Hs. done.
    + split; [by destruct r|done].
  - unfold fixed_rows. apply List.filter_length_le.
  - by eapply lineups_read_world.
Qed.

(** A snapshot with a substitute of the match report of [Demo] marked
    as a starter by mistake, and a row without URL. *)
Lemma fix_started_changes_only_flags_witness :
  let data :=
    [set_started true Demo.elneny; Reconcile.set_teamName "Liverpool" Demo.elneny;
     mkAppearanceRow "" "" "Saka" "Arsenal" true true None None None] in
  exists data' n w',
    fix_started_main Demo.BeautifulSoup Demo.request_html data 0 = Ok (data', n, w') /\
    Forall2 flag_fixed data data' /\
    n <= length data /\
    w' = fetches Demo.request_html (first_seen data) 0.
Proof.
  intros data.
  destruct (fix_started_main Demo.BeautifulSoup Demo.request_html data 0)
    as [[[data' n] w']|e] eqn:Hrun; [|by vm_compute in Hrun].
  exists data', n, w'. split; [done|].
  exact (fix_started_changes_only_flags Demo.BeautifulSoup nat Demo.request_html
           data data' n 0 w' Hrun).
Defined.

(** On that snapshot the two rows of the match are set, after one
    fetch, and the row without URL keeps its flag. *)
Example demo_fix_started :
  fix_started_main Demo.BeautifulSoup Demo.request_html
    [set_started true Demo.elneny; Reconcile.set_teamName "Liverpool" Demo.elneny;
     mkAppearanceRow "" "" "Saka" "Arsenal" true true None None None] 0
  = Ok ([Demo.elneny; Reconcile.set_teamName "Liverpool" Demo.elneny;
         mkAppearanceRow "" "" "Saka" "Arsenal" true true None None None], 2, 1).
Proof. vm_compute. reflexivity. Qed.

(** ** The reconciler, further *)

Section reconciler_more.

Import Reconcile.

Lemma index_loop_rows (rows done : list AppearanceRow) (d : list (string * gset string)) :
  (index_loop rows done d).1
  = done ++ ((fun r => set_teamName (normalize_team (teamName r)) r) <$> rows).
Proof.
  revert done d. induction rows as [|r rows IH]; intros done d; csimpl.
  { by rewrite app_nil_r. }
  destruct (negb (is_empty (matchUrl r))); rewrite IH, <- app_assoc; done.
Qed.

End reconciler_more.

(** X25. The normalized snapshot the reconciler writes holds the rows
    of the snapshot it read, in their order, with the team name of
    each normalized and nothing else changed; the rows without URL are
    normalized like the others. *)
Theorem reconciler_normalizes_every_row
    (urljoin : string -> string -> string)
    (fixtures : Reconcile.fixtures_file) (rows : list AppearanceRow) :
  Reconcile.normalized_rows (Reconcile.main urljoin fixtures rows)
  = (fun r => Reconcile.set_teamName (Reconcile.normalize_team (teamName r)) r) <$> rows.
Proof.
  unfold Reconcile.main.
  pose proof (index_loop_rows rows [] []) as Hrows.
  destruct (Reconcile.index_loop rows [] []) as [rows' d]. simpl in *. by subst.
Qed.

(** X26. The loop of [normalize_team] that collapses double spaces
    ends, within as many turns as the name has characters: the name
    that is looked up in the table of aliases has no double space, and
    a name without double space goes through the loop unchanged. *)
Theorem normalize_team_looks_up_collapsed_name (name : string) :
  let n := strip (replace "Table" "" name) in
  let n' := Reconcile.collapse_spaces (String.length n) n in
  contains "  " n' = false /\
  (contains "  " n = false -> n' = n) /\
  Reconcile.normalize_team name
  = if is_empty name then name
    else match Reconcile.TEAM_ALIASES !! n' with
         | Some full => full
         | None => replace " Utd" " United" n'
         end.
Proof.
  intros n n'. split_and!.
  - by apply collapse_spaces_terminates.
  - unfold n'. destruct (String.length n); simpl; [done|]. by intros ->.
  - done.
Qed.

(** X27. Every alias of the table is rewritten to its full name, with
    or without the word Table after it, and the full names of the
    table are left as they are when they are normalized again. *)
Theorem aliases_normalize_to_stable_names (alias full : string) :
  Reconcile.TEAM_ALIASES !! alias = Some full ->
  Reconcile.normalize_team alias = full /\
  Reconcile.normalize_team (alias +:+ " Table") = full /\
  Reconcile.normalize_team full = full.
Proof.
  intros Hin. apply elem_of_list_to_map_2 in Hin.
  repeat (apply elem_of_cons in Hin as [[= -> ->]|Hin];
          [split_and!; vm_compute; reflexivity|]).
  by apply elem_of_nil in Hin.
Qed.

Lemma aliases_normalize_to_stable_names_witness :
  Reconcile.normalize_team "Wolves" = "Wolverhampton Wanderers" /\
  Reconcile.normalize_team "Wolves Table" = "Wolverhampton Wanderers" /\
  Reconcile.normalize_team "Wolverhampton Wanderers" = "Wolverhampton Wanderers".
Proof.
  apply (aliases_normalize_to_stable_names "Wolves" "Wolverhampton Wanderers").
  reflexivity.
Defined.
